(** * GyaanSetu chat client: the agent turn-loop, provider adapter, tool
      executor and conversation store, embedded from agent.js (the
      [GyaanSetu] class) and services/llm.js.

    The program is JavaScript.  Its data are JSON-like values, so the
    embedding works over one type [value] of JavaScript values with the
    handful of language operations the code uses (property access,
    truthiness, [||], string conversion, strict comparison against string
    literals).  Methods of the class become functions in a state-and-exception
    monad over [World], the part of [this.state] and of the browser the core
    touches.  What the browser supplies (the JSON codec, the clock, the
    network) is an [Env], universally quantified in every theorem.

    Modelling boundaries:
    - numbers are integers ([Z]); fractional numbers, NaN and infinities do
      not occur in the data the modelled methods compute with;
    - a string is the UTF-8 bytes of the JavaScript string (which has no
      unpaired surrogate); strings are compared and measured per byte, which
      is per character for ASCII text;
    - an array is its elements: a named property assigned to an array is
      not kept;
    - DOM and rendering calls (displayMessage, showToast, updateUIState,
      updatePerformanceDisplay, ...) catch their own failures, have no effect
      on the modelled state and are left out;
    - one control flow: nothing interleaves with a turn at its awaits; the
      order in which the promises of a tool batch settle is the one the
      event loop gives to code that awaits nothing but the tool stubs;
    - what the page supplies to a method (the value of an input element, the
      answer of a confirm dialog, the message a context menu was opened on,
      the files of a drop) is a parameter of it; whether the page has the
      element of the message log belongs to the environment; of the page
      itself only what the theme methods read and write is kept ([Page]);
    - letter case, and the white space of the regular expression of
      exportConversation, are those of ASCII. *)

From Stdlib Require Import ZArith List String Ascii Bool Lia.
From Stdlib Require Import DecimalString.
Import ListNotations.
Set Warnings "-register-all".
Local Open Scope string_scope.
Local Open Scope list_scope.

(** String concatenation, kept apart from list append. *)
Infix "^^" := String.append (at level 60, right associativity).

(* ===================================================================== *)
(** ** JavaScript values and the operations the code uses               *)
(* ===================================================================== *)

Module JS.

(** A JavaScript value.  An object is its own enumerable properties in
    property order. *)
Inductive value : Type :=
| VUndef
| VNull
| VBool (b : bool)
| VNum (n : Z)
| VStr (s : string)
| VArr (elems : list value)
| VObj (props : list (string * value)).

(** Thrown values.  The code only throws and catches [Error] objects; the
    engine adds [TypeError] (property access on null or undefined, calling a
    non-function, destructuring null) and [SyntaxError] (JSON.parse). *)
Inductive exn : Type :=
| Error (message : string)
| TypeError (message : string)
| SyntaxError (message : string).

Definition exn_message (e : exn) : string :=
  match e with Error m | TypeError m | SyntaxError m => m end.

Definition exn_name (e : exn) : string :=
  match e with
  | Error _ => "Error" | TypeError _ => "TypeError" | SyntaxError _ => "SyntaxError"
  end.

(** [String(err)] for an error object: Error.prototype.toString. *)
Definition exn_to_string (e : exn) : string :=
  if (exn_message e =? "")%string then exn_name e
  else exn_name e ^^ ": " ^^ exn_message e.

(** [err.message || err] inside a template literal. *)
Definition message_or_self (e : exn) : string :=
  if (exn_message e =? "")%string then exn_to_string e else exn_message e.

Inductive result (A : Type) : Type :=
| Ok (a : A)
| Throw (e : exn).
Arguments Ok {A} a.
Arguments Throw {A} e.

(** ToBoolean. *)
Definition truthy (v : value) : bool :=
  match v with
  | VUndef | VNull => false
  | VBool b => b
  | VNum n => negb (n =? 0)%Z
  | VStr s => negb (s =? "")%string
  | VArr _ | VObj _ => true
  end.

(** [a || b]. *)
Definition js_or (a b : value) : value := if truthy a then a else b.

Definition is_nullish (v : value) : bool :=
  match v with VUndef | VNull => true | _ => false end.

(** [typeof v === 'string'], [Array.isArray(v)], [typeof v === 'object']. *)
Definition is_string (v : value) : bool :=
  match v with VStr _ => true | _ => false end.

Definition is_array (v : value) : bool :=
  match v with VArr _ => true | _ => false end.

Definition typeof_object (v : value) : bool :=
  match v with VNull | VArr _ | VObj _ => true | _ => false end.

(** [v === 'lit'] for a string literal. *)
Definition str_is (v : value) (lit : string) : bool :=
  match v with VStr s => (s =? lit)%string | _ => false end.

(** Own-property lookup and assignment on a property list. *)
Fixpoint lookup (k : string) (props : list (string * value)) : value :=
  match props with
  | [] => VUndef
  | (k', v) :: rest => if (k =? k')%string then v else lookup k rest
  end.

Fixpoint assign (k : string) (v : value) (props : list (string * value))
  : list (string * value) :=
  match props with
  | [] => [(k, v)]
  | (k', v') :: rest =>
      if (k =? k')%string then (k, v) :: rest else (k', v') :: assign k v rest
  end.

Definition read_of_nullish (what k : string) : exn :=
  TypeError ("Cannot read properties of " ^^ what ^^ " (reading '" ^^ k ^^ "')").

(** [v.k] for the property names the code reads.  None of them is inherited
    from a prototype except [length] of arrays and strings. *)
Definition get_prop (v : value) (k : string) : result value :=
  match v with
  | VUndef => Throw (read_of_nullish "undefined" k)
  | VNull => Throw (read_of_nullish "null" k)
  | VObj props => Ok (lookup k props)
  | VArr l => Ok (if (k =? "length")%string then VNum (Z.of_nat (List.length l)) else VUndef)
  | VStr s => Ok (if (k =? "length")%string then VNum (Z.of_nat (String.length s)) else VUndef)
  | VBool _ | VNum _ => Ok VUndef
  end.

Definition index_key (i : nat) : string := NilZero.string_of_uint (Nat.to_uint i).

(** [v[i]] for a literal index. *)
Definition get_index (v : value) (i : nat) : result value :=
  match v with
  | VUndef => Throw (read_of_nullish "undefined" (index_key i))
  | VNull => Throw (read_of_nullish "null" (index_key i))
  | VArr l => Ok (nth i l VUndef)
  | VStr s => Ok (match String.get i s with
                  | Some c => VStr (String c EmptyString)
                  | None => VUndef
                  end)
  | VObj props => Ok (lookup (index_key i) props)
  | VBool _ | VNum _ => Ok VUndef
  end.

(** [v?.k]. *)
Definition get_prop_opt (v : value) (k : string) : value :=
  match get_prop v k with Ok x => x | Throw _ => VUndef end.

Definition num_to_string (n : Z) : string := NilZero.string_of_int (Z.to_int n).

(** An object has an own property [k]. *)
Definition own (k : string) (props : list (string * value)) : bool :=
  existsb (fun kv => (fst kv =? k)%string) props.

Definition not_primitive : exn :=
  TypeError "Cannot convert object to primitive value".

(** ToString, as a template literal [`${v}`] applies it.  A plain object
    is converted by the toString it inherits; an own property of that name,
    which in JSON data is never a function, leaves nothing to call.  An array
    is converted by its join. *)
Fixpoint ToString (v : value) : result string :=
  match v with
  | VUndef => Ok "undefined"
  | VNull => Ok "null"
  | VBool true => Ok "true"
  | VBool false => Ok "false"
  | VNum n => Ok (num_to_string n)
  | VStr s => Ok s
  | VArr l =>
      (fix commas (l : list value) : result string :=
         match l with
         | [] => Ok ""
         | x :: rest =>
             match (match x with VUndef | VNull => Ok "" | _ => ToString x end) with
             | Throw e => Throw e
             | Ok sx =>
                 match rest with
                 | [] => Ok sx
                 | _ :: _ =>
                     match commas rest with
                     | Ok sr => Ok (sx ^^ "," ^^ sr)
                     | Throw e => Throw e
                     end
                 end
             end
         end) l
  | VObj props => if own "toString" props then Throw not_primitive else Ok "[object Object]"
  end.

(** [arr.join(sep)]. *)
Definition join_elem (x : value) : result string :=
  match x with VUndef | VNull => Ok "" | _ => ToString x end.

Fixpoint join (sep : string) (l : list value) : result string :=
  match l with
  | [] => Ok ""
  | x :: rest =>
      match join_elem x with
      | Throw e => Throw e
      | Ok sx =>
          match rest with
          | [] => Ok sx
          | _ :: _ =>
              match join sep rest with
              | Ok sr => Ok (sx ^^ sep ^^ sr)
              | Throw e => Throw e
              end
          end
      end
  end.

(** ToPrimitive: an object or array becomes its string. *)
Definition ToPrimitive (v : value) : result value :=
  match v with
  | VArr _ | VObj _ => match ToString v with Ok s => Ok (VStr s) | Throw e => Throw e end
  | _ => Ok v
  end.

(** [s.substring(0, n)]. *)
Definition substring0 (n : nat) (s : string) : string := String.substring 0 n s.

Definition is_space (c : ascii) : bool :=
  match nat_of_ascii c with
  | 9%nat | 10%nat | 11%nat | 12%nat | 13%nat | 32%nat => true
  | _ => false
  end.

(** The white space [String.prototype.trim] removes (WhiteSpace and
    LineTerminator of the language) beyond the one-byte characters of
    [is_space], by the UTF-8 bytes of the code point: U+00A0 in two bytes;
    U+1680, U+2000 to U+200A, U+2028, U+2029, U+202F, U+205F, U+3000 and
    U+FEFF in three. *)
Definition is_byte (c : ascii) (n : nat) : bool := Nat.eqb (nat_of_ascii c) n.

Definition two_byte_space (c d : ascii) : bool :=
  is_byte c 194 && is_byte d 160.

Definition three_byte_space (c d e : ascii) : bool :=
  (is_byte c 225 && is_byte d 154 && is_byte e 128)
  || (is_byte c 226 && is_byte d 128 &&
      ((Nat.leb 128 (nat_of_ascii e) && Nat.leb (nat_of_ascii e) 138)
       || is_byte e 168 || is_byte e 169 || is_byte e 175))
  || (is_byte c 226 && is_byte d 129 && is_byte e 159)
  || (is_byte c 227 && is_byte d 128 && is_byte e 128)
  || (is_byte c 239 && is_byte d 187 && is_byte e 191).

Fixpoint trim_left (s : string) : string :=
  match s with
  | EmptyString => EmptyString
  | String c rest =>
      if is_space c then trim_left rest
      else
        match rest with
        | EmptyString => s
        | String d rest1 =>
            if two_byte_space c d then trim_left rest1
            else
              match rest1 with
              | EmptyString => s
              | String e rest2 =>
                  if three_byte_space c d e then trim_left rest2 else s
              end
        end
  end.

(** A string of white space only. *)
Definition blank (s : string) : bool :=
  match trim_left s with EmptyString => true | _ => false end.

(** The string without the white space it ends with: it is cut where what
    is left is white space only. *)
Fixpoint trim_right (s : string) : string :=
  match s with
  | EmptyString => EmptyString
  | String c rest => if blank s then EmptyString else String c (trim_right rest)
  end.

(** [s.trim()] *)
Definition trim (s : string) : string := trim_right (trim_left s).

(** SameValueZero on the keys of a [Map].  Two objects or arrays are the
    same key only if they are the same object; keys that come out of
    JSON.parse or a literal are always distinct objects. *)
Definition same_key (a b : value) : bool :=
  match a, b with
  | VUndef, VUndef => true
  | VNull, VNull => true
  | VBool x, VBool y => Bool.eqb x y
  | VNum x, VNum y => (x =? y)%Z
  | VStr x, VStr y => (x =? y)%string
  | _, _ => false
  end.

(** A [Map] in insertion order. *)
Definition JsMap : Type := list (value * value).

Fixpoint map_get (m : JsMap) (k : value) : value :=
  match m with
  | [] => VUndef
  | (k', v) :: rest => if same_key k' k then v else map_get rest k
  end.

Fixpoint map_set (m : JsMap) (k v : value) : JsMap :=
  match m with
  | [] => [(k, v)]
  | (k', v') :: rest =>
      if same_key k' k then (k', v) :: rest else (k', v') :: map_set rest k v
  end.

(** [new Map(pairs)]. *)
Definition map_of_pairs (pairs : list (value * value)) : JsMap :=
  fold_left (fun m kv => map_set m (fst kv) (snd kv)) pairs [].

End JS.
Export JS.

(* ===================================================================== *)
(** ** What the browser supplies                                         *)
(* ===================================================================== *)

(** A [fetch] request: the URL and the init object of the call. *)
Record Request : Type := {
  req_url : string;
  req_method : string;
  req_headers : list (string * string);
  req_body : option string
}.

(** What the code reads from a [Response]: [ok], [status], [statusText] and
    the outcome of [resp.json()]. *)
Record Response : Type := {
  resp_ok : bool;
  resp_status : Z;
  resp_statusText : string;
  resp_json : result value
}.

Inductive FetchOutcome : Type :=
| Rejected (e : exn)
| Responded (r : Response).

(** The environment of a run.
    - [JSON_parse s] is [None] when JSON.parse throws a SyntaxError;
    - [JSON_stringify v] is [None] when JSON.stringify returns undefined;
    - [string_gt0 s] is [s > 0] for a string (ToNumber of the string);
    - [coerced_sub_sign a b] is the sign of [a - b] for primitive values
      that are not both numbers (0 for NaN);
    - [Date_now k] is the k-th reading of the clock;
    - [fetch k req] is what the k-th network request of the run meets;
    - [messages_element] tells whether the page has the element of the
      message log, [this.elements.messages]. *)
Class Env : Type := {
  JSON_parse : string -> option value;
  JSON_stringify : value -> option string;
  string_gt0 : string -> bool;
  coerced_sub_sign : value -> value -> Z;
  Date_now : nat -> Z;
  fetch : nat -> Request -> FetchOutcome;
  messages_element : bool
}.

(** Ghost record of a run: entries to callLLM and network requests, oldest
    first. *)
Inductive event : Type :=
| EvCallLLM
| EvFetch (req : Request).

Definition is_call (e : event) : bool :=
  match e with EvCallLLM => true | EvFetch _ => false end.

Definition is_fetch (e : event) : bool :=
  match e with EvFetch _ => true | EvCallLLM => false end.

(** Number of provider calls (callLLM invocations) and of network requests
    in a trace. *)
Definition provider_calls (t : list event) : nat := List.length (filter is_call t).
Definition network_requests (t : list event) : nat := List.length (filter is_fetch t).

(** The state the core reads and writes: the fields of [this.state], the
    one localStorage item of the conversation store, and the ghost clock
    index and trace. *)
Record World : Type := {
  conversations : JsMap;
  currentConversationId : value;
  isProcessing : bool;
  settings : value;
  apiCalls : Z;
  stored_conversations : option string;
  clock : nat;
  trace : list event
}.

Definition set_conversations (m : JsMap) (w : World) : World :=
  {| conversations := m; currentConversationId := currentConversationId w;
     isProcessing := isProcessing w; settings := settings w;
     apiCalls := apiCalls w; stored_conversations := stored_conversations w;
     clock := clock w; trace := trace w |}.

Definition set_currentConversationId (id : value) (w : World) : World :=
  {| conversations := conversations w; currentConversationId := id;
     isProcessing := isProcessing w; settings := settings w;
     apiCalls := apiCalls w; stored_conversations := stored_conversations w;
     clock := clock w; trace := trace w |}.

Definition set_isProcessing (b : bool) (w : World) : World :=
  {| conversations := conversations w; currentConversationId := currentConversationId w;
     isProcessing := b; settings := settings w;
     apiCalls := apiCalls w; stored_conversations := stored_conversations w;
     clock := clock w; trace := trace w |}.

Definition set_apiCalls (n : Z) (w : World) : World :=
  {| conversations := conversations w; currentConversationId := currentConversationId w;
     isProcessing := isProcessing w; settings := settings w;
     apiCalls := n; stored_conversations := stored_conversations w;
     clock := clock w; trace := trace w |}.

Definition set_stored_conversations (s : option string) (w : World) : World :=
  {| conversations := conversations w; currentConversationId := currentConversationId w;
     isProcessing := isProcessing w; settings := settings w;
     apiCalls := apiCalls w; stored_conversations := s;
     clock := clock w; trace := trace w |}.

Definition set_clock (c : nat) (w : World) : World :=
  {| conversations := conversations w; currentConversationId := currentConversationId w;
     isProcessing := isProcessing w; settings := settings w;
     apiCalls := apiCalls w; stored_conversations := stored_conversations w;
     clock := c; trace := trace w |}.

Definition set_trace (t : list event) (w : World) : World :=
  {| conversations := conversations w; currentConversationId := currentConversationId w;
     isProcessing := isProcessing w; settings := settings w;
     apiCalls := apiCalls w; stored_conversations := stored_conversations w;
     clock := clock w; trace := t |}.

(* ===================================================================== *)
(** ** The monad of methods: state, and exceptions that keep the state   *)
(* ===================================================================== *)

Definition M (A : Type) : Type := World -> result A * World.

Definition ret {A : Type} (a : A) : M A := fun w => (Ok a, w).

Definition bind {A B : Type} (m : M A) (f : A -> M B) : M B :=
  fun w =>
    match m w with
    | (Ok a, w') => f a w'
    | (Throw e, w') => (Throw e, w')
    end.

Definition throw {A : Type} (e : exn) : M A := fun w => (Throw e, w).

(** [try { m } catch (e) { h e }]: what [m] did to the state before it threw
    stays done. *)
Definition try_catch {A : Type} (m : M A) (h : exn -> M A) : M A :=
  fun w =>
    match m w with
    | (Ok a, w') => (Ok a, w')
    | (Throw e, w') => h e w'
    end.

(** [try { m } finally { f }]. *)
Definition try_finally {A : Type} (m : M A) (f : M unit) : M A :=
  fun w =>
    match m w with
    | (r, w') =>
        match f w' with
        | (Ok _, w'') => (r, w'')
        | (Throw e, w'') => (Throw e, w'')
        end
    end.

Definition lift {A : Type} (r : result A) : M A := fun w => (r, w).
Definition gets {A : Type} (f : World -> A) : M A := fun w => (Ok (f w), w).
Definition modify (f : World -> World) : M unit := fun w => (Ok tt, f w).

Declare Scope js_scope.
Delimit Scope js_scope with js.
Notation "'let*' x ':=' m 'in' k" := (bind m (fun x => k))
  (at level 10, x name, m at level 100, k at level 200) : js_scope.
Notation "m ';;' k" := (bind m (fun _ => k))
  (at level 100, k at level 200, right associativity) : js_scope.
Local Open Scope js_scope.

(** Sequencing of pure steps that can throw. *)
Definition rbind {A B : Type} (r : result A) (f : A -> result B) : result B :=
  match r with Ok a => f a | Throw e => Throw e end.

Notation "'let+' x ':=' r 'in' k" := (rbind r (fun x => k))
  (at level 10, x name, r at level 100, k at level 200) : js_scope.

(** [Date.now()]. *)
Definition now `{Env} : M Z :=
  fun w => (Ok (Date_now (clock w)), set_clock (S (clock w)) w).

(** [x > 0] for the values a [length] property can hold. *)
Definition js_gt0 `{Env} (v : value) : result bool :=
  match v with
  | VNum n => Ok (0 <? n)%Z
  | VBool b => Ok b
  | VUndef | VNull => Ok false
  | VStr s => Ok (string_gt0 s)
  | VArr l => let+ s := ToString (VArr l) in Ok (string_gt0 s)
  | VObj props => let+ _ := ToString (VObj props) in Ok false
  end.

(** [typeof c === 'string' ? c : JSON.stringify(c)]. *)
Definition stringify_value `{Env} (v : value) : value :=
  match JSON_stringify v with Some s => VStr s | None => VUndef end.

Definition serialize_content `{Env} (c : value) : value :=
  if is_string c then c else stringify_value c.

(** [xs.map(f)] for an [f] with effects: the calls in order, their results
    collected. *)
Fixpoint mapM {A B : Type} (f : A -> M B) (l : list A) : M (list B) :=
  match l with
  | [] => ret []
  | x :: rest => let* y := f x in let* ys := mapM f rest in ret (y :: ys)
  end.

Fixpoint mapR {A B : Type} (f : A -> result B) (l : list A) : result (list B) :=
  match l with
  | [] => Ok []
  | x :: rest => let+ y := f x in let+ ys := mapR f rest in Ok (y :: ys)
  end.

Definition not_a_function (k : string) : exn :=
  TypeError ("(intermediate value)." ^^ k ^^ " is not a function").

(** [v.map(f)]: only an array has the method. *)
Definition array_map (v : value) (f : value -> result value) : result (list value) :=
  match v with
  | VArr l => mapR f l
  | VUndef => Throw (read_of_nullish "undefined" "map")
  | VNull => Throw (read_of_nullish "null" "map")
  | _ => Throw (not_a_function "map")
  end.

(* ===================================================================== *)
(** ** The provider adapter (shared by services/llm.js and the class)    *)
(* ===================================================================== *)

Section Adapter.
Context `{Env}.

(** The callback of [.map] in callLLM: a tool message goes out as a system
    message; the content is sent as a string. *)
Definition normalize_message (m : value) : result value :=
  let+ role := get_prop m "role" in
  if str_is role "tool" then
    let+ content := get_prop m "content" in
    Ok (VObj [("role", VStr "system"); ("content", serialize_content content)])
  else
    let+ content := get_prop m "content" in
    Ok (VObj [("role", role); ("content", serialize_content content)]).

(** The callback of [.filter]: [!!m.content]. *)
Definition has_content (m : value) : bool :=
  match m with VObj props => truthy (lookup "content" props) | _ => false end.

(** [arr.map(normalize).filter(has_content)] for the value [arr]. *)
Definition messagesForApi (messages : value) : result (list value) :=
  let+ mapped := array_map messages normalize_message in
  Ok (filter has_content mapped).

(** Roles as the generate-content endpoint wants them. *)
Definition google_message (m : value) : value :=
  match m with
  | VObj props =>
      VObj [("role", VStr (if str_is (lookup "role" props) "assistant" then "model" else "user"));
            ("content", lookup "content" props)]
  | _ => m
  end.

Definition aipipe_message (m : value) : value :=
  match m with
  | VObj props => VObj [("role", lookup "role" props); ("content", lookup "content" props)]
  | _ => m
  end.

(** The [switch (provider)] of callLLM: URL, headers and body of the
    request, or the Error of the default branch. *)
Definition provider_request (provider apiKey model maxTokens temperature : value)
    (msgs : list value) : result (string * list (string * string) * value) :=
  let content_type := ("Content-Type", "application/json") in
  if str_is provider "openai" then
    let+ key := ToString apiKey in
    Ok ("https://api.openai.com/v1/chat/completions",
        [content_type; ("Authorization", "Bearer " ^^ key)],
        VObj [("model", model); ("messages", VArr msgs);
              ("max_tokens", maxTokens); ("temperature", temperature)])
  else if str_is provider "google" then
    let+ name := ToString model in
    let+ key := ToString apiKey in
    Ok ("https://generativelanguage.googleapis.com/v1beta/models/" ^^ name
          ^^ ":generateContent?key=" ^^ key,
        [content_type],
        VObj [("messages", VArr (map google_message msgs));
              ("temperature", temperature); ("maxOutputTokens", maxTokens)])
  else if str_is provider "aipipe" then
    let+ key := ToString apiKey in
    Ok ("https://aipipe.org/openrouter/v1/chat/completions",
        [content_type; ("Authorization", "Bearer " ^^ key)],
        VObj [("model", js_or model (VStr "openai/gpt-4o-mini"));
              ("messages", VArr (map aipipe_message msgs));
              ("max_tokens", maxTokens); ("temperature", temperature)])
  else
    let+ name := ToString provider in
    Throw (Error ("Unsupported provider: " ^^ name)).

(** [await fetch(url, init)]: the request is recorded, the environment
    answers. *)
Definition do_fetch (req : Request) : M Response :=
  fun w =>
    let w' := set_trace (trace w ++ [EvFetch req]) w in
    match fetch (network_requests (trace w)) req with
    | Rejected e => (Throw e, w')
    | Responded r => (Ok r, w')
    end.

(** [errText] for a response that is not ok. *)
Definition error_text (resp : Response) : value :=
  let fallback := VStr (num_to_string (resp_status resp) ^^ " " ^^ resp_statusText resp) in
  match resp_json resp with
  | Ok errJson =>
      match get_prop errJson "error" with
      | Ok err => js_or (get_prop_opt err "message") (stringify_value errJson)
      | Throw _ => fallback
      end
  | Throw _ => fallback
  end.

(** The final try block of callLLM: POST, check the status, read the JSON;
    whatever is thrown is rethrown as a plain Error. *)
Definition post (url : string) (headers : list (string * string)) (body : value)
  : M value :=
  try_catch
    (let* resp := do_fetch {| req_url := url; req_method := "POST";
                              req_headers := headers;
                              req_body := JSON_stringify body |} in
     if negb (resp_ok resp) then
       let* details := lift (ToString (error_text resp)) in
       throw (Error ("Model not supported for your API key — change model in settings. (Status: "
                       ^^ num_to_string (resp_status resp) ^^ ", Details: "
                       ^^ details ^^ ")"))
     else lift (resp_json resp))
    (fun err =>
       throw (Error (if (exn_message err =? "")%string then "Network error"
                     else exn_message err))).

Definition demo_payload : value :=
  VObj [("choices",
         VArr [VObj [("message",
                      VObj [("content",
                             VStr "Demo response: provide an API key in settings to use real models.")])]])].

(** callLLM after [messagesForApi] is built, given the value destructured
    into [{ provider, apiKey, model, maxTokens, temperature }]. *)
Definition call_with (llm : value) (msgs : list value) : M value :=
  let provider := get_prop_opt llm "provider" in
  let apiKey := get_prop_opt llm "apiKey" in
  let model := get_prop_opt llm "model" in
  let maxTokens := get_prop_opt llm "maxTokens" in
  let temperature := get_prop_opt llm "temperature" in
  if negb (truthy provider) then throw (Error "No LLM provider configured.")
  else if negb (truthy apiKey) then ret demo_payload
  else
    let* req := lift (provider_request provider apiKey model maxTokens temperature msgs) in
    let '(url, headers, body) := req in
    post url headers body.

(** [parts.map((p) => p.text || p).join('')]. *)
Definition part_text (p : value) : result value :=
  let+ text := get_prop p "text" in Ok (js_or text p).

(** parseAPIResponse inside its try block. *)
Definition parse_body (data provider : value) : result value :=
  if str_is provider "openai" || str_is provider "aipipe" then
    let+ choices := get_prop data "choices" in
    let+ have_choices :=
      (if truthy choices then let+ len := get_prop choices "length" in js_gt0 len
       else Ok false) in
    if have_choices then
      let+ c0 := get_index choices 0 in
      let+ message := get_prop c0 "message" in
      if truthy message then Ok message
      else
        let+ text := get_prop c0 "text" in
        Ok (VObj [("content", js_or text (VStr ""))])
    else
      let+ candidates := get_prop data "candidates" in
      let+ have_candidates :=
        (if truthy candidates then let+ len := get_prop candidates "length" in js_gt0 len
         else Ok false) in
      if have_candidates then
        let+ k0 := get_index candidates 0 in
        let+ content := get_prop k0 "content" in
        let parts := js_or (js_or (get_prop_opt content "parts") content) (VArr []) in
        match parts with
        | VArr ps =>
            let+ texts := mapR part_text ps in
            let+ text := join "" texts in
            Ok (VObj [("content", VStr text)])
        | _ => Ok (VObj [("content", parts)])
        end
      else Ok (VObj [("content", stringify_value data)])
  else if str_is provider "google" then
    let+ candidates := get_prop data "candidates" in
    let+ have_candidates :=
      (if truthy candidates then let+ len := get_prop candidates "length" in Ok (truthy len)
       else Ok false) in
    if have_candidates then
      let+ k0 := get_index candidates 0 in
      let+ content := get_prop k0 "content" in
      let+ parts := get_prop content "parts" in
      let+ p0 := get_index parts 0 in
      let+ text := get_prop p0 "text" in
      Ok (VObj [("content", text)])
    else Ok (VObj [("content", stringify_value data)])
  else Ok (VObj [("content", VStr "Response format not recognized.")]).

End Adapter.

(** services/llm.js *)
Module LlmService.
Section LlmService.
Context `{Env}.

(** [export async function callLLM(conversation, settings)].  The messages
    are normalised first, so a malformed log throws before anything else. *)
Definition callLLM (conversation settings : value) : M value :=
  modify (fun w => set_trace (trace w ++ [EvCallLLM]) w);;
  let* messages := lift (get_prop conversation "messages") in
  let* msgs := lift (messagesForApi (js_or messages (VArr []))) in
  let llm := js_or (if truthy settings then get_prop_opt settings "llm" else settings)
                   (VObj []) in
  call_with llm msgs.

(** [export function parseAPIResponse(data, provider)]. *)
Definition parseAPIResponse (data provider : value) : result value :=
  match parse_body data provider with
  | Ok r => Ok r
  | Throw _ => Throw (Error "Could not parse the API response.")
  end.

End LlmService.
End LlmService.

(* ===================================================================== *)
(** ** agent.js: the [GyaanSetu] class                                   *)
(* ===================================================================== *)

Definition dquote : string := String (ascii_of_nat 34) EmptyString.

(** [const { k, ... } = v] in a parameter list: null and undefined cannot
    be destructured. *)
Definition destructure (v : value) (k : string) : result value :=
  match v with
  | VUndef => Throw (TypeError ("Cannot destructure property '" ^^ k ^^ "' of 'undefined' as it is undefined."))
  | VNull => Throw (TypeError ("Cannot destructure property '" ^^ k ^^ "' of 'object null' as it is null."))
  | _ => get_prop v k
  end.

(** [o.k = v] in strict code.  A named property put on an array is not
    kept: the arrays of the model are their elements. *)
Definition set_prop (o : value) (k : string) (v : value) : result value :=
  match o with
  | VObj props => Ok (VObj (assign k v props))
  | VArr l => Ok (VArr l)
  | VUndef => Throw (TypeError ("Cannot set properties of undefined (setting '" ^^ k ^^ "')"))
  | VNull => Throw (TypeError ("Cannot set properties of null (setting '" ^^ k ^^ "')"))
  | _ => Throw (TypeError ("Cannot create property '" ^^ k ^^ "' on a primitive value"))
  end.

(** [arr.push(x)]. *)
Definition array_push (arr x : value) : result value :=
  match arr with
  | VArr l => Ok (VArr (l ++ [x]))
  | VUndef => Throw (read_of_nullish "undefined" "push")
  | VNull => Throw (read_of_nullish "null" "push")
  | _ => Throw (not_a_function "push")
  end.

(** [conversation.messages.push(message)] as a function of the conversation
    object. *)
Definition pushed (message conversation : value) : result value :=
  let+ messages := get_prop conversation "messages" in
  let+ messages' := array_push messages message in
  set_prop conversation "messages" messages'.

(** The messages of a conversation object (the empty list when it has no
    array of messages). *)
Definition messages_of (conversation : value) : list value :=
  match get_prop_opt conversation "messages" with VArr l => l | _ => [] end.

(** [this.state.settings = s], and a property written through the object
    the state holds. *)
Definition set_settings (s : value) (w : World) : World :=
  {| conversations := conversations w; currentConversationId := currentConversationId w;
     isProcessing := isProcessing w; settings := s;
     apiCalls := apiCalls w; stored_conversations := stored_conversations w;
     clock := clock w; trace := trace w |}.

(** [arr.find(p)] with the index of what it finds: the elements are tested
    in order up to the first that passes; a test that throws ends the
    search. *)
Fixpoint find_from (p : value -> result bool) (index : nat) (l : list value)
  : result (option (nat * value)) :=
  match l with
  | [] => Ok None
  | x :: rest =>
      let+ hit := p x in
      if hit then Ok (Some (index, x)) else find_from p (S index) rest
  end.

Definition array_find (v : value) (p : value -> result bool)
  : result (option (nat * value)) :=
  match v with
  | VArr l => find_from p 0 l
  | VUndef => Throw (read_of_nullish "undefined" "find")
  | VNull => Throw (read_of_nullish "null" "find")
  | _ => Throw (not_a_function "find")
  end.

(** [arr.filter(p)]: every element is tested. *)
Fixpoint filterR (p : value -> result bool) (l : list value) : result (list value) :=
  match l with
  | [] => Ok []
  | x :: rest =>
      let+ keep := p x in
      let+ rest' := filterR p rest in
      Ok (if keep then x :: rest' else rest')
  end.

Definition array_filter (v : value) (p : value -> result bool) : result (list value) :=
  match v with
  | VArr l => filterR p l
  | VUndef => Throw (read_of_nullish "undefined" "filter")
  | VNull => Throw (read_of_nullish "null" "filter")
  | _ => Throw (not_a_function "filter")
  end.

(** The element at [index] replaced by what [f] makes of it. *)
Fixpoint update_at (index : nat) (f : value -> result value) (l : list value)
  : result (list value) :=
  match l, index with
  | [], _ => Ok []
  | x :: rest, O => let+ x' := f x in Ok (x' :: rest)
  | x :: rest, S i => let+ rest' := update_at i f rest in Ok (x :: rest')
  end.

(** [s.toLowerCase()] and [s.toUpperCase()] on the letters of ASCII. *)
Definition lower (c : ascii) : ascii :=
  let n := nat_of_ascii c in
  if Nat.leb 65 n && Nat.leb n 90 then ascii_of_nat (n + 32) else c.

Definition upper (c : ascii) : ascii :=
  let n := nat_of_ascii c in
  if Nat.leb 97 n && Nat.leb n 122 then ascii_of_nat (n - 32) else c.

Fixpoint toLowerCase (s : string) : string :=
  match s with
  | EmptyString => EmptyString
  | String c rest => String (lower c) (toLowerCase rest)
  end.

(** [s.endsWith(suffix)] *)
Definition endsWith (s suffix : string) : bool :=
  Nat.leb (String.length suffix) (String.length s) &&
  (String.substring (String.length s - String.length suffix) (String.length suffix) s
     =? suffix)%string.

(** [s.charAt(0).toUpperCase() + s.slice(1)] *)
Definition capitalized (s : string) : string :=
  match s with
  | EmptyString => EmptyString
  | String c rest => String (upper c) rest
  end.

(** [s.replace(/\s+/g, '_')]: every run of white space becomes one
    underscore; [in_run] says that the previous character was white space. *)
Fixpoint underscored (in_run : bool) (s : string) : string :=
  match s with
  | EmptyString => EmptyString
  | String c rest =>
      if is_space c then
        if in_run then underscored true rest else String "_" (underscored true rest)
      else String c (underscored false rest)
  end.

Definition newline : string := String (ascii_of_nat 10) EmptyString.

(** [Array.from(new Set(xs))]: the first occurrence of each value, in
    order. *)
Definition unique (xs : list value) : list value :=
  fold_left (fun seen x => if existsb (same_key x) seen then seen else seen ++ [x]) xs [].

(** A [fetch] without a method or body: a GET. *)
Definition get_request (url : string) (headers : list (string * string)) : Request :=
  {| req_url := url; req_method := "GET"; req_headers := headers; req_body := None |}.

(** A [File] of a file input or of a drop: what the code reads of it. *)
Record File : Type := {
  file_name : string;
  file_size : Z
}.

(** The change event of the file input: the event itself, its target or
    the target's list of files may be missing. *)
Inductive FileEvent : Type :=
| NoEvent
| NoTarget
| Target (files : option (list File)).

(** What the theme code reads and writes of the page: the [data-theme]
    attribute of the root element, the answer of
    [matchMedia('(prefers-color-scheme: dark)')] ([None] where the window has
    no matchMedia), and the class of the icon inside the theme toggle ([None]
    where there is no such element). *)
Record Page : Type := {
  data_theme : option string;
  prefers_dark : option bool;
  toggle_icon : option string
}.

(** What a method that touches a binding before its initialisation can
    throw besides the errors of [exn]. *)
Inductive failure : Type :=
| Raised (e : exn)
| ReferenceError (message : string).

(** [s.includes(pat)] on strings. *)
Definition string_includes (pat s : string) : bool :=
  match String.index 0 pat s with Some _ => true | None => false end.

(** [v.includes(x)] for a string [x]: part of a string, or an element of an
    array; nothing else has the method. *)
Definition includes (v : value) (x : string) : result bool :=
  match v with
  | VStr s => Ok (string_includes x s)
  | VArr l => Ok (existsb (fun e => str_is e x) l)
  | VUndef => Throw (read_of_nullish "undefined" "includes")
  | VNull => Throw (read_of_nullish "null" "includes")
  | _ => Throw (not_a_function "includes")
  end.

(** [s.replace(pat, rep)] with a string pattern: only the first occurrence
    is replaced. *)
Definition replace_first (pat rep s : string) : string :=
  match String.index 0 pat s with
  | Some n =>
      String.substring 0 n s ^^ rep ^^
      String.substring (n + String.length pat)
        (String.length s - (n + String.length pat)) s
  | None => s
  end.

Definition replace (v : value) (pat rep : string) : result value :=
  match v with
  | VStr s => Ok (VStr (replace_first pat rep s))
  | VUndef => Throw (read_of_nullish "undefined" "replace")
  | VNull => Throw (read_of_nullish "null" "replace")
  | _ => Throw (not_a_function "replace")
  end.

(** src/constants.js *)
Module UI_STRINGS.
Definition welcome : string := "Welcome to LeafAI! How can I assist you?".
End UI_STRINGS.

Module Agent.
Section Agent.
Context `{Env}.

(** A conversation object lives in [this.state.conversations] and is
    mutated in place.  Both [conversations.get(id)] in addMessage and the
    variable [conversation] of agentLoop denote the object stored under the
    key; a mutation through either is an update of that entry. *)
Definition update_conversation (convId : value) (f : value -> result value) : M unit :=
  fun w =>
    match f (map_get (conversations w) convId) with
    | Ok c => (Ok tt, set_conversations (map_set (conversations w) convId c) w)
    | Throw e => (Throw e, w)
    end.

Definition push_message (convId message : value) : M unit :=
  update_conversation convId (pushed message).

(** What showing the log of [conversation] can throw in loadConversation:
    [conversation.messages.forEach] is called whenever the messages have a
    truthy length, and only an array has the method.  displayMessage and the
    welcome screen throw nothing. *)
Definition render_log (conversation : value) : result unit :=
  if truthy conversation then
    let+ messages := get_prop conversation "messages" in
    if truthy messages then
      let+ length := get_prop messages "length" in
      if truthy length then
        match messages with
        | VArr _ => Ok tt
        | _ => Throw (not_a_function "forEach")
        end
      else Ok tt
    else Ok tt
  else Ok tt.

(** loadConversation(id).  The conversation list and the chat header it
    updates at the end catch their own failures. *)
Definition loadConversation (id : value) : M unit :=
  if negb (truthy id) then ret tt
  else
    modify (set_currentConversationId id);;
    let* conversation := gets (fun w => map_get (conversations w) id) in
    if negb messages_element then ret tt
    else lift (render_log conversation).

(** createNewConversation() *)
Definition createNewConversation : M value :=
  let* t0 := now in
  let id := VStr ("conv_" ^^ num_to_string t0) in
  let* t1 := now in
  let* t2 := now in
  let convObj :=
    VObj [("id", id); ("title", VStr "New Conversation"); ("messages", VArr []);
          ("createdAt", VNum t1); ("updatedAt", VNum t2); ("preview", VStr "...")] in
  modify (fun w => set_conversations (map_set (conversations w) id convObj) w);;
  loadConversation id;;
  ret id.

(** The block of addMessage under
    [if (role !== 'system' && typeof content === 'string')]: preview, title
    and time of the last change. *)
Definition touch_conversation (role : string) (content convId : value) : M unit :=
  match content with
  | VStr text =>
      if negb (role =? "system")%string then
        update_conversation convId (fun c => set_prop c "preview" (VStr (substring0 100 text)));;
        let* c := gets (fun w => map_get (conversations w) convId) in
        let* title := lift (get_prop c "title") in
        (if negb (truthy title) || str_is title "New Conversation" then
           update_conversation convId
             (fun c => set_prop c "title" (js_or (VStr (substring0 30 text)) (VStr "Conversation")))
         else ret tt);;
        let* t2 := now in
        update_conversation convId (fun c => set_prop c "updatedAt" (VNum t2))
      else ret tt
  | _ => ret tt
  end.

(** The message object addMessage builds. *)
Definition new_message (t0 : Z) (role : string) (content : value) (t1 : Z) : value :=
  VObj [("id", VStr ("msg_" ^^ num_to_string t0)); ("role", VStr role);
        ("content", content); ("timestamp", VNum t1)].

(** The try block of addMessage. *)
Definition addMessage_body (role : string) (content conversationId : value) : M unit :=
  let* current := gets currentConversationId in
  let convId := js_or conversationId current in
  if negb (truthy convId) then ret tt else
  let* conversation := gets (fun w => map_get (conversations w) convId) in
  if negb (truthy conversation) then ret tt else
  if is_nullish content then ret tt else
  let* t0 := now in
  let* t1 := now in
  push_message convId (new_message t0 role content t1);;
  touch_conversation role content convId.

(** addMessage(role, content, conversationId): failures are logged and
    swallowed. *)
Definition addMessage (role : string) (content conversationId : value) : M unit :=
  try_catch (addMessage_body role content conversationId) (fun _ => ret tt).

(** callLLM(conversation) of the class: the settings come from the state. *)
Definition callLLM (conversation : value) : M value :=
  modify (fun w => set_trace (trace w ++ [EvCallLLM]) w);;
  let* messages := lift (get_prop conversation "messages") in
  let* msgs := lift (messagesForApi messages) in
  let* st := gets settings in
  let* llm := lift (get_prop st "llm") in
  call_with (js_or llm (VObj [])) msgs.

(** parseAPIResponse(data, provider) of the class. *)
Definition parseAPIResponse (data provider : value) : result value :=
  match parse_body data provider with
  | Ok r => Ok r
  | Throw _ => Throw (Error "Could not parse the API response.")
  end.

(** The four tool stubs.  Each is an async function of one destructured
    parameter: given null or undefined its promise is rejected. *)
Definition executeWebSearch (args : value) : result value :=
  let+ query := destructure args "query" in
  let+ query' := ToString query in
  Ok (VObj [("status", VStr ("Simulated search for: " ^^ query')); ("items", VArr [])]).

Definition executeCode (args : value) : result value :=
  let+ code := destructure args "code" in
  let+ code' := ToString code in
  Ok (VObj [("output", VStr ("Simulated execution of: " ^^ code'))]).

Definition processFile (args : value) : result value :=
  let+ fileId := destructure args "fileId" in
  let+ operation := get_prop args "operation" in
  let+ operation' := ToString operation in
  let+ fileId' := ToString fileId in
  Ok (VObj [("result", VStr ("Simulated " ^^ operation' ^^ " on file " ^^ fileId'))]).

Definition createVisualization (args : value) : result value :=
  let+ data := destructure args "data" in
  let+ type := get_prop args "type" in
  let+ title := get_prop args "title" in
  let+ type' := ToString type in
  let+ title' := ToString title in
  Ok (VObj [("chartUrl", VStr ("Simulated " ^^ type' ^^ " chart titled "
                                 ^^ dquote ^^ title' ^^ dquote))]).

(** [func.name || func?.name || 'unknown'] *)
Definition tool_name (func : value) : value :=
  js_or (js_or (get_prop_opt func "name") (get_prop_opt func "name")) (VStr "unknown").

(** The argument parsing of executeTool: only [toolCall.arguments] is read;
    a string is parsed, and a parse failure leaves the empty object. *)
Definition tool_args (toolCall : value) : value :=
  let arguments := get_prop_opt toolCall "arguments" in
  if truthy arguments then
    match arguments with
    | VStr s => match JSON_parse s with Some v => v | None => VObj [] end
    | _ => arguments
    end
  else VObj [].

(** The [switch (name)] of executeTool. *)
Definition dispatch (name args : value) : result value :=
  if str_is name "web_search" then executeWebSearch args
  else if str_is name "execute_code" then executeCode args
  else if str_is name "process_file" then processFile args
  else if str_is name "create_visualization" then createVisualization args
  else
    let+ name' := ToString name in
    Ok (VObj [("error", VStr ("Unknown tool: " ^^ name'))]).

(** What the promise of executeTool settles to, apart from the note it
    leaves in the log. *)
Definition tool_outcome (toolCall : value) : result value :=
  let+ func0 := get_prop toolCall "function" in
  let+ _ := ToString (tool_name (js_or func0 (VObj []))) in
  dispatch (tool_name (js_or func0 (VObj []))) (tool_args toolCall).

(** executeTool(toolCall).  The method is async and suspends only at the
    [await] of a handler, after all its effects.  Its promise is therefore
    described by two layers: a throw of the monad is a promise already
    rejected when the call returns (reading [toolCall.function] of null or
    undefined, or a name that has no string form); an inner [Throw] is the
    rejection that arrives with the handler's promise; an inner [Ok] is the
    fulfilment. *)
Definition executeTool (toolCall : value) : M (result value) :=
  let* func0 := lift (get_prop toolCall "function") in
  let func := js_or func0 (VObj []) in
  let name := tool_name func in
  let args := tool_args toolCall in
  let* name' := lift (ToString name) in
  let* current := gets currentConversationId in
  addMessage "system" (VStr ("Executing tool: " ^^ name')) current;;
  ret (dispatch name args).


(** The promise of a call: whatever the call did to the state is done, and
    its outcome is kept for whoever awaits it. *)
Definition promise_of {A : Type} (m : M A) : M (result A) :=
  fun w => match m w with (r, w') => (Ok r, w') end.

(** [xs.map((x) => this.executeTool(x))]: every call is made, in order,
    whatever the earlier ones did; each yields its promise. *)
Definition start_all (xs : list value) : M (list (result (result value))) :=
  mapM (fun x => promise_of (executeTool x)) xs.

Definition first_rejected_at_call (ps : list (result (result value))) : option exn :=
  match filter (fun p => match p with Throw _ => true | Ok _ => false end) ps with
  | Throw e :: _ => Some e
  | _ => None
  end.

Fixpoint fulfilled (ps : list (result (result value))) : result (list value) :=
  match ps with
  | [] => Ok []
  | Ok (Ok v) :: rest => let+ vs := fulfilled rest in Ok (v :: vs)
  | Ok (Throw e) :: _ => Throw e
  | Throw e :: _ => Throw e
  end.

(** [await Promise.all(promises)]: it rejects with the first rejection it
    is told of.  Promises rejected at the call are reported before those
    rejected behind an await; within each group the order is the array's. *)
Definition promise_all (ps : list (result (result value))) : result (list value) :=
  match first_rejected_at_call ps with
  | Some e => Throw e
  | None => fulfilled ps
  end.

(** The callback of [toolResults.forEach]: [tool_calls] is
    [response.tool_calls]. *)
Definition record_result (conversationId tool_calls result : value) (index : nat) : M unit :=
  let* toolCall := lift (get_index tool_calls index) in
  let* id := lift (get_prop toolCall "id") in
  let* func := lift (get_prop toolCall "function") in
  let* name := lift (get_prop func "name") in
  push_message conversationId
    (VObj [("role", VStr "tool"); ("tool_call_id", id); ("name", name);
           ("content", stringify_value result)]);;
  addMessage "tool" (stringify_value result) conversationId.

(** [arr.forEach((x, index) => f x index)], from [index] on. *)
Fixpoint forEach_from (f : value -> nat -> M unit) (index : nat) (l : list value) : M unit :=
  match l with
  | [] => ret tt
  | x :: rest => f x index;; forEach_from f (S index) rest
  end.

(** [tc.function.name] *)
Definition function_name (tc : value) : result value :=
  let+ func := get_prop tc "function" in get_prop func "name".

(** [response && response.tool_calls && response.tool_calls.length > 0] *)
Definition has_tool_calls (response : value) : result bool :=
  if truthy response then
    let tool_calls := get_prop_opt response "tool_calls" in
    if truthy tool_calls then js_gt0 (get_prop_opt tool_calls "length") else Ok false
  else Ok false.

(** The branch of agentLoop that runs the requested tools. *)
Definition run_tools (conversationId tool_calls : value) : M unit :=
  let* names := lift (array_map tool_calls function_name) in
  let* list := lift (join ", " names) in
  addMessage "assistant" (VStr ("Using tools: " ^^ list)) conversationId;;
  push_message conversationId
    (VObj [("role", VStr "assistant"); ("content", VNull); ("tool_calls", tool_calls)]);;
  let* calls := lift (array_map tool_calls Ok) in
  let* promises := start_all calls in
  let* toolResults := lift (promise_all promises) in
  forEach_from (record_result conversationId tool_calls) 0 toolResults.

(** The try block of one agentLoop iteration after [await
    this.callLLM(conversation)]; [true] loops again, [false] is the [break]
    of the else branch. *)
Definition handle_response (conversationId responseData : value) : M bool :=
  modify (fun w => set_apiCalls (apiCalls w + 1)%Z w);;
  let* st := gets settings in
  let* llm := lift (get_prop st "llm") in
  let* provider := lift (get_prop llm "provider") in
  let* response := lift (parseAPIResponse responseData provider) in
  (if truthy response && truthy (get_prop_opt response "content") then
     addMessage "assistant" (get_prop_opt response "content") conversationId
   else ret tt);;
  let* tools := lift (has_tool_calls response) in
  if tools then
    run_tools conversationId (get_prop_opt response "tool_calls");;
    ret true
  else ret false.

(** The try block of one agentLoop iteration.  [conversation] is the
    object taken from the Map before the loop, in its present state. *)
Definition iteration_body (conversationId : value) : M bool :=
  let* conversation := gets (fun w => map_get (conversations w) conversationId) in
  let* responseData := callLLM conversation in
  handle_response conversationId responseData.

(** One iteration with its catch clause, which notes the failure and
    breaks. *)
Definition iteration (conversationId : value) : M bool :=
  try_catch (iteration_body conversationId)
    (fun err =>
       addMessage "system" (VStr ("Agent iteration error: " ^^ message_or_self err))
         conversationId;;
       ret false).

(** [while (maxTurns-- > 0) { ... }] *)
Fixpoint turns (maxTurns : nat) (conversationId : value) : M unit :=
  match maxTurns with
  | O => ret tt
  | S n =>
      let* again := iteration conversationId in
      if again then turns n conversationId else ret tt
  end.

(** agentLoop(conversationId) *)
Definition agentLoop (conversationId : value) : M unit :=
  let* conversation := gets (fun w => map_get (conversations w) conversationId) in
  if negb (truthy conversation) then ret tt
  else turns 5 conversationId.

(** The entries of the Map as the array [Array.from(map.entries())]. *)
Definition entries_array (m : JsMap) : value :=
  VArr (map (fun kv => VArr [fst kv; snd kv]) m).

(** saveCurrentConversation(): writes only when auto-save is on; a failure
    is logged and swallowed.  [localStorage.setItem] stores the string form
    of what it is given. *)
Definition saveCurrentConversation : M unit :=
  try_catch
    (let* st := gets settings in
     let* advanced := lift (get_prop st "advanced") in
     let* autoSave := lift (get_prop advanced "autoSave") in
     if truthy autoSave then
       let* convs := gets conversations in
       modify (set_stored_conversations
                 (Some (match JSON_stringify (entries_array convs) with
                        | Some text => text
                        | None => "undefined"
                        end)))
     else ret tt)
    (fun _ => ret tt).

(** [([k, v]) => [k, v]]: the parameter is destructured as an iterable. *)
Definition entry_pair (e : value) : result (value * value) :=
  match e with
  | VArr l => Ok (nth 0 l VUndef, nth 1 l VUndef)
  | VStr s =>
      Ok (match String.get 0 s with Some c => VStr (String c EmptyString) | None => VUndef end,
          match String.get 1 s with Some c => VStr (String c EmptyString) | None => VUndef end)
  | _ => Throw (TypeError "object is not iterable")
  end.

(** [Array.isArray(parsed) ? parsed : typeof parsed === 'object' ?
    Object.entries(parsed) : []] *)
Definition parsed_entries (parsed : value) : result (list value) :=
  match parsed with
  | VArr l => Ok l
  | VObj props => Ok (map (fun kv => VArr [VStr (fst kv); snd kv]) props)
  | VNull => Throw (TypeError "Cannot convert undefined or null to object")
  | _ => Ok []
  end.

(** The callback of the forEach over the loaded conversations, as a
    function of the conversation object and of the clock reading it may
    need. *)
Definition restore_defaults (conv : value) : M value :=
  let* updatedAt := lift (get_prop conv "updatedAt") in
  let* createdAt := lift (get_prop conv "createdAt") in
  let* stamp :=
    (if truthy updatedAt then ret updatedAt
     else if truthy createdAt then ret createdAt
     else let* t := now in ret (VNum t)) in
  let* conv1 := lift (set_prop conv "updatedAt" stamp) in
  let* messages := lift (get_prop conv1 "messages") in
  lift (set_prop conv1 "messages" (js_or messages (VArr []))).

(** [Array.from(map.values()).forEach(restore)]: the objects are the ones
    in the Map, so each is updated where it sits; [done] are the entries
    already visited, [todo] the ones to come. *)
Fixpoint restore_from (done todo : JsMap) : M unit :=
  match todo with
  | [] => ret tt
  | (k, conv) :: rest =>
      let* conv' := restore_defaults conv in
      modify (set_conversations (done ++ (k, conv') :: rest));;
      restore_from (done ++ [(k, conv')]) rest
  end.

(** The sign of [b.updatedAt - a.updatedAt]; the operands are made
    primitive left to right. *)
Definition by_updatedAt (a b : value) : result Z :=
  let+ y := ToPrimitive (get_prop_opt b "updatedAt") in
  let+ x := ToPrimitive (get_prop_opt a "updatedAt") in
  Ok (match y, x with
      | VNum n, VNum m => Z.sgn (n - m)
      | _, _ => coerced_sub_sign y x
      end).

(** [arr.sort(cmp)] as a stable sort; a comparison that throws ends it. *)
Fixpoint insert_sorted (cmp : value -> value -> result Z) (x : value) (l : list value)
  : result (list value) :=
  match l with
  | [] => Ok [x]
  | y :: rest =>
      let+ c := cmp x y in
      if (c <=? 0)%Z then Ok (x :: l)
      else let+ rest' := insert_sorted cmp x rest in Ok (y :: rest')
  end.

Fixpoint sort_by (cmp : value -> value -> result Z) (l : list value) : result (list value) :=
  match l with
  | [] => Ok []
  | x :: rest => let+ sorted := sort_by cmp rest in insert_sorted cmp x sorted
  end.

(** The try block of loadConversationHistory. *)
Definition loadConversationHistory_body : M unit :=
  let* stored := gets stored_conversations in
  match stored with
  | Some text =>
      if negb (text =? "")%string then
        let* parsed :=
          lift (match JSON_parse text with
                | Some v => Ok v
                | None => Throw (SyntaxError "Unexpected token in JSON")
                end) in
        let* entries := lift (parsed_entries parsed) in
        let* pairs := lift (mapR entry_pair entries) in
        modify (set_conversations (map_of_pairs pairs));;
        let* loaded := gets conversations in
        restore_from [] loaded;;
        let* restored := gets conversations in
        let* sorted := lift (sort_by by_updatedAt (map snd restored)) in
        match sorted with
        | recent :: _ =>
            if truthy recent then
              let* id := lift (get_prop recent "id") in loadConversation id
            else (let* _ := createNewConversation in ret tt)
        | [] => let* _ := createNewConversation in ret tt
        end
      else (let* _ := createNewConversation in ret tt)
  | None => let* _ := createNewConversation in ret tt
  end.

(** loadConversationHistory() *)
Definition loadConversationHistory : M unit :=
  try_catch loadConversationHistory_body
    (fun _ =>
       modify (set_conversations []);;
       let* _ := createNewConversation in ret tt).

(** sendMessage().  [userInput] is the value of the input element, or
    [None] when the element is missing. *)
Definition sendMessage (userInput : option string) : M unit :=
  let input := match userInput with Some v => trim v | None => "" end in
  let* processing := gets isProcessing in
  if (input =? "")%string || processing then ret tt else
  modify (set_isProcessing true);;
  let* current := gets currentConversationId in
  let* convId := (if truthy current then ret current else createNewConversation) in
  addMessage "user" (VStr input) convId;;
  try_finally
    (try_catch (agentLoop convId)
       (fun error =>
          addMessage "system" (VStr ("An error occurred: " ^^ message_or_self error)) convId))
    (modify (set_isProcessing false);;
     saveCurrentConversation).

(** clearConversationMessages().  [confirmed] is the answer of the
    [confirm] dialog, which is asked only when there is a current
    conversation. *)
Definition clearConversationMessages (confirmed : bool) : M unit :=
  let* current := gets currentConversationId in
  if negb (truthy current) then ret tt else
  if negb confirmed then ret tt else
  let* conv := gets (fun w => map_get (conversations w) current) in
  if negb (truthy conv) then ret tt else
  update_conversation current (fun c => set_prop c "messages" (VArr []));;
  update_conversation current (fun c => set_prop c "preview" (VStr "Cleared"));;
  let* t := now in
  update_conversation current (fun c => set_prop c "updatedAt" (VNum t));;
  loadConversation current;;
  saveCurrentConversation.

(** [(m) => m.id === msgId] *)
Definition has_id (msgId : string) (m : value) : result bool :=
  let+ id := get_prop m "id" in Ok (str_is id msgId).

(** [(m) => m.id !== msgId] *)
Definition has_other_id (msgId : string) (m : value) : result bool :=
  let+ id := get_prop m "id" in Ok (negb (str_is id msgId)).

(** [msg.bookmarked = true] for the message found at [index]: the message
    is the object inside the array of the conversation, which is changed
    where it sits. *)
Definition bookmark_at (index : nat) (conversation : value) : result value :=
  match conversation with
  | VObj props =>
      match lookup "messages" props with
      | VArr l =>
          let+ l' := update_at index (fun msg => set_prop msg "bookmarked" (VBool true)) l in
          Ok (VObj (assign "messages" (VArr l') props))
      | _ => Ok conversation
      end
  | _ => Ok conversation
  end.

(** handleContextAction(action).  [menuMessageId] is
    [this.elements.contextMenu?.dataset.messageId] ([None] for undefined),
    [inputPresent] says whether the page has the input element.  The clipboard
    and the toasts are outside the state. *)
Definition handleContextAction (menuMessageId : option string) (inputPresent : bool)
    (action : value) : M unit :=
  match menuMessageId with
  | None => ret tt
  | Some msgId =>
      if (msgId =? "")%string then ret tt else
      let* current := gets currentConversationId in
      let* conv := gets (fun w => map_get (conversations w) current) in
      if negb (truthy conv) then ret tt else
      let* messages := lift (get_prop conv "messages") in
      let* found := lift (array_find messages (has_id msgId)) in
      match found with
      | None => ret tt
      | Some (index, msg) =>
          if negb (truthy msg) then ret tt
          else if str_is action "copy" then ret tt
          else if str_is action "edit" then
            if is_string (get_prop_opt msg "content") && negb inputPresent
            then throw (TypeError "Cannot set properties of null (setting 'value')")
            else ret tt
          else if str_is action "delete" then
            let* kept := lift (array_filter messages (has_other_id msgId)) in
            update_conversation current (fun c => set_prop c "messages" (VArr kept));;
            saveCurrentConversation;;
            loadConversation current
          else if str_is action "bookmark" then
            update_conversation current (bookmark_at index)
          else
            let* _ := lift (ToString action) in ret tt
      end
  end.

(** [this.supportedFileTypes] *)
Definition supportedFileTypes : list string :=
  [".txt"; ".json"; ".csv"; ".md"; ".js"; ".py"; ".html"; ".css"; ".xml"; ".yaml";
   ".yml"; ".sql"; ".log"].

(** [this.supportedFileTypes.some((type) => file.name.toLowerCase().endsWith(type))] *)
Definition supported_file (file : File) : bool :=
  existsb (fun type => endsWith (toLowerCase (file_name file)) type) supportedFileTypes.

Definition upload_note (file : File) : string :=
  "File uploaded: " ^^ file_name file ^^ " (size: " ^^ num_to_string (file_size file)
    ^^ " bytes). Processing placeholder added.".

(** The callback of [files.forEach] in handleFiles; a file of another type
    only raises a toast. *)
Definition handle_file (file : File) : M unit :=
  if supported_file file then
    let* current := gets currentConversationId in
    let* convId := (if truthy current then ret current else createNewConversation) in
    addMessage "system" (VStr (upload_note file)) convId
  else ret tt.

(** handleFiles(files) *)
Fixpoint handleFiles (files : list File) : M unit :=
  match files with
  | [] => ret tt
  | file :: rest => handle_file file;; handleFiles rest
  end.

(** handleFileSelection(e) *)
Definition handleFileSelection (e : FileEvent) : M unit :=
  match e with
  | NoEvent | NoTarget => ret tt
  | Target (Some files) => handleFiles files
  | Target None => handleFiles []
  end.

(** showWelcomeMessage(): addMessage is called without a conversation id. *)
Definition showWelcomeMessage : M unit :=
  let* current := gets currentConversationId in
  let* conv := gets (fun w => map_get (conversations w) current) in
  if truthy conv then
    let* messages := lift (get_prop conv "messages") in
    let* len := lift (get_prop messages "length") in
    match len with
    | VNum 0 => addMessage "assistant" (VStr UI_STRINGS.welcome) VUndef
    | _ => ret tt
    end
  else ret tt.

(** [(msg.role || 'unknown').charAt(0).toUpperCase() + (msg.role ||
    'unknown').slice(1)]: only a string has charAt. *)
Definition sender_of (role : value) : result string :=
  match js_or role (VStr "unknown") with
  | VStr s => Ok (capitalized s)
  | _ => Throw (not_a_function "charAt")
  end.

(** What the callback of [conv.messages.forEach] in exportConversation adds
    to the document for one message. *)
Definition export_block (msg : value) : result string :=
  let+ role := get_prop msg "role" in
  let+ sender := sender_of role in
  let+ content := get_prop msg "content" in
  let+ text := ToString (serialize_content content) in
  Ok ("**" ^^ sender ^^ "**: " ^^ text ^^ newline ^^ newline).

(** The Markdown text exportConversation builds. *)
Definition export_content (conv : value) : result string :=
  let+ title := get_prop conv "title" in
  let+ heading := ToString title in
  let+ messages := get_prop conv "messages" in
  let+ blocks :=
    (match messages with
     | VArr l => mapR export_block l
     | VUndef => Throw (read_of_nullish "undefined" "forEach")
     | VNull => Throw (read_of_nullish "null" "forEach")
     | _ => Throw (not_a_function "forEach")
     end) in
  Ok (fold_left String.append blocks ("# " ^^ heading ^^ newline ^^ newline)).

(** [`${(conv.title || 'conversation').replace(/\s+/g, '_')}.md`] *)
Definition export_name (conv : value) : result string :=
  let+ title := get_prop conv "title" in
  match js_or title (VStr "conversation") with
  | VStr s => Ok (underscored false s ^^ ".md")
  | _ => Throw (not_a_function "replace")
  end.

(** exportConversation(): the file it offers for download, name and text,
    or nothing when there is no current conversation or something failed
    (a toast says so). *)
Definition exportConversation : M (option (string * string)) :=
  try_catch
    (let* current := gets currentConversationId in
     let* conv := gets (fun w => map_get (conversations w) current) in
     if negb (truthy conv) then ret None
     else
       let* content := lift (export_content conv) in
       let* name := lift (export_name conv) in
       ret (Some (name, content)))
    (fun _ => ret None).

(** [(m) => m.name || m.id] and [(m) => m.id || m.name] *)
Definition name_or_id (m : value) : result value :=
  let+ name := get_prop m "name" in
  if truthy name then Ok name else get_prop m "id".

Definition id_or_name (m : value) : result value :=
  let+ id := get_prop m "id" in
  if truthy id then Ok id else get_prop m "name".

Definition bearer (token : string) : list (string * string) :=
  [("Authorization", "Bearer " ^^ token)].

(** The first try block of fetchAIpipeModels: what it pushes on
    [candidateSets]. *)
Definition openrouter_models (token : string) : M (list (list value)) :=
  try_catch
    (let* r1 := do_fetch (get_request "https://aipipe.org/openrouter/v1/models" (bearer token)) in
     if resp_ok r1 then
       let* d1 := lift (resp_json r1) in
       let* models := lift (get_prop d1 "models") in
       match models with
       | VArr ms => let* names := lift (mapR name_or_id ms) in ret [names]
       | _ =>
           match d1 with
           | VArr ds => let* names := lift (mapR name_or_id ds) in ret [names]
           | _ => ret []
           end
       end
     else ret [])
    (fun _ => ret []).

(** The second try block. *)
Definition openai_models (token : string) : M (list (list value)) :=
  try_catch
    (let* r2 := do_fetch (get_request "https://aipipe.org/openai/v1/models" (bearer token)) in
     if resp_ok r2 then
       let* d2 := lift (resp_json r2) in
       let* data := lift (get_prop d2 "data") in
       match data with
       | VArr ms => let* names := lift (mapR id_or_name ms) in ret [names]
       | _ => ret []
       end
     else ret [])
    (fun _ => ret []).

Definition aipipe_fallback : list value :=
  [VStr "openai/gpt-4o-mini"; VStr "openai/gpt-4o"; VStr "openai/gpt-4.1";
   VStr "openai/gpt-4o-realtime-preview"; VStr "openai/gpt-3.5-turbo"].

(** fetchAIpipeModels().  [apiKeyInput] is the value of the api-key input,
    [None] when the page has none. *)
Definition fetchAIpipeModels (apiKeyInput : option string) : M (list value) :=
  match apiKeyInput with
  | None => throw (Error "AI Pipe token required")
  | Some token =>
      if (token =? "")%string then throw (Error "AI Pipe token required")
      else
        let* first := openrouter_models token in
        let* second := openai_models token in
        let candidateSets := first ++ second in
        ret (unique (List.concat candidateSets ++ aipipe_fallback))
  end.

(** fetchAnthropicModels() *)
Definition fetchAnthropicModels : M (list value) :=
  ret [VStr "claude-3-opus-20240229"; VStr "claude-3-sonnet-20240229";
       VStr "claude-3-haiku-20240307"].

(** updateTheme().  The declaration [const theme = themePref === 'auto' ?
    systemTheme : theme] reads [theme] inside its own initialiser whenever the
    preference is not 'auto'. *)
Definition updateTheme (w : World) (page : Page) : failure + Page :=
  let themePref :=
    js_or (get_prop_opt (get_prop_opt (settings w) "ui") "theme") (VStr "auto") in
  let systemTheme :=
    match prefers_dark page with Some true => "dark" | _ => "light" end in
  if str_is themePref "auto" then
    inr {| data_theme := Some systemTheme;
           prefers_dark := prefers_dark page;
           toggle_icon :=
             match toggle_icon page with
             | Some _ => Some (if (systemTheme =? "dark")%string then "fas fa-sun"
                               else "fas fa-moon")
             | None => None
             end |}
  else inl (ReferenceError "Cannot access 'theme' before initialization").

(** applySettings(), as far as the theme goes: whatever its try block
    throws is dropped; the font size it sets afterwards is a style of the
    page. *)
Definition applySettings (w : World) (page : Page) : Page :=
  match updateTheme w page with
  | inr page' => page'
  | inl _ => page
  end.

(** toggleTheme() *)
Definition toggleTheme (page : Page) : M Page :=
  let current :=
    match data_theme page with
    | Some t => if (t =? "dark")%string then "dark" else "light"
    | None => "light"
    end in
  let newTheme := if (current =? "dark")%string then "light" else "dark" in
  let* st := gets settings in
  let* ui := lift (get_prop st "ui") in
  let* ui' := lift (set_prop ui "theme" (VStr newTheme)) in
  let* st' := lift (set_prop st "ui" ui') in
  modify (set_settings st');;
  let* w := gets (fun w => w) in
  ret (applySettings w page).

(** The order of [arr.sort()] without a comparator: by the strings of the
    two elements. *)
Definition by_string (a b : value) : result Z :=
  let+ x := ToString a in
  let+ y := ToString b in
  Ok (match String.compare x y with Lt => (-1)%Z | Eq => 0%Z | Gt => 1%Z end).

Definition is_undefined (v : value) : bool :=
  match v with VUndef => true | _ => false end.

(** [arr.sort()]: the elements that are not undefined in the order of their
    strings, then the undefined ones. *)
Definition array_sort (l : list value) : result (list value) :=
  let+ sorted := sort_by by_string (filter (fun v => negb (is_undefined v)) l) in
  Ok (sorted ++ filter is_undefined l).

(** [const err = await response.json().catch(() => ({}))] and the message
    of [new Error(err.error?.message || fallback)]. *)
Definition key_error (response : Response) (fallback : string) : result string :=
  let err := match resp_json response with Ok v => v | Throw _ => VObj [] end in
  let+ error := get_prop err "error" in
  ToString (js_or (get_prop_opt error "message") (VStr fallback)).

(** fetchOpenAIModels().  [apiKeyInput] is the value of the api-key input,
    [None] when the page has none. *)
Definition fetchOpenAIModels (apiKeyInput : option string) : M (list value) :=
  match apiKeyInput with
  | None => throw (Error "API Key required for OpenAI")
  | Some apiKey =>
      if (apiKey =? "")%string then throw (Error "API Key required for OpenAI")
      else
        let* response :=
          do_fetch (get_request "https://api.openai.com/v1/models" (bearer apiKey)) in
        if negb (resp_ok response) then
          let* message := lift (key_error response "Invalid OpenAI Key") in
          throw (Error message)
        else
          let* data := lift (resp_json response) in
          let* models := lift (get_prop data "data") in
          let* gpts :=
            lift (array_filter models
                    (fun m =>
                       let+ id := get_prop m "id" in
                       if truthy id then includes id "gpt" else Ok false)) in
          let* ids := lift (mapR (fun model => get_prop model "id") gpts) in
          let* sorted := lift (array_sort ids) in
          ret (rev sorted)
  end.

(** fetchGoogleModels() *)
Definition fetchGoogleModels (apiKeyInput : option string) : M (list value) :=
  match apiKeyInput with
  | None => throw (Error "API Key required for Google")
  | Some apiKey =>
      if (apiKey =? "")%string then throw (Error "API Key required for Google")
      else
        let* response :=
          do_fetch (get_request
                      ("https://generativelanguage.googleapis.com/v1beta/models?key=" ^^ apiKey)
                      []) in
        if negb (resp_ok response) then
          let* message := lift (key_error response "Invalid Google Key") in
          throw (Error message)
        else
          let* data := lift (resp_json response) in
          let* models := lift (get_prop data "models") in
          let* usable :=
            lift (array_filter (js_or models (VArr []))
                    (fun m =>
                       let+ methods := get_prop m "supportedGenerationMethods" in
                       includes (js_or methods (VArr [])) "generateContent")) in
          lift (mapR (fun m => let+ name := get_prop m "name" in replace name "models/" "")
                  usable)
  end.

End Agent.
End Agent.

(* ===================================================================== *)
(** ** A reference environment                                           *)
(* ===================================================================== *)

(** A JSON codec for integers, strings, arrays and objects, a clock that
    ticks once per reading, and a network chosen by the caller.  It makes
    the model run on concrete inputs. *)
Module Reference.

Definition hex_digit (n : nat) : ascii :=
  ascii_of_nat (if Nat.ltb n 10 then 48 + n else 87 + n).

(** A string literal of JSON, without its quotes. *)
Fixpoint escaped (s : string) : string :=
  match s with
  | EmptyString => EmptyString
  | String c rest =>
      let n := nat_of_ascii c in
      if Nat.eqb n 34 then "\" ^^ dquote ^^ escaped rest
      else if Nat.eqb n 92 then "\\" ^^ escaped rest
      else if Nat.eqb n 10 then "\n" ^^ escaped rest
      else if Nat.ltb n 32 then
        "\u00" ^^ String (hex_digit (n / 16)) (String (hex_digit (n mod 16)) (escaped rest))
      else String c (escaped rest)
  end.

Definition quoted (s : string) : string := dquote ^^ escaped s ^^ dquote.

Fixpoint commas (l : list string) : string :=
  match l with
  | [] => ""
  | x :: rest => match rest with [] => x | _ :: _ => x ^^ "," ^^ commas rest end
  end.

(** JSON.stringify: undefined has no text; inside an array it is written
    null, inside an object its member is left out. *)
Fixpoint stringify (v : value) : option string :=
  match v with
  | VUndef => None
  | VNull => Some "null"
  | VBool true => Some "true"
  | VBool false => Some "false"
  | VNum n => Some (num_to_string n)
  | VStr s => Some (quoted s)
  | VArr l =>
      Some ("[" ^^ commas (map (fun x => match stringify x with
                                         | Some t => t
                                         | None => "null"
                                         end) l) ^^ "]")
  | VObj props =>
      Some ("{" ^^ commas (flat_map (fun kv => match kv with
                                               | (k, x) =>
                                                   match stringify x with
                                                   | Some t => [quoted k ^^ ":" ^^ t]
                                                   | None => []
                                                   end
                                               end) props) ^^ "}")
  end.

Definition is_digit (c : ascii) : bool :=
  let n := nat_of_ascii c in Nat.leb 48 n && Nat.leb n 57.

Fixpoint skip_ws (s : string) : string :=
  match s with
  | String c rest => if is_space c then skip_ws rest else s
  | EmptyString => s
  end.

Fixpoint strip_prefix (p s : string) : option string :=
  match p, s with
  | EmptyString, _ => Some s
  | String a p', String b s' => if Ascii.eqb a b then strip_prefix p' s' else None
  | String _ _, EmptyString => None
  end.

(** Digits at the head of [s], as a number, and the rest. *)
Fixpoint digits (acc : Z) (s : string) : Z * string :=
  match s with
  | String c rest =>
      if is_digit c then digits (10 * acc + Z.of_nat (nat_of_ascii c - 48)) rest
      else (acc, s)
  | EmptyString => (acc, s)
  end.

Definition hex_value (c : ascii) : option nat :=
  let n := nat_of_ascii c in
  if Nat.leb 48 n && Nat.leb n 57 then Some (n - 48)
  else if Nat.leb 97 n && Nat.leb n 102 then Some (n - 87)
  else if Nat.leb 65 n && Nat.leb n 70 then Some (n - 55)
  else None.

(** The characters of a string literal up to its closing quote. *)
Fixpoint string_body (s : string) : option (string * string) :=
  match s with
  | EmptyString => None
  | String c rest =>
      let n := nat_of_ascii c in
      if Nat.eqb n 34 then Some (EmptyString, rest)
      else if Nat.ltb n 32 then None
      else if Nat.eqb n 92 then
        match rest with
        | String e rest' =>
            let plain (ch : nat) :=
              match string_body rest' with
              | Some (body, after) => Some (String (ascii_of_nat ch) body, after)
              | None => None
              end in
            match nat_of_ascii e with
            | 34 => plain 34
            | 92 => plain 92
            | 47 => plain 47
            | 98 => plain 8
            | 102 => plain 12
            | 110 => plain 10
            | 114 => plain 13
            | 116 => plain 9
            | 117 =>
                match rest' with
                | String "0" (String "0" (String h (String l rest''))) =>
                    match hex_value h, hex_value l, string_body rest'' with
                    | Some a, Some b, Some (body, after) =>
                        Some (String (ascii_of_nat (16 * a + b)) body, after)
                    | _, _, _ => None
                    end
                | _ => None
                end
            | _ => None
            end
        | EmptyString => None
        end
      else
        match string_body rest with
        | Some (body, after) => Some (String c body, after)
        | None => None
        end
  end.

Definition number (s : string) : option (value * string) :=
  let unsigned (t : string) :=
    match t with
    | String "0" rest => Some (0%Z, rest)
    | String c _ => if is_digit c then Some (digits 0 t) else None
    | EmptyString => None
    end in
  let whole (r : option (Z * string)) (sign : Z) :=
    match r with
    | Some (n, rest) =>
        match rest with
        | String "." _ | String "e" _ | String "E" _ => None
        | _ => Some (VNum (sign * n), rest)
        end
    | None => None
    end in
  match s with
  | String "-" rest => whole (unsigned rest) (-1)%Z
  | _ => whole (unsigned s) 1%Z
  end.

(** One JSON value at the head of [s]; [fuel] bounds the nesting and the
    number of elements. *)
Fixpoint parse_value (fuel : nat) (s : string) : option (value * string) :=
  match fuel with
  | O => None
  | S fuel' =>
      let elements :=
        fix elements (n : nat) (acc : list value) (t : string) : option (value * string) :=
          match n with
          | O => None
          | S n' =>
              match parse_value fuel' (skip_ws t) with
              | Some (x, after) =>
                  match skip_ws after with
                  | String "," more => elements n' (acc ++ [x]) more
                  | String "]" more => Some (VArr (acc ++ [x]), more)
                  | _ => None
                  end
              | None => None
              end
          end in
      let members :=
        fix members (n : nat) (acc : list (string * value)) (t : string) : option (value * string) :=
          match n with
          | O => None
          | S n' =>
              match skip_ws t with
              | String q t1 =>
                  if Nat.eqb (nat_of_ascii q) 34 then
                    match string_body t1 with
                    | Some (k, t2) =>
                        match skip_ws t2 with
                        | String ":" t3 =>
                            match parse_value fuel' (skip_ws t3) with
                            | Some (x, after) =>
                                match skip_ws after with
                                | String "," more => members n' (assign k x acc) more
                                | String "}" more => Some (VObj (assign k x acc), more)
                                | _ => None
                                end
                            | None => None
                            end
                        | _ => None
                        end
                    | None => None
                    end
                  else None
              | EmptyString => None
              end
          end in
      match s with
      | EmptyString => None
      | String c rest =>
          if Nat.eqb (nat_of_ascii c) 34 then
            match string_body rest with
            | Some (body, after) => Some (VStr body, after)
            | None => None
            end
          else if Ascii.eqb c "[" then
            match skip_ws rest with
            | String "]" more => Some (VArr [], more)
            | t => elements (String.length s) [] t
            end
          else if Ascii.eqb c "{" then
            match skip_ws rest with
            | String "}" more => Some (VObj [], more)
            | t => members (String.length s) [] t
            end
          else
            match strip_prefix "null" s, strip_prefix "true" s, strip_prefix "false" s with
            | Some more, _, _ => Some (VNull, more)
            | _, Some more, _ => Some (VBool true, more)
            | _, _, Some more => Some (VBool false, more)
            | None, None, None => number s
            end
      end
  end.

(** JSON.parse: one value, white space around it, nothing else. *)
Definition parse (s : string) : option value :=
  match parse_value (S (String.length s)) (skip_ws s) with
  | Some (v, rest) => match skip_ws rest with EmptyString => Some v | _ => None end
  | None => None
  end.

Definition gt0 (s : string) : bool :=
  match number (trim s) with
  | Some (VNum n, EmptyString) => (0 <? n)%Z
  | _ => false
  end.

(** The reference environment over a given network. *)
Definition env (net : nat -> Request -> FetchOutcome) : Env :=
  {| JSON_parse := parse;
     JSON_stringify := stringify;
     string_gt0 := gt0;
     coerced_sub_sign := fun _ _ => 0%Z;
     Date_now := fun k => (1700000000000 + Z.of_nat k)%Z;
     fetch := net;
     messages_element := true |}.

End Reference.


(* ===================================================================== *)
(** ** Vocabulary of the properties                                      *)
(* ===================================================================== *)

(** *** Methods and the states around them *)

(** Every outcome of [m] relates the state before to the state after. *)
Definition preserves {A : Type} (P : World -> World -> Prop) (m : M A) : Prop :=
  forall w r w', m w = (r, w') -> P w w'.

(** [m] returns normally from every state. *)
Definition total {A : Type} (m : M A) : Prop :=
  forall w, exists a w', m w = (Ok a, w').

(** Steps that leave the trace, or its count of provider calls, alone. *)
Definition same_trace (w w' : World) : Prop := trace w' = trace w.

Definition same_calls (w w' : World) : Prop :=
  provider_calls (trace w') = provider_calls (trace w).

(** Steps that touch nothing but the trace. *)
Definition only_trace (w w' : World) : Prop := w' = set_trace (trace w') w.

(** Steps that make exactly [n], or at most [n], provider calls. *)
Definition calls_plus (n : nat) (w w' : World) : Prop :=
  provider_calls (trace w') = provider_calls (trace w) + n.

Definition at_most (n : nat) (w w' : World) : Prop :=
  provider_calls (trace w') <= provider_calls (trace w) + n.

(** *** The log of a conversation *)

(** The conversation stored under [convId] is an object whose [messages]
    is the array [msgs]. *)
Definition conv_has (w : World) (convId : value) (msgs : list value) : Prop :=
  exists props,
    map_get (conversations w) convId = VObj props /\
    lookup "messages" props = VArr msgs.

(** A message as addMessage leaves it in the log. *)
Definition displayed (role : string) (content m : value) : Prop :=
  is_nullish content = false /\
  exists t0 t1, m = Agent.new_message t0 role content t1.

(** A message addMessage leaves for a role other than tool. *)
Definition note (m : value) : Prop :=
  exists role content, displayed role content m /\ role <> "tool".

(** What a step may do besides adding messages to the log of [convId]:
    nothing to the settings, the current conversation, the stored item or
    the processing flag.  The messages it adds satisfy [Q]. *)
Definition grows (Q : value -> Prop) (convId : value) (w w' : World) : Prop :=
  settings w' = settings w /\
  currentConversationId w' = currentConversationId w /\
  stored_conversations w' = stored_conversations w /\
  isProcessing w' = isProcessing w /\
  forall msgs, conv_has w convId msgs ->
    exists extra, conv_has w' convId (msgs ++ extra) /\ Forall Q extra.

(** [f] turns a conversation object with a log into one whose log has
    grown by messages that satisfy [Q]. *)
Definition appends (Q : value -> Prop) (f : value -> result value) : Prop :=
  forall props msgs c',
    lookup "messages" props = VArr msgs ->
    f (VObj props) = Ok c' ->
    exists props' extra,
      c' = VObj props' /\ lookup "messages" props' = VArr (msgs ++ extra) /\ Forall Q extra.

(** Kinds of message in the log: any message of role tool; the assistant
    message with null content that carries the requested calls; a tool
    message that carries the id of its call. *)
Definition is_tool_message (m : value) : bool :=
  str_is (get_prop_opt m "role") "tool".

Definition is_placeholder (m : value) : bool :=
  str_is (get_prop_opt m "role") "assistant" &&
  match get_prop_opt m "content" with VNull => true | _ => false end.

Definition has_own (k : string) (m : value) : bool :=
  match m with
  | VObj props => own k props
  | _ => false
  end.

Definition is_tool_result (m : value) : bool :=
  is_tool_message m && has_own "tool_call_id" m.

(** The two messages agentLoop pushes itself. *)
Definition placeholder_message (tool_calls : value) : value :=
  VObj [("role", VStr "assistant"); ("content", VNull); ("tool_calls", tool_calls)].

Definition tool_result_message `{Env} (toolCall result : value) : value :=
  VObj [("role", VStr "tool");
        ("tool_call_id", get_prop_opt toolCall "id");
        ("name", get_prop_opt (get_prop_opt toolCall "function") "name");
        ("content", stringify_value result)].

(** The part of the log that records the results of a tool batch: for each
    call and its result, in order, the message tagged with the call, and
    right after it the copy addMessage makes of the same content, which has
    no tag. *)
Fixpoint recorded `{Env} (pairs : list (value * value)) (block : list value) : Prop :=
  match pairs, block with
  | [], [] => True
  | (toolCall, result) :: pairs', tagged :: copy :: block' =>
      tagged = tool_result_message toolCall result /\
      displayed "tool" (stringify_value result) copy /\
      recorded pairs' block'
  | _, _ => False
  end.

(** Both callLLM functions end in [r] without a network request: the
    method of the class when [llm] is the [llm] of the settings of the state,
    the function of services/llm.js when it is the [llm] of its argument
    [st]. *)
Definition callLLM_ends `{Env} (conversation llm st : value) (w : World)
    (r : result value) : Prop :=
  (get_prop (settings w) "llm" = Ok llm ->
   exists w',
     Agent.callLLM conversation w = (r, w') /\
     network_requests (trace w') = network_requests (trace w)) /\
  (truthy st = true -> get_prop_opt st "llm" = llm ->
   exists w',
     LlmService.callLLM conversation st w = (r, w') /\
     network_requests (trace w') = network_requests (trace w)).

(** The claim about a tool iteration as it is worded: among the messages
    the log gained there is one placeholder, and the tool messages are as
    many as the calls, each with the id of one of the calls. *)
Definition gains_as_worded (tcs gained : list value) : Prop :=
  List.length (filter is_placeholder gained) = 1 /\
  List.length (filter is_tool_message gained) = List.length tcs /\
  Forall (fun m => In (get_prop_opt m "tool_call_id")
                     (map (fun tc => get_prop_opt tc "id") tcs))
    (filter is_tool_message gained).

(** *** Tool calls *)

(** A value that has a string form. *)
Definition printable (v : value) : Prop := exists s, ToString v = Ok s.

(** A tool call the loop can name and dispatch: neither it nor its
    [function] is null or undefined. *)
Definition dispatchable (toolCall : value) : bool :=
  negb (is_nullish toolCall) && negb (is_nullish (get_prop_opt toolCall "function")).

(** The name executeTool uses for a call that is an object, and what its
    promise settles to. *)
Definition called_name (toolCall : value) : value :=
  Agent.tool_name (js_or (get_prop_opt toolCall "function") (VObj [])).

Definition settled `{Env} (toolCall : value) : result value :=
  Agent.dispatch (called_name toolCall) (Agent.tool_args toolCall).

(** The function name is one of the four registered tools. *)
Definition registered (name : value) : bool :=
  str_is name "web_search" || str_is name "execute_code" ||
  str_is name "process_file" || str_is name "create_visualization".

(** *** The provider adapter *)

(** The provider is one of the three supported adapters. *)
Definition supported (provider : value) : bool :=
  str_is provider "openai" || str_is provider "google" || str_is provider "aipipe".

(** A log callLLM can normalise: an array without null or undefined
    entries. *)
Definition sendable (messages : list value) : Prop :=
  Forall (fun m => is_nullish m = false) messages.

(** The normalisation rule in the words of the specification: a tool
    message is relabelled system, any other role passes through, the content
    goes out serialised, and a message whose serialised content is falsy is
    dropped. *)
Definition outbound_role (role : value) : value :=
  if str_is role "tool" then VStr "system" else role.

Definition outbound_messages `{Env} (messages : list value) : list value :=
  flat_map
    (fun m =>
       let content := serialize_content (get_prop_opt m "content") in
       if truthy content
       then [VObj [("role", outbound_role (get_prop_opt m "role")); ("content", content)]]
       else [])
    messages.

(** *** The conversation store *)

(** The keys of a Map are pairwise different. *)
Fixpoint distinct_keys (m : JsMap) : Prop :=
  match m with
  | [] => True
  | (k, _) :: rest => Forall (fun kv => same_key k (fst kv) = false) rest /\ distinct_keys rest
  end.

(** A conversation as the program makes it: an object whose [updatedAt]
    is a time and whose [messages] are an array. *)
Definition stored_shape (conv : value) : Prop :=
  exists props t,
    conv = VObj props /\
    lookup "updatedAt" props = VNum t /\ t <> 0%Z /\
    exists msgs, lookup "messages" props = VArr msgs.

(** *** A turn as a whole *)

(** Steps that leave the trace, the settings and the counter of provider
    answers alone. *)
Definition silent (w w' : World) : Prop :=
  trace w' = trace w /\ settings w' = settings w /\ apiCalls w' = apiCalls w.

Definition same_settings (w w' : World) : Prop := settings w' = settings w.

(** [settings.llm.apiKey] is missing or empty. *)
Definition keyless (w : World) : Prop :=
  truthy (get_prop_opt (get_prop_opt (settings w) "llm") "apiKey") = false.

(** Steps that keep the settings and, where there is no API key, make no
    network request. *)
Definition offline_without_key (w w' : World) : Prop :=
  settings w' = settings w /\
  (keyless w -> network_requests (trace w') = network_requests (trace w)).

(** One of the three chat endpoints. *)
Definition chat_endpoint (url : string) : bool :=
  (url =? "https://api.openai.com/v1/chat/completions")%string ||
  String.prefix "https://generativelanguage.googleapis.com/v1beta/models/" url ||
  (url =? "https://aipipe.org/openrouter/v1/chat/completions")%string.

Definition chat_event (e : event) : Prop :=
  match e with
  | EvCallLLM => True
  | EvFetch req => req_method req = "POST" /\ chat_endpoint (req_url req) = true
  end.

(** The trace grows at its end, by provider calls and by no more requests
    than calls, each request a POST to a chat endpoint. *)
Definition metered (w w' : World) : Prop :=
  exists extra,
    trace w' = trace w ++ extra /\ Forall chat_event extra /\
    network_requests extra <= provider_calls extra.

(** The counter of provider answers grows by no more than the provider
    calls made. *)
Definition counted (w w' : World) : Prop :=
  provider_calls (trace w) <= provider_calls (trace w') /\
  (apiCalls w <= apiCalls w')%Z /\
  (apiCalls w' - apiCalls w
   <= Z.of_nat (provider_calls (trace w')) - Z.of_nat (provider_calls (trace w)))%Z.

(** The text saveCurrentConversation writes for a store. *)
Definition store_text `{Env} (m : JsMap) : string :=
  match JSON_stringify (Agent.entries_array m) with
  | Some text => text
  | None => "undefined"
  end.

(** Auto-save is on. *)
Definition autosaving (w : World) : Prop :=
  exists advanced autoSave,
    get_prop (settings w) "advanced" = Ok advanced /\
    get_prop advanced "autoSave" = Ok autoSave /\
    truthy autoSave = true.


(** What a turn without an API key shows for a provider name. *)
Definition demo_reply `{Env} (provider : value) : value :=
  if str_is provider "openai" || str_is provider "aipipe" then
    VStr "Demo response: provide an API key in settings to use real models."
  else if str_is provider "google" then stringify_value demo_payload
  else VStr "Response format not recognized.".


(** The time of the last change of a stored conversation. *)
Definition updatedAt_of (conv : value) : Z :=
  match get_prop_opt conv "updatedAt" with VNum t => t | _ => 0%Z end.

(** A list of conversations with no element newer than one before it. *)
Fixpoint newest_first (l : list value) : Prop :=
  match l with
  | [] => True
  | x :: rest =>
      Forall (fun y => (updatedAt_of y <= updatedAt_of x)%Z) rest /\ newest_first rest
  end.

(** The id and the object of the conversation createNewConversation makes
    when the clock has been read [k] times. *)
Definition new_id `{Env} (k : nat) : value :=
  VStr ("conv_" ^^ num_to_string (Date_now k)).

Definition new_conversation `{Env} (k : nat) : value :=
  VObj [("id", new_id k); ("title", VStr "New Conversation"); ("messages", VArr []);
        ("createdAt", VNum (Date_now (S k))); ("updatedAt", VNum (Date_now (S (S k))));
        ("preview", VStr "...")].


(** *** What addMessage does to a conversation object *)

(** The title rule of addMessage for a text that is not the system's: a
    missing title, or the title of a new conversation, gives way to the first
    30 characters of the text. *)
Definition retitled (text : string) (props : list (string * value)) : list (string * value) :=
  if negb (truthy (lookup "title" props)) || str_is (lookup "title" props) "New Conversation"
  then assign "title" (js_or (VStr (substring0 30 text)) (VStr "Conversation")) props
  else props.

(** The properties of a conversation after addMessage(role, text) has run
    on it with the clock at [k], for a role other than system. *)
Definition with_text `{Env} (k : nat) (role text : string) (msgs : list value)
    (props : list (string * value)) : list (string * value) :=
  assign "updatedAt" (VNum (Date_now (S (S k))))
    (retitled text
       (assign "preview" (VStr (substring0 100 text))
          (assign "messages"
             (VArr (msgs ++ [Agent.new_message (Date_now k) role (VStr text) (Date_now (S k))]))
             props))).


(** Steps that neither add a conversation nor drop one. *)
Definition same_keys (w w' : World) : Prop :=
  map fst (conversations w') = map fst (conversations w).

(** The message carries the id [msgId]. *)
Definition carries (msgId : string) (m : value) : bool :=
  str_is (get_prop_opt m "id") msgId.

(** Values that are pairwise different keys of a Set. *)
Fixpoint distinct_values (l : list value) : Prop :=
  match l with
  | [] => True
  | x :: rest => Forall (fun y => same_key y x = false) rest /\ distinct_values rest
  end.

(** A string without white space. *)
Fixpoint no_space (s : string) : Prop :=
  match s with
  | EmptyString => True
  | String c rest => is_space c = false /\ no_space rest
  end.

(** The theme the page shows, as toggleTheme reads it. *)
Definition shown_theme (page : Page) : string :=
  match data_theme page with
  | Some t => if (t =? "dark")%string then "dark" else "light"
  | None => "light"
  end.

(** The theme preference of the settings. *)
Definition theme_preference (w : World) : value :=
  js_or (get_prop_opt (get_prop_opt (settings w) "ui") "theme") (VStr "auto").


(** Steps that only add to the end of the log of [convId]. *)
Definition extends (convId : value) (w w' : World) : Prop :=
  currentConversationId w' = currentConversationId w /\
  forall msgs, conv_has w convId msgs -> exists extra, conv_has w' convId (msgs ++ extra).


(** The string of [a] is not after the string of [b]. *)
Definition string_le (a b : value) : Prop :=
  exists x y, ToString a = Ok x /\ ToString b = Ok y /\ String.leb x y = true.

(** No element is before an earlier one, or after an earlier one, in the
    order of the strings. *)
Fixpoint ascending (l : list value) : Prop :=
  match l with
  | [] => True
  | x :: rest => Forall (fun y => string_le x y) rest /\ ascending rest
  end.

Fixpoint descending (l : list value) : Prop :=
  match l with
  | [] => True
  | x :: rest => Forall (fun y => string_le y x) rest /\ descending rest
  end.

(** A model of a Google answer supports generateContent: the test of the
    filter of fetchGoogleModels, false where it has no answer. *)
Definition generates_content (m : value) : bool :=
  match get_prop m "supportedGenerationMethods" with
  | Ok methods =>
      match includes (js_or methods (VArr [])) "generateContent" with
      | Ok b => b
      | Throw _ => false
      end
  | Throw _ => false
  end.

(** The models a Google answer lists: [data.models], none when it has no
    such array. *)
Definition listed_models (data : value) : list value :=
  match js_or (get_prop_opt data "models") (VArr []) with
  | VArr models => models
  | _ => []
  end.

(** [n] is the name of [m] without its first "models/". *)
Definition short_name_of (m n : value) : Prop :=
  exists s, get_prop m "name" = Ok (VStr s) /\ n = VStr (replace_first "models/" "" s).


(** A conversation of the Map that addMessage can read: an object that has
    messages.  An array stands for itself here, the arrays of the model
    being their elements only. *)
Definition usable_conversation (conv : value) : Prop :=
  match conv with
  | VObj props => truthy (lookup "messages" props) = true
  | VArr _ => True
  | _ => False
  end.

Definition usable_store (m : JsMap) : Prop :=
  Forall (fun kv => usable_conversation (snd kv)) m.


(* ===================================================================== *)
(** ** Concrete inputs                                                   *)
(* ===================================================================== *)

Module Examples.

Definition llm_settings (provider apiKey : value) : value :=
  VObj [("llm", VObj [("provider", provider); ("apiKey", apiKey);
                      ("model", VStr "default"); ("maxTokens", VNum 2000)]);
        ("advanced", VObj [("autoSave", VBool true)])].

Definition no_autosave : value :=
  VObj [("llm", VObj [("provider", VStr "aipipe"); ("apiKey", VStr "");
                      ("model", VStr "default"); ("maxTokens", VNum 2000)]);
        ("advanced", VObj [("autoSave", VBool false)])].

Definition user_message : value :=
  VObj [("id", VStr "msg_1"); ("role", VStr "user"); ("content", VStr "hello");
        ("timestamp", VNum 1)].

Definition conversation (messages : list value) : value :=
  VObj [("id", VStr "conv_1"); ("title", VStr "hello"); ("messages", VArr messages);
        ("createdAt", VNum 1); ("updatedAt", VNum 1); ("preview", VStr "hello")].

Definition world (st : value) (messages : list value) : World :=
  {| conversations := [(VStr "conv_1", conversation messages)];
     currentConversationId := VStr "conv_1";
     isProcessing := false;
     settings := st;
     apiCalls := 0;
     stored_conversations := None;
     clock := 0;
     trace := [] |}.

Definition tool_note : value :=
  VObj [("role", VStr "tool"); ("tool_call_id", VStr "call_1");
        ("name", VStr "web_search"); ("content", VStr "{}")].

Definition blank_message : value :=
  VObj [("id", VStr "msg_2"); ("role", VStr "assistant"); ("content", VStr "");
        ("timestamp", VNum 2)].

(** A log with a user message, a tool result and a message without text. *)
Definition mixed_log : list value := [user_message; tool_note; blank_message].

(** A call in the shape of the data model, its arguments under
    [function.arguments]. *)
Definition cats_call : value :=
  VObj [("id", VStr "call_7");
        ("function", VObj [("name", VStr "web_search");
                           ("arguments", VObj [("query", VStr "cats")])])].

(** A call for a tool that does not exist, one without a name, and one
    whose top-level arguments are not JSON. *)
Definition foo_call : value :=
  VObj [("id", VStr "call_8"); ("function", VObj [("name", VStr "foo")])].

Definition nameless_call : value :=
  VObj [("id", VStr "call_9"); ("function", VObj [("name", VStr "")])].

Definition malformed_call : value :=
  VObj [("id", VStr "call_10"); ("function", VObj [("name", VStr "execute_code")]);
        ("arguments", VStr "{not json")].

Definition search_call : value :=
  VObj [("id", VStr "call_1");
        ("function", VObj [("name", VStr "web_search");
                           ("arguments", VStr "{}")])].

(** A chat-completions answer that asks for one tool. *)
Definition tool_answer : value :=
  VObj [("choices",
         VArr [VObj [("message",
                      VObj [("content", VNull); ("tool_calls", VArr [search_call])])]])].

Definition answer (data : value) : FetchOutcome :=
  Responded {| resp_ok := true; resp_status := 200; resp_statusText := "OK";
               resp_json := Ok data |}.

(** The parsed form of [tool_answer] and what its one call settles to. *)
Definition tool_request : value :=
  VObj [("content", VNull); ("tool_calls", VArr [search_call])].

Definition search_result : value :=
  VObj [("status", VStr "Simulated search for: undefined"); ("items", VArr [])].

(** The application as it starts after a reload: nothing in memory, the
    stored item as [w] left it. *)
Definition reloaded (w : World) : World :=
  {| conversations := [];
     currentConversationId := VNull;
     isProcessing := false;
     settings := settings w;
     apiCalls := 0;
     stored_conversations := stored_conversations w;
     clock := clock w;
     trace := [] |}.

(** A state with one conversation and auto-save on, and the text
    saveCurrentConversation stores for it. *)
Definition saving_world : World :=
  world (llm_settings (VStr "aipipe") (VStr "")) [user_message; tool_note].

Definition saved_text : string :=
  match Reference.stringify (Agent.entries_array (conversations saving_world)) with
  | Some text => text
  | None => ""
  end.

(** A provider that asks for a tool every time, and a network that is
    down. *)
Definition always_tools : Env := Reference.env (fun _ _ => answer tool_answer).
Definition offline : Env :=
  Reference.env (fun _ _ => Rejected (TypeError "Failed to fetch")).

(** A call whose top-level arguments are the JSON text null, and a provider
    that asks for it after a good call. *)
Definition null_call : value :=
  VObj [("id", VStr "call_11"); ("function", VObj [("name", VStr "web_search")]);
        ("arguments", VStr "null")].

Definition null_request : value :=
  VObj [("content", VNull); ("tool_calls", VArr [search_call; null_call])].

Definition null_tools : Env :=
  Reference.env (fun _ _ =>
    answer (VObj [("choices", VArr [VObj [("message", null_request)]])])).

(** A store of two conversations, the second changed last, as the array of
    pairs saveCurrentConversation writes and as an object keyed by id. *)
Definition later_conversation : value :=
  VObj [("id", VStr "conv_2"); ("title", VStr "later"); ("messages", VArr []);
        ("createdAt", VNum 2); ("updatedAt", VNum 5); ("preview", VStr "...")].

Definition two_conversations : JsMap :=
  [(VStr "conv_1", conversation [user_message]); (VStr "conv_2", later_conversation)].

Definition text_of (v : value) : string :=
  match Reference.stringify v with Some text => text | None => "" end.

Definition holding (text : string) : World :=
  {| conversations := [];
     currentConversationId := VNull;
     isProcessing := false;
     settings := llm_settings (VStr "aipipe") (VStr "");
     apiCalls := 0;
     stored_conversations := Some text;
     clock := 0;
     trace := [] |}.

Definition two_as_object : value :=
  VObj [("conv_1", conversation [user_message]); ("conv_2", later_conversation)].

(** An environment whose clock stands still: everything happens within
    one millisecond. *)
Definition frozen : Env :=
  {| JSON_parse := Reference.parse;
     JSON_stringify := Reference.stringify;
     string_gt0 := Reference.gt0;
     coerced_sub_sign := fun _ _ => 0%Z;
     Date_now := fun _ => 1700000000000%Z;
     fetch := fun _ _ => Rejected (TypeError "Failed to fetch");
     messages_element := true |}.

(** An answer of the Google model list, and a network that gives it. *)
Definition google_list : value :=
  VObj [("models",
         VArr [VObj [("name", VStr "models/gemini-pro");
                     ("supportedGenerationMethods",
                      VArr [VStr "generateContent"; VStr "countTokens"])];
               VObj [("name", VStr "models/embedding-001");
                     ("supportedGenerationMethods", VArr [VStr "embedContent"])];
               VObj [("name", VStr "models/aqa")];
               VObj [("name", VStr "models/gemini-flash");
                     ("supportedGenerationMethods", VArr [VStr "generateContent"])]])].

Definition google : Env := Reference.env (fun _ _ => answer google_list).

(** U+00A0, the no-break space, in UTF-8. *)
Definition nbsp : string := String (ascii_of_nat 194) (String (ascii_of_nat 160) "").

End Examples.

(* ===================================================================== *)
(** ** Values, objects and maps                                          *)
(* ===================================================================== *)

Lemma same_key_eq (a b : value) : same_key a b = true -> a = b.
Proof.
  destruct a, b; simpl; try discriminate; intros E; try reflexivity.
  - apply Bool.eqb_prop in E. now subst.
  - apply Z.eqb_eq in E. now subst.
  - apply String.eqb_eq in E. now subst.
Qed.

Lemma map_get_set_same (m : JsMap) (k v : value) :
  map_get m k <> VUndef -> map_get (map_set m k v) k = v.
Proof.
  induction m as [|[k' v'] rest IH]; simpl; intros Hget.
  - congruence.
  - destruct (same_key k' k) eqn:E; simpl; rewrite E; auto.
Qed.

Lemma map_get_set_new (m : JsMap) (k v : value) :
  same_key k k = true -> map_get (map_set m k v) k = v.
Proof.
  intros Hk. induction m as [|[k' v'] rest IH]; cbn [map_set map_get].
  - now rewrite Hk.
  - destruct (same_key k' k) eqn:E; cbn [map_get]; rewrite E; auto.
Qed.

Lemma map_get_set_other (m : JsMap) (k v k2 : value) :
  same_key k k2 = false -> map_get (map_set m k v) k2 = map_get m k2.
Proof.
  intros Hk. induction m as [|[k' v'] rest IH]; simpl.
  - now rewrite Hk.
  - destruct (same_key k' k) eqn:E; simpl.
    + apply same_key_eq in E. subst k'. now rewrite Hk.
    + now rewrite IH.
Qed.

Lemma lookup_assign_same (k : string) (v : value) (props : list (string * value)) :
  lookup k (assign k v props) = v.
Proof.
  induction props as [|[k' v'] rest IH]; simpl.
  - now rewrite String.eqb_refl.
  - destruct (k =? k')%string eqn:E; simpl; rewrite ?String.eqb_refl, ?E; auto.
Qed.

Lemma lookup_assign_other (k k2 : string) (v : value) (props : list (string * value)) :
  k2 <> k -> lookup k2 (assign k v props) = lookup k2 props.
Proof.
  intros Hne. apply String.eqb_neq in Hne.
  induction props as [|[k' v'] rest IH]; simpl.
  - now rewrite Hne.
  - destruct (k =? k')%string eqn:E; simpl.
    + apply String.eqb_eq in E. subst k'. now rewrite Hne.
    + now rewrite IH.
Qed.

(* ===================================================================== *)
(** ** Reasoning about methods                                           *)
(* ===================================================================== *)

Lemma bind_inv {A B : Type} (m : M A) (f : A -> M B) (w : World) (r : result B) (w' : World) :
  bind m f w = (r, w') ->
  (exists a w1, m w = (Ok a, w1) /\ f a w1 = (r, w')) \/
  (exists e, m w = (Throw e, w') /\ r = Throw e).
Proof.
  unfold bind. destruct (m w) as [[a|e] w1]; intros E.
  - left. eauto.
  - right. inversion E; subst. eauto.
Qed.

Lemma bind_ok {A B : Type} (m : M A) (f : A -> M B) (w w1 : World) (a : A) :
  m w = (Ok a, w1) -> bind m f w = f a w1.
Proof. unfold bind. now intros ->. Qed.

Section Preserves.

Variable P : World -> World -> Prop.
Hypothesis P_refl : forall w, P w w.
Hypothesis P_trans : forall a b c, P a b -> P b c -> P a c.

Lemma preserves_ret {A : Type} (a : A) : preserves P (ret a).
Proof. intros w r w' E. inversion E; subst. apply P_refl. Qed.

Lemma preserves_throw {A : Type} (e : exn) : preserves P (@throw A e).
Proof. intros w r w' E. inversion E; subst. apply P_refl. Qed.

Lemma preserves_lift {A : Type} (x : result A) : preserves P (lift x).
Proof. intros w r w' E. inversion E; subst. apply P_refl. Qed.

Lemma preserves_gets {A : Type} (f : World -> A) : preserves P (gets f).
Proof. intros w r w' E. inversion E; subst. apply P_refl. Qed.

Lemma preserves_modify (f : World -> World) :
  (forall w, P w (f w)) -> preserves P (modify f).
Proof. intros Hf w r w' E. inversion E; subst. apply Hf. Qed.

Lemma preserves_bind {A B : Type} (m : M A) (f : A -> M B) :
  preserves P m -> (forall a, preserves P (f a)) -> preserves P (bind m f).
Proof.
  intros Hm Hf w r w' E. apply bind_inv in E.
  destruct E as [(a & w1 & E1 & E2) | (e & E1 & _)].
  - eapply P_trans; [eapply Hm | eapply Hf]; eauto.
  - eapply Hm; eauto.
Qed.

Lemma preserves_try_catch {A : Type} (m : M A) (h : exn -> M A) :
  preserves P m -> (forall e, preserves P (h e)) -> preserves P (try_catch m h).
Proof.
  intros Hm Hh w r w' E. unfold try_catch in E.
  destruct (m w) as [[a|e] w1] eqn:E1.
  - inversion E; subst. eapply Hm; eauto.
  - eapply P_trans; [eapply Hm | eapply Hh]; eauto.
Qed.

Lemma preserves_try_finally {A : Type} (m : M A) (f : M unit) :
  preserves P m -> preserves P f -> preserves P (try_finally m f).
Proof.
  intros Hm Hf w r w' E. unfold try_finally in E.
  destruct (m w) as [r1 w1] eqn:E1.
  destruct (f w1) as [[u|e] w2] eqn:E2; inversion E; subst;
    (eapply P_trans; [eapply Hm | eapply Hf]; eauto).
Qed.

Lemma preserves_promise_of {A : Type} (m : M A) :
  preserves P m -> preserves P (Agent.promise_of m).
Proof.
  intros Hm w r w' E. unfold Agent.promise_of in E.
  destruct (m w) as [r1 w1] eqn:E1. inversion E; subst. eapply Hm; eauto.
Qed.

Lemma preserves_mapM {A B : Type} (f : A -> M B) (l : list A) :
  (forall x, preserves P (f x)) -> preserves P (mapM f l).
Proof.
  intros Hf. induction l as [|x rest IH]; simpl.
  - apply preserves_ret.
  - apply preserves_bind; [apply Hf|]. intros y.
    apply preserves_bind; [apply IH|]. intros ys. apply preserves_ret.
Qed.

Lemma preserves_forEach_from (f : value -> nat -> M unit) (l : list value) :
  (forall x i, preserves P (f x i)) ->
  forall i, preserves P (Agent.forEach_from f i l).
Proof.
  intros Hf. induction l as [|x rest IH]; simpl; intros i.
  - apply preserves_ret.
  - apply preserves_bind; [apply Hf|]. intros _. apply IH.
Qed.

End Preserves.

Lemma grows_refl (Q : value -> Prop) (convId : value) (w : World) : grows Q convId w w.
Proof.
  repeat split; intros msgs Hc. exists []. rewrite app_nil_r. auto.
Qed.

Lemma grows_trans (Q : value -> Prop) (convId : value) (a b c : World) :
  grows Q convId a b -> grows Q convId b c -> grows Q convId a c.
Proof.
  intros (S1 & C1 & L1 & I1 & G1) (S2 & C2 & L2 & I2 & G2).
  repeat split; try congruence.
  intros msgs Hc.
  destruct (G1 _ Hc) as (e1 & Hc1 & Q1).
  destruct (G2 _ Hc1) as (e2 & Hc2 & Q2).
  exists (e1 ++ e2). rewrite app_assoc. split; auto. apply Forall_app; auto.
Qed.

Lemma preserves_weaken {A : Type} (P P' : World -> World -> Prop) (m : M A) :
  (forall w w', P w w' -> P' w w') -> preserves P m -> preserves P' m.
Proof. intros HP Hm w r w' E. eapply HP, Hm; eauto. Qed.

Lemma same_calls_refl (w : World) : same_calls w w.
Proof. reflexivity. Qed.

Lemma same_calls_trans (a b c : World) : same_calls a b -> same_calls b c -> same_calls a c.
Proof. unfold same_calls. congruence. Qed.

Lemma same_trace_refl (w : World) : same_trace w w.
Proof. reflexivity. Qed.

Lemma same_trace_trans (a b c : World) : same_trace a b -> same_trace b c -> same_trace a c.
Proof. unfold same_trace. congruence. Qed.

Create HintDb rel.
Create HintDb pres.
#[local] Hint Resolve grows_refl grows_trans same_calls_refl same_calls_trans
  same_trace_refl same_trace_trans : rel.

(** One step through the structure of a method. *)
Ltac pres_apply L := apply L; try solve [eauto with rel]; intros.

Ltac pres_step :=
  match goal with
  | |- preserves _ (ret _) => pres_apply @preserves_ret
  | |- preserves _ (throw _) => pres_apply @preserves_throw
  | |- preserves _ (lift _) => pres_apply @preserves_lift
  | |- preserves _ (gets _) => pres_apply @preserves_gets
  | |- preserves _ (bind _ _) => pres_apply @preserves_bind
  | |- preserves _ (try_catch _ _) => pres_apply @preserves_try_catch
  | |- preserves _ (try_finally _ _) => pres_apply @preserves_try_finally
  | |- preserves _ (Agent.promise_of _) => pres_apply @preserves_promise_of
  | |- preserves _ (mapM _ _) => pres_apply @preserves_mapM
  | |- preserves _ (Agent.forEach_from _ _ _) => pres_apply @preserves_forEach_from
  | |- preserves _ (if ?b then _ else _) => destruct b
  | |- preserves _ (match ?x with _ => _ end) => destruct x
  end.

Ltac pres := repeat pres_step; auto with pres.

Lemma appends_pushed (Q : value -> Prop) (message : value) :
  Q message -> appends Q (pushed message).
Proof.
  intros HQ props msgs c' Hm E. unfold pushed in E. simpl in E.
  rewrite Hm in E. simpl in E. inversion E; subst.
  exists (assign "messages" (VArr (msgs ++ [message])) props), [message].
  repeat split; auto. apply lookup_assign_same.
Qed.

Lemma appends_set_prop (Q : value -> Prop) (k : string) (v : value) :
  k <> "messages" -> appends Q (fun c => set_prop c k v).
Proof.
  intros Hk props msgs c' Hm E. simpl in E. inversion E; subst.
  exists (assign k v props), []. rewrite app_nil_r.
  repeat split; auto. rewrite lookup_assign_other; auto.
Qed.

Lemma update_conversation_grows `{Env} (Q : value -> Prop) (convId k : value)
    (f : value -> result value) :
  appends Q f -> preserves (grows Q convId) (Agent.update_conversation k f).
Proof.
  intros Hf w r w' E. unfold Agent.update_conversation in E.
  destruct (f (map_get (conversations w) k)) as [c|e] eqn:Ef; inversion E; subst.
  - repeat split. intros msgs (props & Hget & Hm).
    destruct (same_key k convId) eqn:Ek.
    + apply same_key_eq in Ek. subst k. rewrite Hget in Ef.
      destruct (Hf _ _ _ Hm Ef) as (props' & extra & -> & Hm' & HQ).
      exists extra. split; auto. exists props'. split; auto.
      simpl. apply map_get_set_same. rewrite Hget. discriminate.
    + exists []. rewrite app_nil_r. split; auto. exists props. split; auto.
      simpl. rewrite map_get_set_other; auto.
  - apply grows_refl.
Qed.

Lemma now_grows `{Env} (Q : value -> Prop) (convId : value) :
  preserves (grows Q convId) now.
Proof.
  intros w r w' E. inversion E; subst. repeat split.
  intros msgs Hc. exists []. rewrite app_nil_r. auto.
Qed.

#[local] Hint Resolve now_grows : pres.

Lemma touch_conversation_grows `{Env} (Q : value -> Prop) (convId : value)
    (role : string) (content target : value) :
  preserves (grows Q convId) (Agent.touch_conversation role content target).
Proof.
  unfold Agent.touch_conversation. pres;
    apply update_conversation_grows, appends_set_prop; discriminate.
Qed.

Lemma addMessage_grows `{Env} (Q : value -> Prop) (convId : value)
    (role : string) (content target : value) :
  (forall m, displayed role content m -> Q m) ->
  preserves (grows Q convId) (Agent.addMessage role content target).
Proof.
  intros HQ. unfold Agent.addMessage, Agent.addMessage_body, Agent.push_message.
  destruct (is_nullish content) eqn:Hn; pres.
  - apply update_conversation_grows, appends_pushed, HQ. split; eauto.
  - apply touch_conversation_grows.
Qed.

#[local] Hint Resolve touch_conversation_grows : pres.

Lemma conv_has_unique (w : World) (convId : value) (a b : list value) :
  conv_has w convId a -> conv_has w convId b -> a = b.
Proof.
  intros (pa & Ga & La) (pb & Gb & Lb). rewrite Ga in Gb.
  inversion Gb; subst. rewrite La in Lb. now inversion Lb.
Qed.

(** addMessage on a conversation that is there adds exactly one message. *)
Lemma addMessage_appends `{Env} (role : string) (content convId : value)
    (w : World) (msgs : list value) :
  truthy convId = true -> is_nullish content = false -> conv_has w convId msgs ->
  exists w' m,
    Agent.addMessage role content convId w = (Ok tt, w') /\
    displayed role content m /\
    conv_has w' convId (msgs ++ [m]).
Proof.
  intros Ht Hn (props & Hget & Hm).
  set (m := Agent.new_message (Date_now (clock w)) role content (Date_now (S (clock w)))).
  unfold Agent.addMessage, try_catch, Agent.addMessage_body, bind, gets, now, js_or.
  rewrite Ht. cbn [negb]. rewrite Ht. cbn [negb]. rewrite Hget. cbn [truthy negb].
  rewrite Hn.
  unfold Agent.push_message, Agent.update_conversation.
  cbn [conversations clock set_clock]. rewrite Hget.
  unfold pushed. cbn [get_prop rbind]. rewrite Hm. cbn [array_push rbind set_prop].
  fold m.
  match goal with
  | |- context [Agent.touch_conversation _ _ _ ?x] => set (w2 := x)
  end.
  assert (Hc2 : conv_has w2 convId (msgs ++ [m])).
  { exists (assign "messages" (VArr (msgs ++ [m])) props). split.
    - simpl. apply map_get_set_same. rewrite Hget. discriminate.
    - apply lookup_assign_same. }
  destruct (Agent.touch_conversation role content convId w2) as [r w3] eqn:Et.
  assert (Hc3 : conv_has w3 convId (msgs ++ [m])).
  { pose proof (touch_conversation_grows (fun _ => False) convId _ _ _ _ _ _ Et) as Hg.
    destruct Hg as (_ & _ & _ & _ & G). destruct (G _ Hc2) as (extra & Hc & HF).
    destruct extra as [|x extra]; [now rewrite app_nil_r in Hc|].
    inversion HF; subst. contradiction. }
  exists w3, m. split; [destruct r as [[]|]; reflexivity|]. split; auto.
  split; auto. exists (Date_now (clock w)), (Date_now (S (clock w))). reflexivity.
Qed.

(** *** The trace *)

Lemma now_same_trace `{Env} : preserves same_trace now.
Proof. intros w r w' E. inversion E; subst. reflexivity. Qed.

Lemma update_conversation_same_trace `{Env} (k : value) (f : value -> result value) :
  preserves same_trace (Agent.update_conversation k f).
Proof.
  intros w r w' E. unfold Agent.update_conversation in E.
  destruct (f _); inversion E; subst; reflexivity.
Qed.

#[local] Hint Resolve now_same_trace update_conversation_same_trace : pres.

Lemma addMessage_same_trace `{Env} (role : string) (content target : value) :
  preserves same_trace (Agent.addMessage role content target).
Proof.
  unfold Agent.addMessage, Agent.addMessage_body, Agent.push_message,
    Agent.touch_conversation. pres.
Qed.

#[local] Hint Resolve addMessage_same_trace : pres.

Lemma executeTool_same_trace `{Env} (toolCall : value) :
  preserves same_trace (Agent.executeTool toolCall).
Proof. unfold Agent.executeTool. pres. Qed.

#[local] Hint Resolve executeTool_same_trace : pres.

Lemma run_tools_same_trace `{Env} (conversationId tool_calls : value) :
  preserves same_trace (Agent.run_tools conversationId tool_calls).
Proof.
  unfold Agent.run_tools, Agent.start_all, Agent.record_result, Agent.push_message. pres.
Qed.

#[local] Hint Resolve run_tools_same_trace : pres.

Lemma loadConversation_same_trace `{Env} (id : value) :
  preserves same_trace (Agent.loadConversation id).
Proof.
  unfold Agent.loadConversation. pres. apply preserves_modify. reflexivity.
Qed.

#[local] Hint Resolve loadConversation_same_trace : pres.

Lemma createNewConversation_same_trace `{Env} :
  preserves same_trace Agent.createNewConversation.
Proof.
  unfold Agent.createNewConversation. pres. apply preserves_modify. reflexivity.
Qed.

Lemma saveCurrentConversation_same_trace `{Env} :
  preserves same_trace Agent.saveCurrentConversation.
Proof.
  unfold Agent.saveCurrentConversation. pres. apply preserves_modify. reflexivity.
Qed.

#[local] Hint Resolve createNewConversation_same_trace saveCurrentConversation_same_trace : pres.

Lemma provider_calls_app (a b : list event) :
  provider_calls (a ++ b) = provider_calls a + provider_calls b.
Proof. unfold provider_calls. now rewrite filter_app, length_app. Qed.

Lemma network_requests_app (a b : list event) :
  network_requests (a ++ b) = network_requests a + network_requests b.
Proof. unfold network_requests. now rewrite filter_app, length_app. Qed.

Lemma same_trace_calls (w w' : World) : same_trace w w' -> same_calls w w'.
Proof. unfold same_trace, same_calls. now intros ->. Qed.

Lemma do_fetch_same_calls `{Env} (req : Request) : preserves same_calls (do_fetch req).
Proof.
  intros w r w' E. unfold do_fetch in E.
  destruct (fetch _ req); inversion E; subst; unfold same_calls;
    cbn [trace set_trace]; rewrite provider_calls_app;
    change (provider_calls [EvFetch req]) with 0; lia.
Qed.

#[local] Hint Resolve do_fetch_same_calls : pres.

Lemma call_with_same_calls `{Env} (llm : value) (msgs : list value) :
  preserves same_calls (call_with llm msgs).
Proof. unfold call_with, post. pres. Qed.

Lemma do_fetch_only_trace `{Env} (req : Request) : preserves only_trace (do_fetch req).
Proof.
  intros w r w' E. unfold do_fetch in E.
  destruct (fetch _ req); inversion E; subst; reflexivity.
Qed.

Lemma only_trace_refl (w : World) : only_trace w w.
Proof. destruct w. reflexivity. Qed.

Lemma only_trace_trans (a b c : World) : only_trace a b -> only_trace b c -> only_trace a c.
Proof. unfold only_trace. intros -> ->. reflexivity. Qed.

#[local] Hint Resolve only_trace_refl only_trace_trans : rel.
#[local] Hint Resolve do_fetch_only_trace : pres.

Lemma call_with_only_trace `{Env} (llm : value) (msgs : list value) :
  preserves only_trace (call_with llm msgs).
Proof. unfold call_with, post. pres. Qed.

Lemma callLLM_only_trace `{Env} (conversation : value) :
  preserves only_trace (Agent.callLLM conversation).
Proof.
  unfold Agent.callLLM. pres.
  - apply preserves_modify. reflexivity.
  - apply call_with_only_trace.
Qed.

Lemma only_trace_grows (Q : value -> Prop) (convId : value) (w w' : World) :
  only_trace w w' -> grows Q convId w w'.
Proof.
  intros ->. repeat split. intros msgs Hc. exists []. rewrite app_nil_r. auto.
Qed.

(** Every call of callLLM counts as one provider call, whatever becomes of
    it. *)
Lemma callLLM_calls `{Env} (conversation : value) :
  preserves (calls_plus 1) (Agent.callLLM conversation).
Proof.
  intros w r w' E. unfold Agent.callLLM in E.
  apply bind_inv in E. destruct E as [(u & w1 & E1 & E2) | (e & E1 & _)].
  - inversion E1; subst.
    assert (S : same_calls (set_trace (trace w ++ [EvCallLLM]) w) w').
    { revert E2. generalize (set_trace (trace w ++ [EvCallLLM]) w). intros w0 E2.
      assert (P : preserves same_calls
                    (let* messages := lift (get_prop conversation "messages") in
                     let* msgs := lift (messagesForApi messages) in
                     let* st := gets settings in
                     let* llm := lift (get_prop st "llm") in
                     call_with (js_or llm (VObj [])) msgs)).
      { pres. apply call_with_same_calls. }
      eapply P; eauto. }
    unfold same_calls in S. unfold calls_plus. rewrite S. cbn [trace set_trace].
    rewrite provider_calls_app. reflexivity.
  - inversion E1.
Qed.

(** *** Methods that always return *)

Lemma total_ret {A : Type} (a : A) : total (ret a).
Proof. intros w. exists a, w. reflexivity. Qed.

Lemma total_gets {A : Type} (f : World -> A) : total (gets f).
Proof. intros w. exists (f w), w. reflexivity. Qed.

Lemma total_modify (f : World -> World) : total (modify f).
Proof. intros w. exists tt, (f w). reflexivity. Qed.

Lemma total_bind {A B : Type} (m : M A) (f : A -> M B) :
  total m -> (forall a, total (f a)) -> total (bind m f).
Proof.
  intros Hm Hf w. destruct (Hm w) as (a & w1 & E1).
  destruct (Hf a w1) as (b & w2 & E2). exists b, w2.
  rewrite (bind_ok _ _ _ _ _ E1). exact E2.
Qed.

Lemma total_try_catch {A : Type} (m : M A) (h : exn -> M A) :
  (forall e, total (h e)) -> total (try_catch m h).
Proof.
  intros Hh w. unfold try_catch. destruct (m w) as [[a|e] w1].
  - eauto.
  - apply Hh.
Qed.

Lemma total_try_finally {A : Type} (m : M A) (f : M unit) :
  total m -> total f -> total (try_finally m f).
Proof.
  intros Hm Hf w. unfold try_finally.
  destruct (Hm w) as (a & w1 & ->). destruct (Hf w1) as (u & w2 & ->). eauto.
Qed.

Lemma total_now `{Env} : total now.
Proof. intros w. unfold now. eauto. Qed.

Lemma total_unit (m : M unit) :
  total m -> forall w, exists w', m w = (Ok tt, w').
Proof. intros Hm w. destruct (Hm w) as ([] & w' & E). eauto. Qed.

Lemma addMessage_total `{Env} (role : string) (content target : value) :
  total (Agent.addMessage role content target).
Proof. apply total_try_catch. intros e. apply total_ret. Qed.

Lemma saveCurrentConversation_total `{Env} : total Agent.saveCurrentConversation.
Proof. apply total_try_catch. intros e. apply total_ret. Qed.

Lemma loadConversation_run `{Env} (id : value) (w : World) :
  truthy id = true ->
  Agent.loadConversation id w
  = ((if negb messages_element then Ok tt
      else Agent.render_log (map_get (conversations w) id)),
     set_currentConversationId id w).
Proof.
  intros Ht. unfold Agent.loadConversation, bind, modify, gets, lift, ret.
  rewrite Ht. cbn [negb]. destruct (negb messages_element); reflexivity.
Qed.

(** A conversation whose messages are an array is shown without failure. *)
Lemma render_log_array (props : list (string * value)) (msgs : list value) :
  lookup "messages" props = VArr msgs -> Agent.render_log (VObj props) = Ok tt.
Proof.
  intros Hm. unfold Agent.render_log. cbn [truthy get_prop rbind]. rewrite Hm.
  cbn [truthy get_prop rbind]. destruct (truthy _); reflexivity.
Qed.

Lemma loadConversation_array `{Env} (id : value) (w : World)
    (props : list (string * value)) (msgs : list value) :
  map_get (conversations w) id = VObj props ->
  lookup "messages" props = VArr msgs ->
  Agent.loadConversation id w
  = (Ok tt, if truthy id then set_currentConversationId id w else w).
Proof.
  intros Hc Hm. destruct (truthy id) eqn:Ht.
  - rewrite (loadConversation_run id w Ht), Hc, (render_log_array props msgs Hm).
    destruct (negb messages_element); reflexivity.
  - unfold Agent.loadConversation. rewrite Ht. reflexivity.
Qed.

Lemma loadConversation_missing `{Env} (id : value) (w : World) :
  map_get (conversations w) id = VUndef ->
  Agent.loadConversation id w
  = (Ok tt, if truthy id then set_currentConversationId id w else w).
Proof.
  intros Hc. destruct (truthy id) eqn:Ht.
  - rewrite (loadConversation_run id w Ht), Hc.
    destruct (negb messages_element); reflexivity.
  - unfold Agent.loadConversation. rewrite Ht. reflexivity.
Qed.

Lemma createNewConversation_run `{Env} (w : World) :
  exists w',
    Agent.createNewConversation w = (Ok (new_id (clock w)), w') /\
    conversations w' = map_set (conversations w) (new_id (clock w)) (new_conversation (clock w)) /\
    currentConversationId w' = new_id (clock w) /\
    clock w' = S (S (S (clock w))) /\
    settings w' = settings w /\ stored_conversations w' = stored_conversations w /\
    isProcessing w' = isProcessing w /\ trace w' = trace w /\ apiCalls w' = apiCalls w.
Proof.
  unfold Agent.createNewConversation, bind, now, modify, ret.
  cbn [clock set_clock conversations set_conversations].
  erewrite loadConversation_array.
  - cbn [truthy String.append String.eqb negb].
    eexists. split; [reflexivity|]. repeat split.
  - cbn [conversations set_conversations]. apply map_get_set_new. cbn. apply String.eqb_refl.
  - reflexivity.
Qed.

Lemma createNewConversation_total `{Env} : total Agent.createNewConversation.
Proof.
  intros w. destruct (createNewConversation_run w) as (w' & E & _). eauto.
Qed.

Lemma iteration_total `{Env} (conversationId : value) :
  total (Agent.iteration conversationId).
Proof.
  apply total_try_catch. intros e.
  apply total_bind; [apply addMessage_total | intros ?; apply total_ret].
Qed.

Lemma turns_total `{Env} (maxTurns : nat) (conversationId : value) :
  total (Agent.turns maxTurns conversationId).
Proof.
  induction maxTurns as [|n IH]; simpl.
  - apply total_ret.
  - apply total_bind; [apply iteration_total|]. intros [|]; [apply IH | apply total_ret].
Qed.

Lemma agentLoop_total `{Env} (conversationId : value) :
  total (Agent.agentLoop conversationId).
Proof.
  unfold Agent.agentLoop. apply total_bind; [apply total_gets|]. intros c.
  destruct (negb (truthy c)); [apply total_ret | apply turns_total].
Qed.

Lemma sendMessage_total `{Env} (userInput : option string) :
  total (Agent.sendMessage userInput).
Proof.
  unfold Agent.sendMessage.
  apply total_bind; [apply total_gets|]. intros processing.
  destruct (_ || _); [apply total_ret|].
  apply total_bind; [apply total_modify|]. intros _.
  apply total_bind; [apply total_gets|]. intros current.
  apply total_bind.
  { destruct (truthy current); [apply total_ret | apply createNewConversation_total]. }
  intros convId.
  apply total_bind; [apply addMessage_total|]. intros _.
  apply total_try_finally.
  - apply total_try_catch. intros e. apply addMessage_total.
  - apply total_bind; [apply total_modify | intros _; apply saveCurrentConversation_total].
Qed.

(** *** Counting provider calls *)

Lemma at_most_refl (n : nat) (w : World) : at_most n w w.
Proof. unfold at_most. lia. Qed.

Lemma preserves_bind_at_most {A B : Type} (n : nat) (m : M A) (f : A -> M B) :
  preserves same_calls m -> (forall a, preserves (at_most n) (f a)) ->
  preserves (at_most n) (bind m f).
Proof.
  intros Hm Hf w r w' E. apply bind_inv in E.
  destruct E as [(a & w1 & E1 & E2) | (e & E1 & _)].
  - apply Hm in E1. apply Hf in E2. unfold same_calls, at_most in *. lia.
  - apply Hm in E1. unfold same_calls, at_most in *. lia.
Qed.

Lemma preserves_same_trace_calls {A : Type} (m : M A) :
  preserves same_trace m -> preserves same_calls m.
Proof. apply preserves_weaken. apply same_trace_calls. Qed.

Lemma handle_response_same_trace `{Env} (conversationId responseData : value) :
  preserves same_trace (Agent.handle_response conversationId responseData).
Proof.
  unfold Agent.handle_response. pres. apply preserves_modify. reflexivity.
Qed.

(** One iteration makes exactly one provider call, however it ends. *)
Lemma iteration_body_calls `{Env} (conversationId : value) :
  preserves (calls_plus 1) (Agent.iteration_body conversationId).
Proof.
  intros w r w' E. unfold Agent.iteration_body in E.
  apply bind_inv in E. destruct E as [(c & w0 & E0 & E) | (e & E0 & _)];
    [inversion E0; subst | inversion E0].
  apply bind_inv in E. destruct E as [(data & w1 & E1 & E2) | (e & E1 & _)].
  - apply callLLM_calls in E1. apply handle_response_same_trace in E2.
    unfold calls_plus, same_trace in *. now rewrite E2.
  - now apply callLLM_calls in E1.
Qed.

Lemma iteration_calls `{Env} (conversationId : value) :
  preserves (calls_plus 1) (Agent.iteration conversationId).
Proof.
  intros w r w' E. unfold Agent.iteration, try_catch in E.
  destruct (Agent.iteration_body conversationId w) as [[b|e] w1] eqn:E1.
  - inversion E; subst. now apply iteration_body_calls in E1.
  - apply iteration_body_calls in E1.
    assert (S : same_trace w1 w').
    { revert E. apply (preserves_bind same_trace same_trace_trans).
      - apply addMessage_same_trace.
      - intros _. apply preserves_ret, same_trace_refl. }
    unfold calls_plus, same_trace in *. now rewrite S.
Qed.

Lemma turns_at_most `{Env} (maxTurns : nat) (conversationId : value) :
  preserves (at_most maxTurns) (Agent.turns maxTurns conversationId).
Proof.
  induction maxTurns as [|n IH]; simpl; intros w r w' E.
  - inversion E; subst. apply at_most_refl.
  - apply bind_inv in E. destruct E as [(again & w1 & E1 & E2) | (e & E1 & _)].
    + apply iteration_calls in E1. unfold calls_plus in E1.
      destruct again.
      * apply IH in E2. unfold at_most in *. lia.
      * inversion E2; subst. unfold at_most. lia.
    + apply iteration_calls in E1. unfold calls_plus in E1. unfold at_most. lia.
Qed.

Lemma agentLoop_at_most `{Env} (conversationId : value) :
  preserves (at_most 5) (Agent.agentLoop conversationId).
Proof.
  unfold Agent.agentLoop. apply preserves_bind_at_most.
  - apply preserves_gets, same_calls_refl.
  - intros c. destruct (negb (truthy c)).
    + apply preserves_ret, at_most_refl.
    + apply turns_at_most.
Qed.

Lemma sendMessage_at_most `{Env} (userInput : option string) :
  preserves (at_most 5) (Agent.sendMessage userInput).
Proof.
  unfold Agent.sendMessage.
  apply preserves_bind_at_most; [apply preserves_gets, same_calls_refl|].
  intros processing. destruct (_ || _); [apply preserves_ret, at_most_refl|].
  apply preserves_bind_at_most; [apply preserves_modify; reflexivity|]. intros _.
  apply preserves_bind_at_most; [apply preserves_gets, same_calls_refl|]. intros current.
  apply preserves_bind_at_most.
  { apply preserves_same_trace_calls. destruct (truthy current).
    - apply preserves_ret, same_trace_refl.
    - apply createNewConversation_same_trace. }
  intros convId.
  apply preserves_bind_at_most;
    [apply preserves_same_trace_calls, addMessage_same_trace|]. intros _.
  intros w r w' E. unfold try_finally, try_catch in E.
  destruct (Agent.agentLoop convId w) as [[u|e] w1] eqn:E1;
    apply agentLoop_at_most in E1.
  - destruct (bind _ _ w1) as [fr w2] eqn:E2.
    assert (S : same_trace w1 w2).
    { revert E2. apply (preserves_bind same_trace same_trace_trans).
      - apply preserves_modify. reflexivity.
      - intros _. apply saveCurrentConversation_same_trace. }
    destruct fr; inversion E; subst; unfold at_most, same_trace in *; now rewrite S.
  - destruct (Agent.addMessage _ _ convId w1) as [hr w2] eqn:E2.
    apply addMessage_same_trace in E2.
    destruct (bind _ _ w2) as [fr w3] eqn:E3.
    assert (S : same_trace w2 w3).
    { revert E3. apply (preserves_bind same_trace same_trace_trans).
      - apply preserves_modify. reflexivity.
      - intros _. apply saveCurrentConversation_same_trace. }
    destruct fr; inversion E; subst; unfold at_most, same_trace in *;
      rewrite S, E2; assumption.
Qed.

(** C1 — For every sendMessage invocation the turn-loop makes at most 5
    provider calls (callLLM invocations), whatever the provider answers,
    tool calls included; sendMessage and agentLoop always return. *)
Theorem C1_at_most_five_provider_calls :
  forall (E : Env) (userInput : option string) (conversationId : value) (w : World),
    (exists w',
        Agent.sendMessage userInput w = (Ok tt, w') /\
        provider_calls (trace w') <= provider_calls (trace w) + 5) /\
    (exists w',
        Agent.agentLoop conversationId w = (Ok tt, w') /\
        provider_calls (trace w') <= provider_calls (trace w) + 5).
Proof.
  intros E userInput conversationId w. split.
  - destruct (total_unit _ (sendMessage_total userInput) w) as (w' & Hs).
    exists w'. split; auto. apply sendMessage_at_most in Hs. exact Hs.
  - destruct (total_unit _ (agentLoop_total conversationId) w) as (w' & Hs).
    exists w'. split; auto. apply agentLoop_at_most in Hs. exact Hs.
Qed.

(** The bound is met: a provider that asks for a tool in every answer is
    called five times and no more. *)
Example five_calls_when_tools_never_stop :
  let run := @Agent.sendMessage Examples.always_tools (Some "hello")
               (Examples.world (Examples.llm_settings (VStr "openai") (VStr "sk-test")) []) in
  fst run = Ok tt /\ provider_calls (trace (snd run)) = 5.
Proof. vm_compute. split; reflexivity. Qed.

(* ===================================================================== *)
(** ** The provider adapter                                              *)
(* ===================================================================== *)

Lemma get_prop_ok (v : value) (k : string) :
  is_nullish v = false -> get_prop v k = Ok (get_prop_opt v k).
Proof. unfold get_prop_opt. destruct v; simpl; try discriminate; reflexivity. Qed.

Lemma normalize_message_ok `{Env} (m : value) :
  is_nullish m = false ->
  normalize_message m =
    Ok (VObj [("role", outbound_role (get_prop_opt m "role"));
              ("content", serialize_content (get_prop_opt m "content"))]).
Proof.
  intros Hm. unfold normalize_message, outbound_role.
  rewrite !(get_prop_ok m) by assumption. cbn [rbind].
  destruct (str_is (get_prop_opt m "role") "tool"); reflexivity.
Qed.

Lemma messagesForApi_outbound `{Env} (ms : list value) :
  sendable ms -> messagesForApi (VArr ms) = Ok (outbound_messages ms).
Proof.
  intros Hs. unfold messagesForApi. cbn [array_map].
  assert (Hmap : mapR normalize_message ms =
                 Ok (map (fun m => VObj [("role", outbound_role (get_prop_opt m "role"));
                                         ("content", serialize_content (get_prop_opt m "content"))])
                       ms)).
  { induction Hs as [|m rest Hm Hrest IH]; [reflexivity|].
    cbn [mapR map]. rewrite (normalize_message_ok m Hm). cbn [rbind].
    rewrite IH. reflexivity. }
  rewrite Hmap. cbn [rbind]. f_equal.
  clear Hmap Hs. induction ms as [|m rest IH]; [reflexivity|].
  cbn [map filter outbound_messages flat_map].
  change (has_content
            (VObj [("role", outbound_role (get_prop_opt m "role"));
                   ("content", serialize_content (get_prop_opt m "content"))]))
    with (truthy (serialize_content (get_prop_opt m "content"))).
  unfold outbound_messages in IH. rewrite IH.
  destruct (truthy (serialize_content (get_prop_opt m "content"))); reflexivity.
Qed.

Lemma outbound_messages_shape `{Env} (ms : list value) :
  Forall (fun out =>
            exists role content,
              out = VObj [("role", role); ("content", content)] /\
              str_is role "tool" = false /\ truthy content = true)
    (outbound_messages ms).
Proof.
  unfold outbound_messages. induction ms as [|m rest IH]; [constructor|].
  cbn [flat_map].
  destruct (truthy (serialize_content (get_prop_opt m "content"))) eqn:Ht;
    cbn [app]; auto.
  constructor; auto.
  exists (outbound_role (get_prop_opt m "role")),
         (serialize_content (get_prop_opt m "content")).
  repeat split; auto. unfold outbound_role.
  destruct (str_is (get_prop_opt m "role") "tool") eqn:Er; auto.
Qed.

(** The class method and the service function up to the point where the
    settings decide. *)
Lemma agent_callLLM_unfold `{Env} (conversation llm : value) (ms : list value) (w : World) :
  get_prop conversation "messages" = Ok (VArr ms) ->
  sendable ms ->
  get_prop (settings w) "llm" = Ok llm ->
  Agent.callLLM conversation w =
    call_with (js_or llm (VObj [])) (outbound_messages ms)
      (set_trace (trace w ++ [EvCallLLM]) w).
Proof.
  intros Hm Hs Hl. unfold Agent.callLLM, bind, modify, lift, gets.
  rewrite Hm, (messagesForApi_outbound ms Hs). cbn [settings set_trace].
  rewrite Hl. reflexivity.
Qed.

Lemma service_callLLM_unfold `{Env} (conversation st : value) (ms : list value) (w : World) :
  get_prop conversation "messages" = Ok (VArr ms) ->
  sendable ms ->
  LlmService.callLLM conversation st w =
    call_with (js_or (if truthy st then get_prop_opt st "llm" else st) (VObj []))
      (outbound_messages ms) (set_trace (trace w ++ [EvCallLLM]) w).
Proof.
  intros Hm Hs. unfold LlmService.callLLM, bind, modify, lift.
  rewrite Hm. cbn [js_or truthy]. rewrite (messagesForApi_outbound ms Hs). reflexivity.
Qed.

(** C6 — The outbound list callLLM builds from a conversation relabels every
    tool message as system, passes every other role through unchanged and
    drops every message whose serialised content is falsy; both callLLM
    functions hand exactly this list to the provider switch. *)
Theorem C6_outbound_normalisation :
  forall (E : Env) (conversation llm st : value) (ms : list value) (w : World),
    get_prop conversation "messages" = Ok (VArr ms) ->
    sendable ms ->
    get_prop (settings w) "llm" = Ok llm ->
    messagesForApi (VArr ms) = Ok (outbound_messages ms) /\
    Agent.callLLM conversation w =
      call_with (js_or llm (VObj [])) (outbound_messages ms)
        (set_trace (trace w ++ [EvCallLLM]) w) /\
    LlmService.callLLM conversation st w =
      call_with (js_or (if truthy st then get_prop_opt st "llm" else st) (VObj []))
        (outbound_messages ms) (set_trace (trace w ++ [EvCallLLM]) w) /\
    Forall (fun out =>
              exists role content,
                out = VObj [("role", role); ("content", content)] /\
                str_is role "tool" = false /\ truthy content = true)
      (outbound_messages ms).
Proof.
  intros E conversation llm st ms w Hm Hs Hl. repeat split.
  - apply messagesForApi_outbound; assumption.
  - apply agent_callLLM_unfold; assumption.
  - apply service_callLLM_unfold; assumption.
  - apply outbound_messages_shape.
Qed.

Lemma C6_witness :
  get_prop (Examples.conversation Examples.mixed_log) "messages"
    = Ok (VArr Examples.mixed_log) /\
  sendable Examples.mixed_log /\
  @messagesForApi Examples.offline (VArr Examples.mixed_log)
    = Ok (@outbound_messages Examples.offline Examples.mixed_log).
Proof.
  assert (H1 : get_prop (Examples.conversation Examples.mixed_log) "messages"
               = Ok (VArr Examples.mixed_log)) by reflexivity.
  assert (H2 : sendable Examples.mixed_log) by (repeat constructor).
  assert (H3 : get_prop (settings (Examples.world
                                     (Examples.llm_settings (VStr "openai") (VStr "sk-test"))
                                     Examples.mixed_log)) "llm"
               = Ok (VObj [("provider", VStr "openai"); ("apiKey", VStr "sk-test");
                           ("model", VStr "default"); ("maxTokens", VNum 2000)]))
    by reflexivity.
  split; [exact H1|]. split; [exact H2|].
  exact (proj1 (C6_outbound_normalisation Examples.offline _ _ VUndef _ _ H1 H2 H3)).
Defined.

(** The list that goes out for the mixed log: the tool result as a system
    message, the message without text dropped. *)
Example outbound_of_mixed_log :
  @outbound_messages Examples.offline Examples.mixed_log =
    [VObj [("role", VStr "user"); ("content", VStr "hello")];
     VObj [("role", VStr "system"); ("content", VStr "{}")]].
Proof. reflexivity. Qed.

Lemma provider_holder_is_object (llm : value) (p : string) :
  get_prop_opt llm "provider" = VStr p -> truthy llm = true.
Proof. destruct llm; simpl; try discriminate; reflexivity. Qed.

Lemma call_with_demo `{Env} (llm : value) (msgs : list value) (w : World) :
  truthy (get_prop_opt llm "provider") = true ->
  truthy (get_prop_opt llm "apiKey") = false ->
  call_with llm msgs w = (Ok demo_payload, w).
Proof. intros Hp Hk. unfold call_with. rewrite Hp, Hk. reflexivity. Qed.

(** C5 — With provider "openai" and no API key, callLLM returns the fixed
    demo payload (the demo text inside a choices/message shape) and makes no
    network request. *)
Theorem C5_demo_without_api_key :
  forall (E : Env) (conversation llm st : value) (ms : list value) (w : World),
    get_prop conversation "messages" = Ok (VArr ms) ->
    sendable ms ->
    get_prop_opt llm "provider" = VStr "openai" ->
    truthy (get_prop_opt llm "apiKey") = false ->
    (get_prop (settings w) "llm" = Ok llm ->
     exists w',
       Agent.callLLM conversation w = (Ok demo_payload, w') /\
       network_requests (trace w') = network_requests (trace w)) /\
    (truthy st = true -> get_prop_opt st "llm" = llm ->
     exists w',
       LlmService.callLLM conversation st w = (Ok demo_payload, w') /\
       network_requests (trace w') = network_requests (trace w)) /\
    Agent.parseAPIResponse demo_payload (VStr "openai") =
      Ok (VObj [("content",
                 VStr "Demo response: provide an API key in settings to use real models.")]).
Proof.
  intros E conversation llm st ms w Hm Hs Hp Hk.
  pose proof (provider_holder_is_object _ _ Hp) as Hl.
  assert (Hd : forall w0, call_with (js_or llm (VObj [])) (outbound_messages ms) w0
                          = (Ok demo_payload, w0)).
  { intros w0. unfold js_or. rewrite Hl. apply call_with_demo; auto.
    now rewrite Hp. }
  repeat split.
  - intros Hst. exists (set_trace (trace w ++ [EvCallLLM]) w).
    rewrite (agent_callLLM_unfold _ _ _ _ Hm Hs Hst), Hd. split; auto.
    cbn [trace set_trace]. rewrite network_requests_app. cbn. lia.
  - intros Ht Hst. exists (set_trace (trace w ++ [EvCallLLM]) w).
    rewrite (service_callLLM_unfold _ st _ _ Hm Hs), Ht, Hst, Hd. split; auto.
    cbn [trace set_trace]. rewrite network_requests_app. cbn. lia.
Qed.

Lemma C5_witness :
  exists w',
    @Agent.callLLM Examples.offline (Examples.conversation [Examples.user_message])
      (Examples.world (Examples.llm_settings (VStr "openai") VUndef) [Examples.user_message])
      = (Ok demo_payload, w') /\
    network_requests (trace w') = 0.
Proof.
  apply (C5_demo_without_api_key Examples.offline
           (Examples.conversation [Examples.user_message])
           (VObj [("provider", VStr "openai"); ("apiKey", VUndef);
                  ("model", VStr "default"); ("maxTokens", VNum 2000)])
           VUndef [Examples.user_message]
           (Examples.world (Examples.llm_settings (VStr "openai") VUndef)
              [Examples.user_message])).
  - reflexivity.
  - repeat constructor.
  - reflexivity.
  - reflexivity.
  - reflexivity.
Defined.

(** The demo fallback precedes the provider switch: an unknown provider
    without an API key gets the demo payload, not an error. *)
Lemma C4_counterexample :
  supported (VStr "foo") = false /\
  fst (@Agent.callLLM Examples.offline (Examples.conversation [Examples.user_message])
         (Examples.world (Examples.llm_settings (VStr "foo") (VStr ""))
            [Examples.user_message]))
    = Ok demo_payload /\
  fst (@LlmService.callLLM Examples.offline (Examples.conversation [Examples.user_message])
         (Examples.llm_settings (VStr "foo") (VStr ""))
         (Examples.world (Examples.llm_settings (VStr "foo") (VStr ""))
            [Examples.user_message]))
    = Ok demo_payload.
Proof. repeat split; reflexivity. Qed.

Lemma call_with_unsupported `{Env} (llm : value) (msgs : list value) (w : World)
    (name : string) :
  truthy (get_prop_opt llm "provider") = true ->
  truthy (get_prop_opt llm "apiKey") = true ->
  supported (get_prop_opt llm "provider") = false ->
  ToString (get_prop_opt llm "provider") = Ok name ->
  call_with llm msgs w = (Throw (Error ("Unsupported provider: " ^^ name)), w).
Proof.
  intros Hp Hk Hs Hn. unfold call_with. rewrite Hp, Hk. cbn [negb].
  unfold supported in Hs. apply orb_false_elim in Hs. destruct Hs as (Hs & H3).
  apply orb_false_elim in Hs. destruct Hs as (H1 & H2).
  unfold provider_request. rewrite H1, H2, H3, Hn. reflexivity.
Qed.

Lemma call_with_unconfigured `{Env} (llm : value) (msgs : list value) (w : World) :
  truthy (get_prop_opt llm "provider") = false ->
  call_with llm msgs w = (Throw (Error "No LLM provider configured."), w).
Proof. intros Hp. unfold call_with. rewrite Hp. reflexivity. Qed.

(** The two callLLM functions end as the part they share does. *)
Lemma callLLM_ends_as `{Env} (conversation llm st : value) (ms : list value)
    (w : World) (r : result value) :
  get_prop conversation "messages" = Ok (VArr ms) ->
  sendable ms ->
  truthy llm = true ->
  (forall w0, call_with llm (outbound_messages ms) w0 = (r, w0)) ->
  callLLM_ends conversation llm st w r.
Proof.
  intros Hm Hs Hl Hd. split.
  - intros Hst. exists (set_trace (trace w ++ [EvCallLLM]) w).
    rewrite (agent_callLLM_unfold _ _ _ _ Hm Hs Hst). unfold js_or. rewrite Hl, Hd.
    split; auto. cbn [trace set_trace]. rewrite network_requests_app. cbn. lia.
  - intros Ht Hst. exists (set_trace (trace w ++ [EvCallLLM]) w).
    rewrite (service_callLLM_unfold _ st _ _ Hm Hs), Ht, Hst. unfold js_or.
    rewrite Hl, Hd. split; auto.
    cbn [trace set_trace]. rewrite network_requests_app. cbn. lia.
Qed.

(** C4 (amended) — When an API key is set, a provider name that is not
    empty and outside {openai, google, aipipe} makes callLLM throw an Error
    whose message is "Unsupported provider: " followed by the name, before
    any network request.  Without an API key the demo payload is returned
    whatever the provider name, and an empty provider name fails with "No LLM
    provider configured.", with a key or without.  This holds for the method
    of the class and for the function of services/llm.js. *)
Theorem C4_unsupported_provider_with_key :
  forall (E : Env) (conversation llm st : value) (ms : list value) (w : World),
    get_prop conversation "messages" = Ok (VArr ms) ->
    sendable ms ->
    truthy llm = true ->
    (forall name,
        truthy (get_prop_opt llm "provider") = true ->
        ToString (get_prop_opt llm "provider") = Ok name ->
        supported (get_prop_opt llm "provider") = false ->
        truthy (get_prop_opt llm "apiKey") = true ->
        callLLM_ends conversation llm st w
          (Throw (Error ("Unsupported provider: " ^^ name)))) /\
    (truthy (get_prop_opt llm "provider") = true ->
     truthy (get_prop_opt llm "apiKey") = false ->
     callLLM_ends conversation llm st w (Ok demo_payload)) /\
    (truthy (get_prop_opt llm "provider") = false ->
     callLLM_ends conversation llm st w (Throw (Error "No LLM provider configured."))).
Proof.
  intros E conversation llm st ms w Hm Hs Hl. split; [|split].
  - intros name Hp Hn Hu Hk. eapply callLLM_ends_as; eauto.
    intros w0. apply call_with_unsupported; auto.
  - intros Hp Hk. eapply callLLM_ends_as; eauto.
    intros w0. apply call_with_demo; auto.
  - intros Hp. eapply callLLM_ends_as; eauto.
    intros w0. apply call_with_unconfigured; auto.
Qed.

Lemma C4_witness :
  exists w',
    @Agent.callLLM Examples.offline (Examples.conversation [Examples.user_message])
      (Examples.world (Examples.llm_settings (VStr "foo") (VStr "sk-test"))
         [Examples.user_message])
      = (Throw (Error ("Unsupported provider: " ^^ "foo")), w') /\
    network_requests (trace w') = 0.
Proof.
  apply (proj1
           (proj1
              (C4_unsupported_provider_with_key Examples.offline
                 (Examples.conversation [Examples.user_message])
                 (VObj [("provider", VStr "foo"); ("apiKey", VStr "sk-test");
                        ("model", VStr "default"); ("maxTokens", VNum 2000)])
                 VUndef [Examples.user_message]
                 (Examples.world (Examples.llm_settings (VStr "foo") (VStr "sk-test"))
                    [Examples.user_message])
                 eq_refl ltac:(repeat constructor) eq_refl)
              "foo" eq_refl eq_refl eq_refl eq_refl)).
  reflexivity.
Defined.

(** The three outcomes on the settings of the examples: an unknown name with
    a key, an unknown name without one, an empty name with a key. *)
Example callLLM_by_provider_and_key :
  let run provider apiKey :=
    fst (@Agent.callLLM Examples.offline (Examples.conversation [Examples.user_message])
           (Examples.world (Examples.llm_settings provider apiKey)
              [Examples.user_message])) in
  run (VStr "foo") (VStr "sk-test") = Throw (Error "Unsupported provider: foo") /\
  run (VStr "foo") (VStr "") = Ok demo_payload /\
  run (VStr "") (VStr "sk-test") = Throw (Error "No LLM provider configured.").
Proof. cbv zeta. repeat split; reflexivity. Qed.

(* ===================================================================== *)
(** ** The tool executor                                                 *)
(* ===================================================================== *)

(** executeTool on a call that is not null or undefined and whose name
    has a string form: it leaves its note and settles to what the dispatch
    gives. *)
Lemma executeTool_run `{Env} (toolCall func0 : value) (label : string) (w : World) :
  get_prop toolCall "function" = Ok func0 ->
  ToString (Agent.tool_name (js_or func0 (VObj []))) = Ok label ->
  exists w',
    Agent.addMessage "system" (VStr ("Executing tool: " ^^ label))
      (currentConversationId w) w = (Ok tt, w') /\
    Agent.executeTool toolCall w =
      (Ok (Agent.dispatch (Agent.tool_name (js_or func0 (VObj []))) (Agent.tool_args toolCall)),
       w').
Proof.
  intros Hf Hl.
  destruct (total_unit _ (addMessage_total "system" (VStr ("Executing tool: " ^^ label))
                            (currentConversationId w)) w) as (w' & Ha).
  exists w'. split; auto.
  unfold Agent.executeTool, bind, lift, gets. rewrite Hf, Hl, Ha. reflexivity.
Qed.

Lemma tool_name_of (func0 : value) :
  Agent.tool_name (js_or func0 (VObj [])) =
    js_or (get_prop_opt func0 "name") (VStr "unknown").
Proof.
  unfold Agent.tool_name, js_or. destruct (truthy func0) eqn:Hf.
  - destruct (truthy (get_prop_opt func0 "name")) eqn:Hn; rewrite ?Hn; reflexivity.
  - destruct func0; try discriminate; reflexivity.
Qed.

Lemma dispatch_without_arguments `{Env} (name : value) :
  printable name -> exists v, Agent.dispatch name (VObj []) = Ok v.
Proof.
  intros (label & Hl). unfold Agent.dispatch.
  destruct (str_is name "web_search"); [cbn; eauto|].
  destruct (str_is name "execute_code"); [cbn; eauto|].
  destruct (str_is name "process_file"); [cbn; eauto|].
  destruct (str_is name "create_visualization"); [cbn; eauto|].
  rewrite Hl. cbn [rbind]. eauto.
Qed.

Lemma dispatch_unregistered `{Env} (name args : value) (label : string) :
  registered name = false ->
  ToString name = Ok label ->
  Agent.dispatch name args = Ok (VObj [("error", VStr ("Unknown tool: " ^^ label))]).
Proof.
  unfold registered. intros Hr Hl.
  apply orb_false_elim in Hr. destruct Hr as (Hr & H4).
  apply orb_false_elim in Hr. destruct Hr as (Hr & H3).
  apply orb_false_elim in Hr. destruct Hr as (H1 & H2).
  unfold Agent.dispatch. now rewrite H1, H2, H3, H4, Hl.
Qed.

(** C7 — executeTool takes its arguments from [toolCall.arguments] only:
    whatever [toolCall.function.arguments] holds changes nothing, and a call
    that carries its arguments there and has no top-level [arguments] runs
    its handler on the empty object. *)
Theorem C7_arguments_read_at_top_level_only :
  forall (E : Env) (props fprops : list (string * value)) (w : World),
    lookup "function" props = VObj fprops ->
    (forall x,
        Agent.executeTool
          (VObj (assign "function" (VObj (assign "arguments" x fprops)) props)) w
        = Agent.executeTool (VObj props) w) /\
    (truthy (lookup "arguments" props) = false ->
     Agent.tool_args (VObj props) = VObj [] /\
     (printable (Agent.tool_name (VObj fprops)) ->
      exists w',
        Agent.executeTool (VObj props) w =
          (Ok (Agent.dispatch (Agent.tool_name (VObj fprops)) (VObj [])), w'))).
Proof.
  intros E props fprops w Hf. split.
  - intros x.
    unfold Agent.executeTool, bind, lift, gets.
    cbn [get_prop]. rewrite lookup_assign_same, Hf.
    assert (Hn : Agent.tool_name (js_or (VObj (assign "arguments" x fprops)) (VObj []))
                 = Agent.tool_name (js_or (VObj fprops) (VObj []))).
    { rewrite !tool_name_of. unfold get_prop_opt. cbn [get_prop].
      rewrite lookup_assign_other by discriminate. reflexivity. }
    assert (Ha : Agent.tool_args
                   (VObj (assign "function" (VObj (assign "arguments" x fprops)) props))
                 = Agent.tool_args (VObj props)).
    { unfold Agent.tool_args, get_prop_opt. cbn [get_prop].
      rewrite lookup_assign_other by discriminate. reflexivity. }
    rewrite Hn, Ha. reflexivity.
  - intros Ha.
    assert (Hargs : Agent.tool_args (VObj props) = VObj []).
    { unfold Agent.tool_args, get_prop_opt. cbn [get_prop]. now rewrite Ha. }
    split; auto. intros (label & Hl).
    destruct (executeTool_run (VObj props) (VObj fprops) label w) as (w' & _ & Hx).
    { cbn [get_prop]. now rewrite Hf. }
    { exact Hl. }
    exists w'. rewrite Hx, Hargs. reflexivity.
Qed.

Lemma C7_witness :
  @Agent.tool_args Examples.offline Examples.cats_call = VObj [] /\
  exists w',
    @Agent.executeTool Examples.offline Examples.cats_call
      (Examples.world (Examples.llm_settings (VStr "openai") (VStr "sk-test")) [])
    = (Ok (Ok (VObj [("status", VStr "Simulated search for: undefined");
                     ("items", VArr [])])), w').
Proof.
  destruct (C7_arguments_read_at_top_level_only Examples.offline
              [("id", VStr "call_7");
               ("function", VObj [("name", VStr "web_search");
                                  ("arguments", VObj [("query", VStr "cats")])])]
              [("name", VStr "web_search"); ("arguments", VObj [("query", VStr "cats")])]
              (Examples.world (Examples.llm_settings (VStr "openai") (VStr "sk-test")) [])
              eq_refl) as (_ & Hshape).
  destruct (Hshape eq_refl) as (Hargs & Hrun).
  split; [exact Hargs|].
  apply Hrun. exists "web_search". reflexivity.
Defined.

(** The call with its arguments under [function.arguments]: the search
    handler never sees the query. *)
Example arguments_under_function_are_lost :
  fst (@Agent.executeTool Examples.offline Examples.cats_call
         (Examples.world (Examples.llm_settings (VStr "openai") (VStr "sk-test")) []))
    = Ok (Ok (VObj [("status", VStr "Simulated search for: undefined");
                    ("items", VArr [])])).
Proof. reflexivity. Qed.

(** A call whose function name is the empty string is answered with the
    name "unknown", not with its own name. *)
Lemma C8_counterexample :
  registered (VStr "") = false /\
  fst (@Agent.executeTool Examples.offline Examples.nameless_call
         (Examples.world (Examples.llm_settings (VStr "openai") (VStr "sk-test")) []))
    = Ok (Ok (VObj [("error", VStr "Unknown tool: unknown")])) /\
  VObj [("error", VStr "Unknown tool: unknown")]
    <> VObj [("error", VStr ("Unknown tool: " ^^ ""))].
Proof. repeat split; try reflexivity. discriminate. Qed.

(** C8 (amended) — For a tool call whose function name is truthy (a
    non-empty string) and not one of the four registered tools, executeTool
    returns [{error: "Unknown tool: <name>"}] and does not throw; when the
    name is missing or empty the value is [{error: "Unknown tool: unknown"}]. *)
Theorem C8_unknown_tool_is_a_value :
  forall (E : Env) (toolCall func0 : value) (label : string) (w : World),
    get_prop toolCall "function" = Ok func0 ->
    (truthy (get_prop_opt func0 "name") = true ->
     registered (get_prop_opt func0 "name") = false ->
     ToString (get_prop_opt func0 "name") = Ok label ->
     exists w',
       Agent.executeTool toolCall w =
         (Ok (Ok (VObj [("error", VStr ("Unknown tool: " ^^ label))])), w')) /\
    (truthy (get_prop_opt func0 "name") = false ->
     exists w',
       Agent.executeTool toolCall w =
         (Ok (Ok (VObj [("error", VStr "Unknown tool: unknown")])), w')).
Proof.
  intros E toolCall func0 label w Hf. split.
  - intros Ht Hr Hl.
    destruct (executeTool_run toolCall func0 label w Hf) as (w' & _ & Hx).
    { rewrite tool_name_of. unfold js_or. now rewrite Ht. }
    exists w'. rewrite Hx, tool_name_of. unfold js_or. rewrite Ht.
    now rewrite (dispatch_unregistered _ _ label Hr Hl).
  - intros Ht.
    destruct (executeTool_run toolCall func0 "unknown" w Hf) as (w' & _ & Hx).
    { rewrite tool_name_of. unfold js_or. now rewrite Ht. }
    exists w'. rewrite Hx, tool_name_of. unfold js_or. rewrite Ht.
    now rewrite (dispatch_unregistered (VStr "unknown") _ "unknown" eq_refl eq_refl).
Qed.

Lemma C8_witness :
  exists w',
    @Agent.executeTool Examples.offline Examples.foo_call
      (Examples.world (Examples.llm_settings (VStr "openai") (VStr "sk-test")) [])
    = (Ok (Ok (VObj [("error", VStr ("Unknown tool: " ^^ "foo"))])), w').
Proof.
  apply (C8_unknown_tool_is_a_value Examples.offline Examples.foo_call
           (VObj [("name", VStr "foo")]) "foo"
           (Examples.world (Examples.llm_settings (VStr "openai") (VStr "sk-test")) [])).
  - reflexivity.
  - reflexivity.
  - reflexivity.
  - reflexivity.
Defined.

(** C9 — When [toolCall.arguments] is a string that JSON.parse rejects,
    the parsed arguments are the empty object, and executeTool neither throws
    nor rejects: its handler runs on [{}]. *)
Theorem C9_malformed_arguments_fall_back :
  forall (E : Env) (toolCall : value) (s : string) (w : World),
    get_prop_opt toolCall "arguments" = VStr s ->
    JSON_parse s = None ->
    printable (called_name toolCall) ->
    Agent.tool_args toolCall = VObj [] /\
    exists v w', Agent.executeTool toolCall w = (Ok (Ok v), w').
Proof.
  intros E toolCall s w Ha Hp Hprint.
  assert (Hargs : Agent.tool_args toolCall = VObj []).
  { unfold Agent.tool_args. rewrite Ha, Hp. destruct (truthy (VStr s)); reflexivity. }
  split; auto.
  assert (Hf : get_prop toolCall "function" = Ok (get_prop_opt toolCall "function")).
  { apply get_prop_ok. destruct toolCall; cbn in Ha; try discriminate; reflexivity. }
  pose proof Hprint as (label & Hl).
  destruct (executeTool_run toolCall _ label w Hf Hl) as (w' & _ & Hx).
  rewrite Hargs in Hx.
  destruct (dispatch_without_arguments _ Hprint) as (v & Hv).
  exists v, w'. unfold called_name in Hv. now rewrite Hx, Hv.
Qed.

Lemma C9_witness :
  @Agent.tool_args Examples.offline Examples.malformed_call = VObj [] /\
  exists v w',
    @Agent.executeTool Examples.offline Examples.malformed_call
      (Examples.world (Examples.llm_settings (VStr "openai") (VStr "sk-test")) [])
    = (Ok (Ok v), w').
Proof.
  apply (C9_malformed_arguments_fall_back Examples.offline Examples.malformed_call
           "{not json"
           (Examples.world (Examples.llm_settings (VStr "openai") (VStr "sk-test")) [])).
  - reflexivity.
  - reflexivity.
  - exists "execute_code". reflexivity.
Defined.

(** What the malformed call settles to: the handler of execute_code saw no
    [code]. *)
Example malformed_call_settles :
  fst (@Agent.executeTool Examples.offline Examples.malformed_call
         (Examples.world (Examples.llm_settings (VStr "openai") (VStr "sk-test")) []))
    = Ok (Ok (VObj [("output", VStr "Simulated execution of: undefined")])).
Proof. reflexivity. Qed.

(* ===================================================================== *)
(** ** The turn-loop and the log                                         *)
(* ===================================================================== *)

Lemma bind_modify {B : Type} (f : World -> World) (k : unit -> M B) (w : World) :
  bind (modify f) k w = k tt (f w).
Proof. reflexivity. Qed.

Lemma bind_gets {A B : Type} (f : World -> A) (k : A -> M B) (w : World) :
  bind (gets f) k w = k (f w) w.
Proof. reflexivity. Qed.

Lemma bind_lift_ok {A B : Type} (a : A) (k : A -> M B) (w : World) :
  bind (lift (Ok a)) k w = k a w.
Proof. reflexivity. Qed.

Lemma displayed_note (role : string) (content m : value) :
  role <> "tool" -> displayed role content m -> note m.
Proof. intros Hr Hd. exists role, content. auto. Qed.

Lemma executeTool_grows `{Env} (Q : value -> Prop) (convId toolCall : value) :
  (forall m, note m -> Q m) ->
  preserves (grows Q convId) (Agent.executeTool toolCall).
Proof.
  intros HQ. unfold Agent.executeTool. pres.
  apply addMessage_grows. intros m Hd. apply HQ.
  eapply displayed_note; eauto. discriminate.
Qed.

Lemma push_message_grows `{Env} (Q : value -> Prop) (convId target m : value) :
  Q m -> preserves (grows Q convId) (Agent.push_message target m).
Proof. intros Hm. apply update_conversation_grows, appends_pushed, Hm. Qed.

Lemma set_apiCalls_grows (Q : value -> Prop) (convId : value) (n : Z) (w : World) :
  grows Q convId w (set_apiCalls n w).
Proof.
  repeat split. intros msgs Hc. exists []. rewrite app_nil_r. auto.
Qed.

Lemma run_tools_grows `{Env} (convId tool_calls : value) :
  preserves (grows (fun _ => True) convId) (Agent.run_tools convId tool_calls).
Proof.
  unfold Agent.run_tools, Agent.start_all, Agent.record_result. pres.
  - apply addMessage_grows. auto.
  - apply push_message_grows. auto.
  - apply executeTool_grows. auto.
  - apply push_message_grows. auto.
  - apply addMessage_grows. auto.
Qed.

Lemma handle_response_grows `{Env} (convId responseData : value) :
  preserves (grows (fun _ => True) convId) (Agent.handle_response convId responseData).
Proof.
  unfold Agent.handle_response. pres.
  - apply preserves_modify. intros w. apply set_apiCalls_grows.
  - apply addMessage_grows. auto.
  - apply run_tools_grows.
Qed.

Lemma iteration_body_grows `{Env} (convId : value) :
  preserves (grows (fun _ => True) convId) (Agent.iteration_body convId).
Proof.
  unfold Agent.iteration_body. pres.
  - eapply preserves_weaken; [|apply callLLM_only_trace].
    intros w w'. apply only_trace_grows.
  - apply handle_response_grows.
Qed.



(** *** An iteration that runs tools *)

Lemma run_and_grow {A : Type} (Q : value -> Prop) (convId : value) (m : M A)
    (w : World) (l : list value) :
  total m -> preserves (grows Q convId) m -> conv_has w convId l ->
  exists a w' extra,
    m w = (Ok a, w') /\ conv_has w' convId (l ++ extra) /\ Forall Q extra.
Proof.
  intros Ht Hp Hc. destruct (Ht w) as (a & w' & E).
  destruct (Hp _ _ _ E) as (_ & _ & _ & _ & G).
  destruct (G _ Hc) as (extra & Hc' & HQ). exists a, w', extra. auto.
Qed.

Lemma push_message_appends `{Env} (convId m : value) (w : World) (l : list value) :
  conv_has w convId l ->
  exists w', Agent.push_message convId m w = (Ok tt, w') /\ conv_has w' convId (l ++ [m]).
Proof.
  intros (props & Hget & Hm).
  unfold Agent.push_message, Agent.update_conversation. rewrite Hget.
  unfold pushed. cbn [get_prop rbind]. rewrite Hm. cbn [array_push rbind set_prop].
  eexists. split; [reflexivity|].
  exists (assign "messages" (VArr (l ++ [m])) props). split.
  - cbn [conversations set_conversations]. apply map_get_set_same.
    rewrite Hget. discriminate.
  - apply lookup_assign_same.
Qed.

Lemma note_filters (m : value) :
  note m ->
  is_placeholder m = false /\ is_tool_message m = false /\ is_tool_result m = false.
Proof.
  intros (role & content & (Hn & t0 & t1 & ->) & Hr).
  apply String.eqb_neq in Hr.
  assert (Ht : is_tool_message (Agent.new_message t0 role content t1) = false).
  { unfold is_tool_message. cbn. exact Hr. }
  repeat split; auto.
  - unfold is_placeholder. cbn.
    destruct content; try discriminate; apply andb_false_r.
  - unfold is_tool_result. now rewrite Ht.
Qed.

Lemma filter_notes (l : list value) :
  Forall note l ->
  filter is_placeholder l = [] /\ filter is_tool_message l = [] /\
  filter is_tool_result l = [].
Proof.
  induction 1 as [|m rest Hm Hrest (I1 & I2 & I3)]; [auto|].
  destruct (note_filters m Hm) as (F1 & F2 & F3).
  cbn [filter]. rewrite F1, F2, F3. auto.
Qed.

Lemma dispatchable_parts (tc : value) :
  dispatchable tc = true ->
  is_nullish tc = false /\ is_nullish (get_prop_opt tc "function") = false.
Proof.
  unfold dispatchable. intros Hd. apply andb_prop in Hd. destruct Hd as (A & B).
  split; now apply negb_true_iff.
Qed.

Lemma function_name_ok (tc : value) :
  dispatchable tc = true ->
  Agent.function_name tc = Ok (get_prop_opt (get_prop_opt tc "function") "name").
Proof.
  intros Hd. destruct (dispatchable_parts tc Hd) as (A & B).
  unfold Agent.function_name. rewrite (get_prop_ok tc) by assumption. cbn [rbind].
  now apply get_prop_ok.
Qed.

Lemma mapR_function_name (tcs : list value) :
  forallb dispatchable tcs = true ->
  mapR Agent.function_name tcs =
    Ok (map (fun tc => get_prop_opt (get_prop_opt tc "function") "name") tcs).
Proof.
  induction tcs as [|tc rest IH]; [reflexivity|].
  cbn [forallb]. intros Hd. apply andb_prop in Hd. destruct Hd as (A & B).
  cbn [mapR map]. rewrite (function_name_ok tc A). cbn [rbind].
  rewrite (IH B). reflexivity.
Qed.

Lemma mapR_Ok (l : list value) : mapR (@Ok value) l = Ok l.
Proof.
  induction l as [|x rest IH]; [reflexivity|]. cbn [mapR rbind]. now rewrite IH.
Qed.

Lemma tool_outcome_inv `{Env} (tc r : value) :
  dispatchable tc = true ->
  Agent.tool_outcome tc = Ok r ->
  printable (called_name tc) /\ settled tc = Ok r.
Proof.
  intros Hd Hr. destruct (dispatchable_parts tc Hd) as (A & _).
  unfold Agent.tool_outcome in Hr. rewrite (get_prop_ok tc) in Hr by assumption.
  cbn [rbind] in Hr. unfold called_name, settled, printable.
  destruct (ToString (Agent.tool_name (js_or (get_prop_opt tc "function") (VObj []))))
    as [label|e]; cbn [rbind] in Hr; [|discriminate].
  split; eauto.
Qed.

Lemma outcomes_printable `{Env} (tcs results : list value) :
  forallb dispatchable tcs = true ->
  mapR Agent.tool_outcome tcs = Ok results ->
  Forall (fun tc => printable (called_name tc)) tcs /\
  mapR settled tcs = Ok results.
Proof.
  revert results. induction tcs as [|tc rest IH]; intros results Hd Hr.
  - cbn in Hr. inversion Hr. split; [constructor|reflexivity].
  - cbn [forallb] in Hd. apply andb_prop in Hd. destruct Hd as (A & B).
    cbn [mapR] in Hr.
    destruct (Agent.tool_outcome tc) as [v|e] eqn:Ev; cbn [rbind] in Hr; [|discriminate].
    destruct (mapR Agent.tool_outcome rest) as [vs|e] eqn:Er; cbn [rbind] in Hr;
      [|discriminate].
    inversion Hr; subst.
    destruct (tool_outcome_inv tc v A Ev) as (Hp & Hs).
    destruct (IH vs B eq_refl) as (Hps & Hss).
    split; [constructor; auto|]. cbn [mapR]. rewrite Hs. cbn [rbind]. now rewrite Hss.
Qed.

Lemma join_elem_of_called (name : value) :
  printable (js_or name (VStr "unknown")) -> exists s, join_elem name = Ok s.
Proof.
  unfold js_or, printable.
  destruct name as [| |[|]|n|s|l|props]; cbn [truthy join_elem]; intros Hp;
    try exact Hp; cbn [ToString]; eauto.
Qed.

Lemma join_ok (sep : string) (l : list value) :
  Forall (fun v => exists s, join_elem v = Ok s) l -> exists s, join sep l = Ok s.
Proof.
  induction 1 as [|x rest (sx & Hx) Hrest (sr & IH)]; [cbn; eauto|].
  cbn [join]. rewrite Hx, IH. destruct rest; eauto.
Qed.

Lemma names_join `{Env} (sep : string) (tcs : list value) :
  Forall (fun tc => printable (called_name tc)) tcs ->
  exists s,
    join sep (map (fun tc => get_prop_opt (get_prop_opt tc "function") "name") tcs) = Ok s.
Proof.
  intros Hp. apply join_ok. apply Forall_map.
  eapply Forall_impl; [|exact Hp]. intros tc Hc. apply join_elem_of_called.
  unfold called_name in Hc. now rewrite tool_name_of in Hc.
Qed.

Lemma start_all_run `{Env} (convId : value) (tcs : list value) :
  forallb dispatchable tcs = true ->
  Forall (fun tc => printable (called_name tc)) tcs ->
  forall (w : World) (l : list value),
    conv_has w convId l ->
    exists w' extra,
      Agent.start_all tcs w = (Ok (map (fun tc => Ok (settled tc)) tcs), w') /\
      conv_has w' convId (l ++ extra) /\ Forall note extra.
Proof.
  induction tcs as [|tc rest IH]; intros Hd Hp w l Hc.
  - exists w, []. rewrite app_nil_r. repeat split; auto.
  - cbn [forallb] in Hd. apply andb_prop in Hd. destruct Hd as (A & B).
    inversion Hp as [|tc0 rest0 (label & Hl) Hps]; subst.
    destruct (dispatchable_parts tc A) as (Hn & _).
    destruct (executeTool_run tc (get_prop_opt tc "function") label w
                (get_prop_ok _ _ Hn) Hl)
      as (w1 & _ & Ex).
    destruct (executeTool_grows note convId tc (fun m Hm => Hm) _ _ _ Ex)
      as (_ & _ & _ & _ & G).
    destruct (G _ Hc) as (e1 & Hc1 & Q1).
    destruct (IH B Hps w1 (l ++ e1) Hc1) as (w2 & e2 & Es & Hc2 & Q2).
    exists w2, (e1 ++ e2). rewrite app_assoc. repeat split; auto.
    + unfold Agent.start_all in *. cbn [mapM map].
      unfold bind at 1. unfold Agent.promise_of at 1. rewrite Ex.
      unfold bind at 1. rewrite Es. reflexivity.
    + apply Forall_app; auto.
Qed.

Lemma promise_all_settled `{Env} (tcs results : list value) :
  mapR settled tcs = Ok results ->
  Agent.promise_all (map (fun tc => Ok (settled tc)) tcs) = Ok results.
Proof.
  intros Hr. unfold Agent.promise_all.
  assert (Hnone : Agent.first_rejected_at_call (map (fun tc => Ok (settled tc)) tcs) = None).
  { unfold Agent.first_rejected_at_call.
    assert (Hf : filter (fun p : result (result value) =>
                           match p with Throw _ => true | Ok _ => false end)
                   (map (fun tc => Ok (settled tc)) tcs) = []).
    { clear. induction tcs as [|tc rest IH]; [reflexivity|]. cbn [map filter]. exact IH. }
    now rewrite Hf. }
  rewrite Hnone. clear Hnone. revert results Hr.
  induction tcs as [|tc rest IH]; intros results Hr.
  - cbn in Hr. inversion Hr. reflexivity.
  - cbn [mapR] in Hr.
    cbn [map Agent.fulfilled]. destruct (settled tc) as [v|e]; cbn [rbind] in Hr;
      [|discriminate].
    destruct (mapR settled rest) as [vs|e] eqn:Er; cbn [rbind] in Hr;
      [|discriminate].
    inversion Hr; subst. rewrite (IH vs eq_refl). reflexivity.
Qed.

Lemma dispatch_object `{Env} (name args r : value) :
  Agent.dispatch name args = Ok r -> exists props, r = VObj props.
Proof.
  unfold Agent.dispatch, Agent.executeWebSearch, Agent.executeCode, Agent.processFile,
    Agent.createVisualization.
  repeat match goal with
         | |- context [if ?b then _ else _] => destruct b
         end;
    intros E;
    repeat match type of E with
           | context [rbind ?x _] => destruct x; cbn [rbind] in E
           end;
    inversion E; eauto.
Qed.

Lemma outcomes_are_objects `{Env} (tcs results : list value) :
  mapR settled tcs = Ok results ->
  Forall (fun r => exists props, r = VObj props) results.
Proof.
  revert results. induction tcs as [|tc rest IH]; intros results Hr.
  - cbn in Hr. inversion Hr. constructor.
  - cbn [mapR] in Hr.
    destruct (settled tc) as [v|e] eqn:Ev; cbn [rbind] in Hr; [|discriminate].
    destruct (mapR settled rest) as [vs|e] eqn:Er; cbn [rbind] in Hr;
      [|discriminate].
    inversion Hr; subst. constructor; auto.
    eapply dispatch_object; eauto.
Qed.

Lemma outcomes_length `{Env} (tcs results : list value) :
  mapR settled tcs = Ok results -> List.length results = List.length tcs.
Proof.
  revert results. induction tcs as [|tc rest IH]; intros results Hr.
  - cbn in Hr. inversion Hr. reflexivity.
  - cbn [mapR] in Hr.
    destruct (settled tc) as [v|e]; cbn [rbind] in Hr; [|discriminate].
    destruct (mapR settled rest) as [vs|e] eqn:Er; cbn [rbind] in Hr;
      [|discriminate].
    inversion Hr; subst. cbn [List.length]. now rewrite (IH vs eq_refl).
Qed.

Lemma skipn_cons_nth (d : value) (l : list value) (i : nat) :
  i < List.length l -> skipn i l = nth i l d :: skipn (S i) l.
Proof.
  revert i. induction l as [|x rest IH]; intros i Hi; cbn [List.length] in Hi.
  - lia.
  - destruct i as [|i]; [reflexivity|]. cbn [skipn nth]. apply IH. lia.
Qed.

Lemma conv_has_same_store (w w' : World) (convId : value) (l : list value) :
  conversations w' = conversations w -> conv_has w convId l -> conv_has w' convId l.
Proof. unfold conv_has. now intros ->. Qed.

Lemma stringified_object `{Env} (r : value) :
  (forall props, JSON_stringify (VObj props) <> None) ->
  (exists props, r = VObj props) ->
  is_nullish (stringify_value r) = false.
Proof.
  intros Hj (props & ->). unfold stringify_value.
  destruct (JSON_stringify (VObj props)) eqn:Es; [reflexivity|].
  now apply Hj in Es.
Qed.

(** The forEach over the tool results: for each result, in order, the
    tagged tool message and then the copy addMessage makes for display. *)
Lemma record_results_run `{Env} (convId : value) (tcs : list value) :
  (forall props, JSON_stringify (VObj props) <> None) ->
  truthy convId = true ->
  forallb dispatchable tcs = true ->
  forall (results : list value) (i : nat) (w : World) (l : list value),
    Forall (fun r => exists props, r = VObj props) results ->
    i + List.length results <= List.length tcs ->
    conv_has w convId l ->
    exists w' gained,
      Agent.forEach_from (Agent.record_result convId (VArr tcs)) i results w = (Ok tt, w') /\
      conv_has w' convId (l ++ gained) /\
      filter is_placeholder gained = [] /\
      filter is_tool_result gained =
        map (fun p => tool_result_message (fst p) (snd p)) (combine (skipn i tcs) results) /\
      List.length (filter is_tool_message gained) = 2 * List.length results /\
      recorded (combine (skipn i tcs) results) gained.
Proof.
  intros Hj Ht Hd. induction results as [|r rs IH]; intros i w l Hobj Hlen Hc.
  - exists w, []. rewrite app_nil_r.
    split; [reflexivity|]. split; [exact Hc|]. split; [reflexivity|].
    destruct (skipn i tcs); repeat split; reflexivity.
  - cbn [List.length] in Hlen.
    assert (Hi : i < List.length tcs) by lia.
    set (tc := nth i tcs VUndef).
    assert (Htc : dispatchable tc = true).
    { eapply forallb_forall; [exact Hd|]. apply nth_In. exact Hi. }
    destruct (dispatchable_parts tc Htc) as (Hn & Hf).
    inversion Hobj as [|r0 rs0 Hr Hrs]; subst.
    pose proof (stringified_object r Hj Hr) as Hs.
    destruct (push_message_appends convId (tool_result_message tc r) w l Hc)
      as (w1 & Ep & Hc1).
    destruct (addMessage_appends "tool" (stringify_value r) convId w1 _ Ht Hs Hc1)
      as (w2 & d & Ea & Hdisp & Hc2).
    assert (Estep : Agent.record_result convId (VArr tcs) r i w = (Ok tt, w2)).
    { unfold Agent.record_result. cbn [get_index]. fold tc. rewrite bind_lift_ok.
      rewrite (get_prop_ok tc "id" Hn), bind_lift_ok.
      rewrite (get_prop_ok tc "function" Hn), bind_lift_ok.
      rewrite (get_prop_ok _ "name" Hf), bind_lift_ok.
      change (VObj [("role", VStr "tool"); ("tool_call_id", get_prop_opt tc "id");
                    ("name", get_prop_opt (get_prop_opt tc "function") "name");
                    ("content", stringify_value r)])
        with (tool_result_message tc r).
      rewrite (bind_ok _ _ _ _ _ Ep). exact Ea. }
    destruct (IH (S i) w2 _ Hrs ltac:(lia) Hc2)
      as (w3 & rest & Ef & Hc3 & F1 & F2 & F3 & F4).
    exists w3, (tool_result_message tc r :: d :: rest).
    pose proof Hdisp as Hcopy.
    destruct Hdisp as (_ & t0 & t1 & ->).
    split; [|split; [|split; [|split; [|split]]]].
    + cbn [Agent.forEach_from]. rewrite (bind_ok _ _ _ _ _ Estep). exact Ef.
    + rewrite <- !app_assoc in Hc3. exact Hc3.
    + cbn [filter].
      change (is_placeholder (tool_result_message tc r)) with false.
      change (is_placeholder (Agent.new_message t0 "tool" (stringify_value r) t1)) with false.
      exact F1.
    + cbn [filter].
      change (is_tool_result (tool_result_message tc r)) with true.
      change (is_tool_result (Agent.new_message t0 "tool" (stringify_value r) t1)) with false.
      rewrite F2, (skipn_cons_nth VUndef tcs i Hi). reflexivity.
    + cbn [filter].
      change (is_tool_message (tool_result_message tc r)) with true.
      change (is_tool_message (Agent.new_message t0 "tool" (stringify_value r) t1)) with true.
      cbn [List.length]. rewrite F3. lia.
    + rewrite (skipn_cons_nth VUndef tcs i Hi). cbn [combine recorded]. fold tc.
      split; [reflexivity|]. split; [exact Hcopy | exact F4].
Qed.

Lemma placeholder_filters (tool_calls : value) :
  is_placeholder (placeholder_message tool_calls) = true /\
  is_tool_message (placeholder_message tool_calls) = false /\
  is_tool_result (placeholder_message tool_calls) = false.
Proof. repeat split; reflexivity. Qed.

(** C2 (amended) — In an iteration whose parsed response carries N >= 1
    tool calls, none of which fails in dispatch, the log gains, before the
    iteration ends and any further provider call is made, exactly one
    placeholder assistant message (content null, carrying the raw
    tool_calls) and exactly 2N tool-role messages: for each call, in request
    order, one message tagged with the call's id and function name,
    immediately followed by the untagged copy addMessage makes of the same
    content.  These 2N messages are the end of what the log gains; what it
    gains before them (the placeholder and the notices of addMessage) holds no
    tool-role message. *)
Theorem C2_tool_iteration_log :
  forall (E : Env) (convId : value) (w w1 : World) (msgs : list value)
         (data llm provider response : value) (tcs results : list value),
    (forall props, JSON_stringify (VObj props) <> None) ->
    truthy convId = true ->
    conv_has w convId msgs ->
    Agent.callLLM (map_get (conversations w) convId) w = (Ok data, w1) ->
    get_prop (settings w) "llm" = Ok llm ->
    get_prop llm "provider" = Ok provider ->
    Agent.parseAPIResponse data provider = Ok response ->
    get_prop_opt response "tool_calls" = VArr tcs ->
    tcs <> [] ->
    forallb dispatchable tcs = true ->
    mapR Agent.tool_outcome tcs = Ok results ->
    exists w' before block,
      Agent.iteration convId w = (Ok true, w') /\
      provider_calls (trace w') = provider_calls (trace w) + 1 /\
      conv_has w' convId (msgs ++ before ++ block) /\
      filter is_placeholder (before ++ block) = [placeholder_message (VArr tcs)] /\
      filter is_tool_result (before ++ block) =
        map (fun p => tool_result_message (fst p) (snd p)) (combine tcs results) /\
      List.length (filter is_tool_message (before ++ block)) = 2 * List.length tcs /\
      filter is_tool_message before = [] /\
      recorded (combine tcs results) block.
Proof.
  intros E convId w w1 msgs data llm provider response tcs results
         Hj Ht Hc Hcall Hllm Hprov Hparse Htcs Hne Hd Hres.
  (* the provider call leaves everything but the trace *)
  pose proof (callLLM_only_trace _ _ _ _ Hcall) as Hot.
  assert (Hst1 : settings w1 = settings w) by (rewrite Hot; reflexivity).
  assert (Hc1 : conv_has w1 convId msgs).
  { eapply conv_has_same_store; [|exact Hc]. rewrite Hot. reflexivity. }
  assert (Hresp : truthy response = true).
  { destruct response; cbn in Htcs; try discriminate; reflexivity. }
  assert (Hhas : Agent.has_tool_calls response = Ok true).
  { unfold Agent.has_tool_calls. rewrite Hresp, Htcs. cbn.
    destruct tcs; [congruence|]. reflexivity. }
  destruct (outcomes_printable tcs results Hd Hres) as (Hprint & Hset).
  destruct (names_join ", " tcs Hprint) as (list & Hlist).
  (* the text of the response, when there is one *)
  set (say := if truthy response && truthy (get_prop_opt response "content")
              then Agent.addMessage "assistant" (get_prop_opt response "content") convId
              else ret tt).
  set (w1a := set_apiCalls (apiCalls w1 + 1)%Z w1).
  destruct (run_and_grow note convId say w1a msgs) as ([] & w2 & pre & E2 & Hc2 & Qpre).
  { unfold say. destruct (_ && _); [apply addMessage_total | apply total_ret]. }
  { unfold say. destruct (_ && _).
    - apply addMessage_grows. intros m Hm. eapply displayed_note; eauto. discriminate.
    - apply preserves_ret, grows_refl. }
  { eapply conv_has_same_store; [|exact Hc1]. reflexivity. }
  (* the notice, the placeholder, the calls, the results *)
  destruct (run_and_grow note convId
              (Agent.addMessage "assistant" (VStr ("Using tools: " ^^ list)) convId)
              w2 (msgs ++ pre))
    as ([] & w3 & us & E3 & Hc3 & Qus).
  { apply addMessage_total. }
  { apply addMessage_grows. intros m Hm. eapply displayed_note; eauto. discriminate. }
  { exact Hc2. }
  destruct (push_message_appends convId (placeholder_message (VArr tcs)) w3 _ Hc3)
    as (w4 & E4 & Hc4).
  destruct (start_all_run convId tcs Hd Hprint w4 _ Hc4)
    as (w5 & notes & E5 & Hc5 & Qnotes).
  pose proof (promise_all_settled tcs results Hset) as Hall.
  destruct (record_results_run convId tcs Hj Ht Hd results 0 w5 _
              (outcomes_are_objects tcs results Hset)
              ltac:(rewrite (outcomes_length tcs results Hset); cbn; lia) Hc5)
    as (w6 & tools & E6 & Hc6 & T1 & T2 & T3 & T4).
  assert (Erun : Agent.run_tools convId (VArr tcs) w2 = (Ok tt, w6)).
  { unfold Agent.run_tools. cbn [array_map].
    rewrite (mapR_function_name tcs Hd), bind_lift_ok.
    rewrite Hlist, bind_lift_ok.
    rewrite (bind_ok _ _ _ _ _ E3).
    change (VObj [("role", VStr "assistant"); ("content", VNull); ("tool_calls", VArr tcs)])
      with (placeholder_message (VArr tcs)).
    rewrite (bind_ok _ _ _ _ _ E4).
    rewrite mapR_Ok, bind_lift_ok.
    rewrite (bind_ok _ _ _ _ _ E5). rewrite Hall, bind_lift_ok. exact E6. }
  assert (Ebody : Agent.iteration_body convId w = (Ok true, w6)).
  { unfold Agent.iteration_body. rewrite bind_gets, (bind_ok _ _ _ _ _ Hcall).
    unfold Agent.handle_response. rewrite bind_modify, bind_gets.
    fold w1a. change (settings w1a) with (settings w1). rewrite Hst1, Hllm, bind_lift_ok.
    rewrite Hprov, bind_lift_ok, Hparse, bind_lift_ok.
    fold say. rewrite (bind_ok _ _ _ _ _ E2), Hhas, bind_lift_ok, Htcs.
    rewrite (bind_ok _ _ _ _ _ Erun). reflexivity. }
  assert (Eit : Agent.iteration convId w = (Ok true, w6)).
  { unfold Agent.iteration, try_catch. now rewrite Ebody. }
  destruct (filter_notes pre Qpre) as (P1 & P2 & P3).
  destruct (filter_notes us Qus) as (U1 & U2 & U3).
  destruct (filter_notes notes Qnotes) as (N1 & N2 & N3).
  destruct (placeholder_filters (VArr tcs)) as (H1 & H2 & H3).
  exists w6, (pre ++ us ++ [placeholder_message (VArr tcs)] ++ notes), tools.
  split; [|split; [|split; [|split; [|split; [|split; [|split]]]]]].
  - exact Eit.
  - exact (iteration_calls convId _ _ _ Eit).
  - rewrite !app_assoc. exact Hc6.
  - rewrite !filter_app, P1, U1, N1, T1. cbn [filter app]. now rewrite H1.
  - rewrite !filter_app, P3, U3, N3, T2. cbn [filter app]. now rewrite H3.
  - rewrite !filter_app, P2, U2, N2. cbn [filter app]. rewrite H2. cbn [app].
    rewrite T3, (outcomes_length tcs results Hset). reflexivity.
  - rewrite !filter_app, P2, U2, N2. cbn [filter app]. now rewrite H2.
  - exact T4.
Qed.

Lemma C2_witness :
  exists w' before block,
    @Agent.iteration Examples.always_tools (VStr "conv_1")
      (Examples.world (Examples.llm_settings (VStr "openai") (VStr "sk-test"))
         [Examples.user_message]) = (Ok true, w') /\
    provider_calls (trace w') = 0 + 1 /\
    conv_has w' (VStr "conv_1") ([Examples.user_message] ++ before ++ block) /\
    filter is_placeholder (before ++ block)
    = [placeholder_message (VArr [Examples.search_call])] /\
    filter is_tool_result (before ++ block) =
      [@tool_result_message Examples.always_tools Examples.search_call Examples.search_result] /\
    List.length (filter is_tool_message (before ++ block)) = 2 /\
    filter is_tool_message before = [] /\
    @recorded Examples.always_tools [(Examples.search_call, Examples.search_result)] block.
Proof.
  apply (C2_tool_iteration_log Examples.always_tools (VStr "conv_1")
           (Examples.world (Examples.llm_settings (VStr "openai") (VStr "sk-test"))
              [Examples.user_message])
           (snd (@Agent.callLLM Examples.always_tools
                   (Examples.conversation [Examples.user_message])
                   (Examples.world (Examples.llm_settings (VStr "openai") (VStr "sk-test"))
                      [Examples.user_message])))
           [Examples.user_message] Examples.tool_answer
           (VObj [("provider", VStr "openai"); ("apiKey", VStr "sk-test");
                  ("model", VStr "default"); ("maxTokens", VNum 2000)])
           (VStr "openai") Examples.tool_request
           [Examples.search_call] [Examples.search_result]).
  - intros props. cbn. discriminate.
  - reflexivity.
  - exists [("id", VStr "conv_1"); ("title", VStr "hello");
            ("messages", VArr [Examples.user_message]);
            ("createdAt", VNum 1); ("updatedAt", VNum 1); ("preview", VStr "hello")].
    split; reflexivity.
  - vm_compute. reflexivity.
  - reflexivity.
  - reflexivity.
  - reflexivity.
  - reflexivity.
  - discriminate.
  - reflexivity.
  - reflexivity.
Defined.

(** One tool call, two tool-role messages: the log of the iteration holds
    the tagged result and the copy addMessage pushed, which has no
    tool_call_id. *)
Lemma C2_counterexample :
  let w := Examples.world (Examples.llm_settings (VStr "openai") (VStr "sk-test"))
             [Examples.user_message] in
  let log := messages_of
               (map_get
                  (conversations (snd (@Agent.iteration Examples.always_tools (VStr "conv_1") w)))
                  (VStr "conv_1")) in
  firstn 1 log = [Examples.user_message] /\
  List.length (filter is_tool_message (skipn 1 log)) = 2 /\
  ~ gains_as_worded [Examples.search_call] (skipn 1 log).
Proof.
  cbv zeta. split; [vm_compute; reflexivity|]. split; [vm_compute; reflexivity|].
  intros (_ & H2 & _). vm_compute in H2. discriminate.
Qed.

(* ===================================================================== *)
(** ** The conversation store                                            *)
(* ===================================================================== *)

Lemma assign_same (k : string) (v : value) (props : list (string * value)) :
  lookup k props = v -> v <> VUndef -> assign k v props = props.
Proof.
  intros Hl Hv. induction props as [|[k' v'] rest IH]; cbn in *.
  - congruence.
  - destruct (k =? k')%string eqn:Ek.
    + apply String.eqb_eq in Ek. now subst.
    + now rewrite IH.
Qed.

Lemma truthy_defined (v : value) : truthy v = true -> v <> VUndef.
Proof. intros Ht ->. discriminate. Qed.

Lemma set_conversations_same (w : World) : set_conversations (conversations w) w = w.
Proof. destruct w. reflexivity. Qed.

Lemma restore_defaults_id `{Env} (conv : value) (w : World) :
  stored_shape conv -> Agent.restore_defaults conv w = (Ok conv, w).
Proof.
  intros (props & t & -> & Hu & Ht & msgs & Harr). unfold Agent.restore_defaults.
  assert (Hm : truthy (lookup "messages" props) = true) by now rewrite Harr.
  assert (Htr : truthy (lookup "updatedAt" props) = true).
  { rewrite Hu. cbn. apply negb_true_iff, Z.eqb_neq, Ht. }
  cbn [get_prop]. rewrite !bind_lift_ok, Htr.
  unfold bind at 1. cbn [ret]. cbn [set_prop].
  rewrite (assign_same "updatedAt" _ props eq_refl (truthy_defined _ Htr)).
  rewrite bind_lift_ok. cbn [get_prop]. rewrite bind_lift_ok.
  unfold js_or. rewrite Hm. cbn [set_prop].
  rewrite (assign_same "messages" _ props eq_refl (truthy_defined _ Hm)).
  reflexivity.
Qed.

Lemma restore_from_id `{Env} (todo : JsMap) :
  Forall (fun kv => stored_shape (snd kv)) todo ->
  forall (done : JsMap) (w : World),
    conversations w = done ++ todo ->
    Agent.restore_from done todo w = (Ok tt, w).
Proof.
  induction 1 as [|[k conv] rest Hc Hrest IH]; intros done w Hw.
  - reflexivity.
  - cbn [Agent.restore_from]. cbn [snd] in Hc.
    rewrite (bind_ok _ _ _ _ _ (restore_defaults_id conv w Hc)).
    rewrite bind_modify, <- Hw, set_conversations_same.
    apply IH. now rewrite <- app_assoc.
Qed.

Lemma entry_pairs_of_entries (m : JsMap) :
  mapR Agent.entry_pair (map (fun kv => VArr [fst kv; snd kv]) m) = Ok m.
Proof.
  induction m as [|[k v] rest IH]; [reflexivity|].
  cbn [map mapR Agent.entry_pair nth fst snd rbind]. now rewrite IH.
Qed.

Lemma map_set_fresh (acc : JsMap) (k v : value) :
  Forall (fun kv => same_key (fst kv) k = false) acc ->
  map_set acc k v = acc ++ [(k, v)].
Proof.
  induction 1 as [|[k' v'] rest Hk Hrest IH]; [reflexivity|].
  cbn [map_set app]. cbn [fst] in Hk. now rewrite Hk, IH.
Qed.

Lemma distinct_keys_before (a r : JsMap) (k v : value) :
  distinct_keys (a ++ (k, v) :: r) ->
  Forall (fun kv => same_key (fst kv) k = false) a.
Proof.
  induction a as [|[k' v'] rest IH]; [constructor|].
  cbn [app distinct_keys]. intros (Hall & Hd). constructor.
  - apply Forall_app in Hall. destruct Hall as (_ & Hk).
    inversion Hk; subst. assumption.
  - apply IH. exact Hd.
Qed.

Lemma map_of_pairs_distinct (m : JsMap) : distinct_keys m -> map_of_pairs m = m.
Proof.
  unfold map_of_pairs.
  assert (G : forall pairs acc,
             distinct_keys (acc ++ pairs) ->
             fold_left (fun m kv => map_set m (fst kv) (snd kv)) pairs acc = acc ++ pairs).
  { induction pairs as [|[k v] rest IH]; intros acc Hd.
    - now rewrite app_nil_r.
    - cbn [fold_left fst snd].
      rewrite (map_set_fresh acc k v (distinct_keys_before _ _ _ _ Hd)).
      rewrite IH; rewrite <- app_assoc; auto. }
  intros Hd. apply (G m []). exact Hd.
Qed.

Lemma by_updatedAt_ok `{Env} (a b : value) :
  stored_shape a -> stored_shape b -> exists c, Agent.by_updatedAt a b = Ok c.
Proof.
  intros (pa & ta & -> & Ha & _ & _) (pb & tb & -> & Hb & _ & _).
  unfold Agent.by_updatedAt, get_prop_opt. cbn [get_prop]. rewrite Ha, Hb.
  cbn [ToPrimitive rbind]. eauto.
Qed.

Lemma insert_sorted_run (cmp : value -> value -> result Z) (x : value) (l : list value) :
  (forall y, In y l -> exists c, cmp x y = Ok c) ->
  exists l',
    Agent.insert_sorted cmp x l = Ok l' /\ l' <> [] /\
    forall y, In y l' -> y = x \/ In y l.
Proof.
  induction l as [|z rest IH]; intros Hcmp; cbn [Agent.insert_sorted].
  - exists [x]. repeat split; [discriminate|]. intros y [->|[]]. now left.
  - destruct (Hcmp z (or_introl eq_refl)) as (c & Hc). rewrite Hc. cbn [rbind].
    destruct (c <=? 0)%Z.
    + exists (x :: z :: rest). repeat split; [discriminate|].
      intros y [->|Hin]; auto.
    + destruct IH as (l' & El & _ & Hin).
      { intros y Hy. apply Hcmp. now right. }
      rewrite El. cbn [rbind]. exists (z :: l'). repeat split; [discriminate|].
      intros y [->|Hy]; [right; now left|].
      destruct (Hin y Hy); auto. right. now right.
Qed.

Lemma sort_by_run (cmp : value -> value -> result Z) (l : list value) :
  (forall x y, In x l -> In y l -> exists c, cmp x y = Ok c) ->
  exists l',
    Agent.sort_by cmp l = Ok l' /\ (l <> [] -> l' <> []) /\
    forall y, In y l' -> In y l.
Proof.
  induction l as [|x rest IH]; intros Hcmp; cbn [Agent.sort_by].
  - exists []. repeat split; auto.
  - destruct IH as (sorted & Es & _ & Hin).
    { intros a b Ha Hb. apply Hcmp; now right. }
    rewrite Es. cbn [rbind].
    destruct (insert_sorted_run cmp x sorted) as (l' & El & Hne & Hin').
    { intros y Hy. apply Hcmp; [now left|]. right. auto. }
    exists l'. repeat split; auto.
    intros y Hy. destruct (Hin' y Hy) as [->|Hs]; [now left|]. right. auto.
Qed.

Lemma map_get_found (m : JsMap) (k : value) :
  map_get m k = VUndef \/ In (map_get m k) (map snd m).
Proof.
  induction m as [|[k' v] rest IH]; cbn [map_get map snd]; [now left|].
  destruct (same_key k' k); [right; now left|].
  destruct IH as [IH|IH]; [now left | right; now right].
Qed.

(** Loading a conversation of a store of well-formed conversations shows
    its log and fails nowhere; so does loading an id the store does not
    have. *)
Lemma loadConversation_keeps_store `{Env} (id : value) (w : World) :
  Forall (fun kv => stored_shape (snd kv)) (conversations w) ->
  Agent.loadConversation id w
  = (Ok tt, if truthy id then set_currentConversationId id w else w).
Proof.
  intros Hshape. destruct (map_get_found (conversations w) id) as [Hu|Hin].
  - now apply loadConversation_missing.
  - apply in_map_iff in Hin. destruct Hin as (kv & Hkv & Hin).
    eapply Forall_forall in Hshape; [|exact Hin].
    destruct Hshape as (props & t & Hp & _ & _ & msgs & Hm).
    rewrite Hkv in Hp. eapply loadConversation_array; eauto.
Qed.




(** A whole turn with tool calls, saved and read back after a reload: the
    placeholder with its null content and raw tool_calls, the tool results
    and every timestamp come back as they were. *)
Example turn_saved_and_reloaded :
  let after := snd (@Agent.sendMessage Examples.always_tools (Some "hello")
                      (Examples.world (Examples.llm_settings (VStr "openai") (VStr "sk-test")) [])) in
  let back := snd (@Agent.loadConversationHistory Examples.always_tools (Examples.reloaded after)) in
  conversations back = conversations after /\ List.length (conversations back) = 1.
Proof. vm_compute. split; reflexivity. Qed.

(* ===================================================================== *)
(** ** The model on the examples of the specification                    *)
(* ===================================================================== *)

(** parseAPIResponse on a chat-completions answer. *)
Example parse_chat_completion :
  @Agent.parseAPIResponse Examples.offline
    (VObj [("choices", VArr [VObj [("message", VObj [("content", VStr "hi")])]])])
    (VStr "openai")
  = Ok (VObj [("content", VStr "hi")]).
Proof. reflexivity. Qed.

(** One turn answered with text only: the log of an empty conversation
    becomes the user message followed by the assistant message. *)
Example text_only_turn :
  let after := snd (@Agent.sendMessage Examples.offline (Some "  hello ")
                      (Examples.world (Examples.llm_settings (VStr "openai") (VStr "")) [])) in
  map (fun m => (get_prop_opt m "role", get_prop_opt m "content"))
    (messages_of (map_get (conversations after) (VStr "conv_1")))
  = [(VStr "user", VStr "hello");
     (VStr "assistant",
      VStr "Demo response: provide an API key in settings to use real models.")]
  /\ isProcessing after = false.
Proof. vm_compute. split; reflexivity. Qed.

(** A network failure in the first iteration: one provider call, one
    system note, and the turn is over. *)
Example failed_turn :
  let after := snd (@Agent.sendMessage Examples.offline (Some "hello")
                      (Examples.world (Examples.llm_settings (VStr "openai") (VStr "sk-test")) [])) in
  map (fun m => (get_prop_opt m "role", get_prop_opt m "content"))
    (messages_of (map_get (conversations after) (VStr "conv_1")))
  = [(VStr "user", VStr "hello");
     (VStr "system", VStr "Agent iteration error: Failed to fetch")]
  /\ provider_calls (trace after) = 1.
Proof. vm_compute. split; reflexivity. Qed.

(* ===================================================================== *)
(** ** A turn as a whole                                                 *)
(* ===================================================================== *)

Lemma silent_refl (w : World) : silent w w.
Proof. repeat split. Qed.

Lemma silent_trans (a b c : World) : silent a b -> silent b c -> silent a c.
Proof. unfold silent. intros (T1 & S1 & A1) (T2 & S2 & A2). repeat split; congruence. Qed.

#[local] Hint Resolve silent_refl silent_trans : rel.

Lemma now_silent `{Env} : preserves silent now.
Proof. intros w r w' E. inversion E; subst. repeat split. Qed.

Lemma update_conversation_silent `{Env} (k : value) (f : value -> result value) :
  preserves silent (Agent.update_conversation k f).
Proof.
  intros w r w' E. unfold Agent.update_conversation in E.
  destruct (f _); inversion E; subst; repeat split.
Qed.

#[local] Hint Resolve now_silent update_conversation_silent : pres.

Lemma addMessage_silent `{Env} (role : string) (content target : value) :
  preserves silent (Agent.addMessage role content target).
Proof.
  unfold Agent.addMessage, Agent.addMessage_body, Agent.push_message,
    Agent.touch_conversation. pres.
Qed.

Lemma loadConversation_silent `{Env} (id : value) :
  preserves silent (Agent.loadConversation id).
Proof.
  unfold Agent.loadConversation. pres. apply preserves_modify. intros w. repeat split.
Qed.

#[local] Hint Resolve addMessage_silent loadConversation_silent : pres.

Lemma createNewConversation_silent `{Env} : preserves silent Agent.createNewConversation.
Proof.
  unfold Agent.createNewConversation. pres. apply preserves_modify. intros w. repeat split.
Qed.

Lemma saveCurrentConversation_silent `{Env} : preserves silent Agent.saveCurrentConversation.
Proof.
  unfold Agent.saveCurrentConversation. pres. apply preserves_modify. intros w. repeat split.
Qed.

#[local] Hint Resolve createNewConversation_silent saveCurrentConversation_silent : pres.

Lemma executeTool_silent `{Env} (toolCall : value) :
  preserves silent (Agent.executeTool toolCall).
Proof. unfold Agent.executeTool. pres. Qed.

#[local] Hint Resolve executeTool_silent : pres.

Lemma run_tools_silent `{Env} (conversationId tool_calls : value) :
  preserves silent (Agent.run_tools conversationId tool_calls).
Proof.
  unfold Agent.run_tools, Agent.start_all, Agent.record_result, Agent.push_message. pres.
Qed.

Lemma preserves_both {A : Type} (P Q : World -> World -> Prop) (m : M A) :
  preserves P m -> preserves Q m -> preserves (fun w w' => P w w' /\ Q w w') m.
Proof. intros HP HQ w r w' E. split; [eapply HP | eapply HQ]; eauto. Qed.

(** What holds of every step of a turn holds of the turn: a relation that
    the silent steps and the body of an iteration respect is respected by
    the iteration with its catch clause, by the loop and by sendMessage. *)
Section Turn.
Context `{Env}.
Variable P : World -> World -> Prop.
Hypothesis P_refl : forall w, P w w.
Hypothesis P_trans : forall a b c, P a b -> P b c -> P a c.
Hypothesis P_silent : forall w w', silent w w' -> P w w'.
Hypothesis P_body : forall convId, preserves P (Agent.iteration_body convId).

Lemma silent_step {A : Type} (m : M A) : preserves silent m -> preserves P m.
Proof. apply preserves_weaken. exact P_silent. Qed.

Lemma iteration_turn (convId : value) : preserves P (Agent.iteration convId).
Proof.
  unfold Agent.iteration. apply preserves_try_catch; auto.
  intros e. apply preserves_bind; auto.
  - apply silent_step, addMessage_silent.
  - intros _. apply preserves_ret, P_refl.
Qed.

Lemma turns_turn (maxTurns : nat) (convId : value) :
  preserves P (Agent.turns maxTurns convId).
Proof.
  induction maxTurns as [|n IH]; simpl.
  - apply preserves_ret, P_refl.
  - apply preserves_bind; auto; [apply iteration_turn|].
    intros [|]; [apply IH | apply preserves_ret, P_refl].
Qed.

Lemma agentLoop_turn (convId : value) : preserves P (Agent.agentLoop convId).
Proof.
  unfold Agent.agentLoop. apply preserves_bind; auto; [apply preserves_gets, P_refl|].
  intros c. destruct (negb (truthy c)); [apply preserves_ret, P_refl | apply turns_turn].
Qed.

Lemma sendMessage_turn (userInput : option string) :
  preserves P (Agent.sendMessage userInput).
Proof.
  unfold Agent.sendMessage.
  apply preserves_bind; auto; [apply preserves_gets, P_refl|]. intros processing.
  destruct (_ || _); [apply preserves_ret, P_refl|].
  apply preserves_bind; auto.
  { apply preserves_modify. intros w. apply P_silent. repeat split. }
  intros _. apply preserves_bind; auto; [apply preserves_gets, P_refl|]. intros current.
  apply preserves_bind; auto.
  { destruct (truthy current);
      [apply preserves_ret, P_refl | apply silent_step, createNewConversation_silent]. }
  intros convId. apply preserves_bind; auto; [apply silent_step, addMessage_silent|].
  intros _. apply preserves_try_finally; auto.
  - apply preserves_try_catch; auto; [apply agentLoop_turn|].
    intros e. apply silent_step, addMessage_silent.
  - apply preserves_bind; auto.
    + apply preserves_modify. intros w. apply P_silent. repeat split.
    + intros _. apply silent_step, saveCurrentConversation_silent.
Qed.

End Turn.

(** *** The settings and the network *)

Lemma handle_response_same_settings `{Env} (convId responseData : value) :
  preserves same_settings (Agent.handle_response convId responseData).
Proof.
  eapply preserves_weaken; [|apply (handle_response_grows convId)].
  intros w w' (S & _). exact S.
Qed.

Lemma iteration_body_same_settings `{Env} (convId : value) :
  preserves same_settings (Agent.iteration_body convId).
Proof.
  eapply preserves_weaken; [|apply (iteration_body_grows convId)].
  intros w w' (S & _). exact S.
Qed.

Lemma sendMessage_same_settings `{Env} (userInput : option string) :
  preserves same_settings (Agent.sendMessage userInput).
Proof.
  apply sendMessage_turn.
  - reflexivity.
  - unfold same_settings. congruence.
  - intros w w' (_ & S & _). exact S.
  - apply iteration_body_same_settings.
Qed.

Lemma call_with_keyless `{Env} (llm : value) (msgs : list value) (w : World)
    (r : result value) (w' : World) :
  truthy (get_prop_opt llm "apiKey") = false ->
  call_with llm msgs w = (r, w') -> w' = w.
Proof.
  intros Hk. unfold call_with. rewrite Hk.
  destruct (truthy (get_prop_opt llm "provider")); cbn [negb];
    intros E; inversion E; reflexivity.
Qed.

Lemma get_prop_value (v x : value) (k : string) :
  get_prop v k = Ok x -> x = get_prop_opt v k.
Proof. unfold get_prop_opt. now intros ->. Qed.

Lemma callLLM_offline `{Env} (conversation : value) :
  preserves offline_without_key (Agent.callLLM conversation).
Proof.
  intros w r w' E. split.
  - apply callLLM_only_trace in E. rewrite E. reflexivity.
  - intros Hk. unfold Agent.callLLM in E. rewrite bind_modify in E.
    set (w0 := set_trace (trace w ++ [EvCallLLM]) w) in *.
    assert (Hn : network_requests (trace w0) = network_requests (trace w)).
    { unfold w0. cbn [trace set_trace]. rewrite network_requests_app. cbn. lia. }
    destruct (get_prop conversation "messages") as [messages|e];
      [rewrite bind_lift_ok in E | inversion E; subst; exact Hn].
    destruct (messagesForApi messages) as [msgs|e];
      [rewrite bind_lift_ok in E | inversion E; subst; exact Hn].
    rewrite bind_gets in E. change (settings w0) with (settings w) in E.
    destruct (get_prop (settings w) "llm") as [llm|e] eqn:El;
      [rewrite bind_lift_ok in E | inversion E; subst; exact Hn].
    apply get_prop_value in El. subst llm.
    apply call_with_keyless in E; [now subst|].
    unfold js_or. destruct (truthy (get_prop_opt (settings w) "llm")); [exact Hk|reflexivity].
Qed.

Lemma offline_without_key_refl (w : World) : offline_without_key w w.
Proof. split; auto. Qed.

Lemma offline_without_key_trans (a b c : World) :
  offline_without_key a b -> offline_without_key b c -> offline_without_key a c.
Proof.
  intros (S1 & N1) (S2 & N2). split; [congruence|].
  intros Hk. rewrite N2, N1; auto. unfold keyless in *. now rewrite S1.
Qed.

Lemma iteration_body_offline `{Env} (convId : value) :
  preserves offline_without_key (Agent.iteration_body convId).
Proof.
  unfold Agent.iteration_body.
  apply preserves_bind; [apply offline_without_key_trans | |].
  - apply preserves_gets, offline_without_key_refl.
  - intros conversation.
    apply preserves_bind; [apply offline_without_key_trans | apply callLLM_offline |].
    intros data.
    eapply preserves_weaken;
      [|apply (preserves_both _ _ _ (handle_response_same_settings convId data)
                 (handle_response_same_trace convId data))].
    intros w w' (S & T). split; [exact S|]. intros _. now rewrite T.
Qed.

(** X1 — Without an API key in the settings, a whole turn makes no network
    request: sendMessage returns, the number of requests in the trace is what it
    was, and the settings are untouched. *)
Theorem X1_no_key_no_request :
  forall (E : Env) (userInput : option string) (w : World),
    keyless w ->
    exists w',
      Agent.sendMessage userInput w = (Ok tt, w') /\
      network_requests (trace w') = network_requests (trace w) /\
      settings w' = settings w.
Proof.
  intros E userInput w Hk.
  destruct (total_unit _ (sendMessage_total userInput) w) as (w' & Hs).
  exists w'. split; auto.
  assert (Ho : offline_without_key w w').
  { revert Hs. apply sendMessage_turn.
    - apply offline_without_key_refl.
    - apply offline_without_key_trans.
    - intros a b (T & S & _). split; [exact S|]. intros _. now rewrite T.
    - apply iteration_body_offline. }
  destruct Ho as (S & N). auto.
Qed.

Lemma X1_witness :
  exists w',
    @Agent.sendMessage Examples.offline (Some "hello")
      (Examples.world (Examples.llm_settings (VStr "aipipe") (VStr "")) [])
    = (Ok tt, w') /\
    network_requests (trace w') = 0 /\
    settings w' = Examples.llm_settings (VStr "aipipe") (VStr "").
Proof.
  apply (X1_no_key_no_request Examples.offline (Some "hello")
           (Examples.world (Examples.llm_settings (VStr "aipipe") (VStr "")) [])).
  reflexivity.
Defined.

(** *** The requests of a turn *)

Lemma prefix_append (p s : string) : String.prefix p (p ^^ s) = true.
Proof.
  induction p as [|c p IH]; simpl.
  - destruct s; reflexivity.
  - destruct (ascii_dec c c) as [_|N]; [exact IH | contradiction].
Qed.

Lemma post_trace `{Env} (url : string) (headers : list (string * string)) (body : value)
    (w : World) (r : result value) (w' : World) :
  post url headers body w = (r, w') ->
  trace w' =
    trace w ++ [EvFetch {| req_url := url; req_method := "POST"; req_headers := headers;
                           req_body := JSON_stringify body |}].
Proof.
  unfold post, try_catch, bind, do_fetch, lift, throw.
  destruct (fetch _ _) as [e|resp].
  - intros E. inversion E. reflexivity.
  - destruct (negb (resp_ok resp)).
    + destruct (ToString (error_text resp)); intros E; inversion E; reflexivity.
    + destruct (resp_json resp); intros E; inversion E; reflexivity.
Qed.

Lemma call_with_metered `{Env} (llm : value) (msgs : list value) (w : World)
    (r : result value) (w' : World) :
  call_with llm msgs w = (r, w') ->
  trace w' = trace w \/
  exists req,
    trace w' = trace w ++ [EvFetch req] /\
    req_method req = "POST" /\ chat_endpoint (req_url req) = true.
Proof.
  unfold call_with.
  destruct (negb (truthy (get_prop_opt llm "provider")));
    [intros E; inversion E; now left|].
  destruct (negb (truthy (get_prop_opt llm "apiKey")));
    [intros E; inversion E; now left|].
  unfold provider_request.
  destruct (str_is (get_prop_opt llm "provider") "openai").
  { destruct (ToString (get_prop_opt llm "apiKey")) as [key|e];
      [|intros E; inversion E; now left].
    cbn [rbind]. rewrite bind_lift_ok. intros E. apply post_trace in E.
    right. eexists. split; [exact E|]. split; reflexivity. }
  destruct (str_is (get_prop_opt llm "provider") "google").
  { destruct (ToString (get_prop_opt llm "model")) as [name|e];
      [|intros E; inversion E; now left].
    destruct (ToString (get_prop_opt llm "apiKey")) as [key|e];
      [|intros E; inversion E; now left].
    cbn [rbind]. rewrite bind_lift_ok. intros E. apply post_trace in E.
    right. eexists. split; [exact E|]. split; [reflexivity|].
    cbn [req_url]. unfold chat_endpoint. rewrite prefix_append.
    rewrite orb_true_r. reflexivity. }
  destruct (str_is (get_prop_opt llm "provider") "aipipe").
  { destruct (ToString (get_prop_opt llm "apiKey")) as [key|e];
      [|intros E; inversion E; now left].
    cbn [rbind]. rewrite bind_lift_ok. intros E. apply post_trace in E.
    right. eexists. split; [exact E|]. split; reflexivity. }
  destruct (ToString (get_prop_opt llm "provider")); intros E; inversion E; now left.
Qed.

Lemma metered_refl (w : World) : metered w w.
Proof. exists []. rewrite app_nil_r. repeat split; auto. Qed.

Lemma metered_trans (a b c : World) : metered a b -> metered b c -> metered a c.
Proof.
  intros (e1 & T1 & F1 & N1) (e2 & T2 & F2 & N2). exists (e1 ++ e2).
  rewrite T2, T1, app_assoc. repeat split; [apply Forall_app; auto|].
  rewrite network_requests_app, provider_calls_app. lia.
Qed.

Lemma silent_metered (w w' : World) : silent w w' -> metered w w'.
Proof. intros (T & _). exists []. rewrite app_nil_r. repeat split; auto. Qed.

Lemma callLLM_metered `{Env} (conversation : value) :
  preserves metered (Agent.callLLM conversation).
Proof.
  intros w r w' E. unfold Agent.callLLM in E. rewrite bind_modify in E.
  set (w0 := set_trace (trace w ++ [EvCallLLM]) w) in *.
  assert (H0 : metered w w0).
  { exists [EvCallLLM]. repeat split; [repeat constructor | cbn; lia]. }
  assert (Hstop : forall (e : exn) (x : World), x = w0 -> metered w x)
    by (intros e x ->; exact H0).
  destruct (get_prop conversation "messages") as [messages|e];
    [rewrite bind_lift_ok in E | inversion E; eauto].
  destruct (messagesForApi messages) as [msgs|e];
    [rewrite bind_lift_ok in E | inversion E; eauto].
  rewrite bind_gets in E.
  destruct (get_prop (settings w0) "llm") as [llm|e];
    [rewrite bind_lift_ok in E | inversion E; eauto].
  apply call_with_metered in E. destruct E as [T | (req & T & Hm & Hu)].
  - exists [EvCallLLM]. rewrite T. repeat split; [repeat constructor | cbn; lia].
  - exists [EvCallLLM; EvFetch req]. rewrite T. unfold w0. cbn [trace set_trace].
    rewrite <- app_assoc. repeat split; [repeat constructor; auto | cbn; lia].
Qed.

Lemma iteration_body_metered `{Env} (convId : value) :
  preserves metered (Agent.iteration_body convId).
Proof.
  unfold Agent.iteration_body.
  apply preserves_bind; [apply metered_trans | apply preserves_gets, metered_refl |].
  intros conversation.
  apply preserves_bind; [apply metered_trans | apply callLLM_metered |].
  intros data. eapply preserves_weaken; [|apply handle_response_same_trace].
  intros w w' T. exists []. rewrite app_nil_r. repeat split; auto.
Qed.

(** X2 — During a turn the trace only grows at its end: by at most five
    provider calls and by no more network requests than provider calls, and
    every request is a POST to one of the three chat endpoints (OpenAI, Google
    generative language, AI Pipe). *)
Theorem X2_requests_of_a_turn :
  forall (E : Env) (userInput : option string) (w : World),
    exists w' extra,
      Agent.sendMessage userInput w = (Ok tt, w') /\
      trace w' = trace w ++ extra /\
      provider_calls extra <= 5 /\
      network_requests extra <= provider_calls extra /\
      Forall chat_event extra.
Proof.
  intros E userInput w.
  destruct (total_unit _ (sendMessage_total userInput) w) as (w' & Hs).
  assert (Hm : metered w w').
  { revert Hs. apply sendMessage_turn.
    - apply metered_refl.
    - apply metered_trans.
    - apply silent_metered.
    - apply iteration_body_metered. }
  destruct Hm as (extra & T & F & N).
  exists w', extra. repeat split; auto.
  pose proof (sendMessage_at_most userInput _ _ _ Hs) as Hb.
  unfold at_most in Hb. rewrite T, provider_calls_app in Hb. lia.
Qed.

(** *** The counter of provider answers *)

Lemma handle_response_counts `{Env} (convId responseData : value) (w : World)
    (r : result bool) (w' : World) :
  Agent.handle_response convId responseData w = (r, w') ->
  apiCalls w' = (apiCalls w + 1)%Z /\ trace w' = trace w.
Proof.
  unfold Agent.handle_response. rewrite bind_modify.
  set (w0 := set_apiCalls (apiCalls w + 1) w). intros E.
  assert (S : silent w0 w').
  { revert E. generalize w0. intros x E.
    assert (P : preserves silent
                  (let* st := gets settings in
                   let* llm := lift (get_prop st "llm") in
                   let* provider := lift (get_prop llm "provider") in
                   let* response := lift (Agent.parseAPIResponse responseData provider) in
                   (if truthy response && truthy (get_prop_opt response "content")
                    then Agent.addMessage "assistant" (get_prop_opt response "content") convId
                    else ret tt);;
                   let* tools := lift (Agent.has_tool_calls response) in
                   if tools
                   then Agent.run_tools convId (get_prop_opt response "tool_calls");; ret true
                   else ret false)).
    { pres. apply run_tools_silent. }
    eapply P; eauto. }
  destruct S as (T & _ & A). split; [rewrite A | rewrite T]; reflexivity.
Qed.

Lemma counted_refl (w : World) : counted w w.
Proof. unfold counted. lia. Qed.

Lemma counted_trans (a b c : World) : counted a b -> counted b c -> counted a c.
Proof. unfold counted. lia. Qed.

Lemma iteration_body_counted `{Env} (convId : value) :
  preserves counted (Agent.iteration_body convId).
Proof.
  intros w r w' E. unfold Agent.iteration_body in E. rewrite bind_gets in E.
  apply bind_inv in E. destruct E as [(data & w1 & E1 & E2) | (e & E1 & _)].
  - pose proof (callLLM_calls _ _ _ _ E1) as C.
    apply callLLM_only_trace in E1.
    assert (A1 : apiCalls w1 = apiCalls w) by (rewrite E1; reflexivity).
    apply handle_response_counts in E2. destruct E2 as (A2 & T2).
    unfold counted, calls_plus in *. rewrite T2, A2, A1, C. lia.
  - pose proof (callLLM_calls _ _ _ _ E1) as C.
    apply callLLM_only_trace in E1.
    assert (A1 : apiCalls w' = apiCalls w) by (rewrite E1; reflexivity).
    unfold counted, calls_plus in *. rewrite A1, C. lia.
Qed.

(** X3 — The counter of provider answers (state.performance.apiCalls) never
    decreases during a turn and grows by no more than the provider calls
    the turn made, hence by at most five. *)
Theorem X3_api_calls_counter :
  forall (E : Env) (userInput : option string) (w : World),
    exists w',
      Agent.sendMessage userInput w = (Ok tt, w') /\
      (apiCalls w <= apiCalls w' <= apiCalls w + 5)%Z /\
      (apiCalls w' - apiCalls w
       <= Z.of_nat (provider_calls (trace w')) - Z.of_nat (provider_calls (trace w)))%Z.
Proof.
  intros E userInput w.
  destruct (total_unit _ (sendMessage_total userInput) w) as (w' & Hs).
  assert (Hc : counted w w').
  { revert Hs. apply sendMessage_turn.
    - apply counted_refl.
    - apply counted_trans.
    - intros a b (T & _ & A). unfold counted. rewrite T, A. lia.
    - apply iteration_body_counted. }
  pose proof (sendMessage_at_most userInput _ _ _ Hs) as Hb.
  exists w'. unfold counted, at_most in *. repeat split; auto; lia.
Qed.

(** *** The processing flag and the saved store *)

Lemma saveCurrentConversation_result `{Env} (w : World) :
  exists w',
    Agent.saveCurrentConversation w = (Ok tt, w') /\
    (w' = w \/ w' = set_stored_conversations (Some (store_text (conversations w))) w) /\
    (autosaving w -> w' = set_stored_conversations (Some (store_text (conversations w))) w).
Proof.
  unfold Agent.saveCurrentConversation, try_catch. rewrite bind_gets.
  destruct (get_prop (settings w) "advanced") as [advanced|e] eqn:Ea.
  - rewrite bind_lift_ok.
    destruct (get_prop advanced "autoSave") as [autoSave|e] eqn:Es.
    + rewrite bind_lift_ok. destruct (truthy autoSave) eqn:Ht.
      * rewrite bind_gets. eexists. split; [reflexivity|]. split; [now right|]. reflexivity.
      * exists w. split; [reflexivity|]. split; [now left|].
        intros (a & s & Ha & Hs & Hon). congruence.
    + exists w. split; [reflexivity|]. split; [now left|].
      intros (a & s & Ha & Hs & Hon). congruence.
  - exists w. split; [reflexivity|]. split; [now left|].
    intros (a & s & Ha & Hs & Hon). congruence.
Qed.

Lemma finally_clause `{Env} {A : Type} (m : M A) (w : World) (r : result A) (w' : World) :
  try_finally m (modify (set_isProcessing false);; Agent.saveCurrentConversation) w = (r, w') ->
  isProcessing w' = false /\
  (autosaving w' -> stored_conversations w' = Some (store_text (conversations w'))).
Proof.
  unfold try_finally. destruct (m w) as [r1 w1]. rewrite bind_modify.
  destruct (saveCurrentConversation_result (set_isProcessing false w1))
    as (w2 & Es & Hcases & Hauto).
  rewrite Es. intros E. inversion E; subst. split.
  - destruct Hcases as [-> | ->]; reflexivity.
  - intros Hon.
    assert (Hon1 : autosaving (set_isProcessing false w1)).
    { destruct Hcases as [-> | ->]; exact Hon. }
    rewrite (Hauto Hon1). reflexivity.
Qed.

(** sendMessage on an input that is not blank, outside a turn: the state in
    which its finally clause runs. *)
Lemma sendMessage_reaches_finally `{Env} (v : string) (w w' : World) :
  trim v <> "" -> isProcessing w = false ->
  Agent.sendMessage (Some v) w = (Ok tt, w') ->
  exists (m : M unit) (w1 : World),
    try_finally m (modify (set_isProcessing false);; Agent.saveCurrentConversation) w1
    = (Ok tt, w').
Proof.
  intros Hv Hp. unfold Agent.sendMessage. rewrite bind_gets, Hp.
  apply String.eqb_neq in Hv. rewrite Hv. cbn [orb].
  rewrite bind_modify, bind_gets.
  set (w0 := set_isProcessing true w).
  assert (Hc : total (if truthy (currentConversationId w0) then ret (currentConversationId w0)
                      else Agent.createNewConversation)).
  { destruct (truthy _); [apply total_ret | apply createNewConversation_total]. }
  destruct (Hc w0) as (convId & w1 & E1). rewrite (bind_ok _ _ _ _ _ E1).
  destruct (total_unit _ (addMessage_total "user" (VStr (trim v)) convId) w1) as (w2 & E2).
  rewrite (bind_ok _ _ _ _ _ E2). intros E. eauto.
Qed.

(** X4 — sendMessage returns with the processing flag as it found it: a call
    made while a turn is being processed changes nothing at all, and a call
    that runs a turn ends with the flag cleared. *)
Theorem X4_processing_flag :
  forall (E : Env) (userInput : option string) (w : World),
    exists w',
      Agent.sendMessage userInput w = (Ok tt, w') /\
      isProcessing w' = isProcessing w /\
      (isProcessing w = true -> w' = w).
Proof.
  intros E userInput w.
  destruct (total_unit _ (sendMessage_total userInput) w) as (w' & Hs).
  exists w'. split; auto.
  destruct (isProcessing w) eqn:Hp.
  - assert (Hw : w' = w).
    { unfold Agent.sendMessage in Hs. rewrite bind_gets, Hp, orb_true_r in Hs.
      now inversion Hs. }
    subst w'. auto.
  - split; [|discriminate].
    destruct userInput as [v|].
    + destruct (String.eqb_spec (trim v) "") as [Hb|Hb].
      * unfold Agent.sendMessage in Hs. rewrite bind_gets, Hb in Hs.
        inversion Hs; subst. exact Hp.
      * destruct (sendMessage_reaches_finally v w w' Hb Hp Hs) as (m & w1 & Ef).
        apply finally_clause in Ef. apply Ef.
    + unfold Agent.sendMessage in Hs. rewrite bind_gets in Hs.
      inversion Hs; subst. exact Hp.
Qed.



(* ===================================================================== *)
(** ** Iterations that end the turn                                      *)
(* ===================================================================== *)

Lemma truthy_not_nullish (v : value) : truthy v = true -> is_nullish v = false.
Proof. destruct v; simpl; congruence. Qed.

Lemma holder_is_object (v x : value) (k : string) :
  k <> "length" -> get_prop_opt v k = x -> truthy x = true -> exists props, v = VObj props.
Proof.
  intros Hk Hx Ht. apply String.eqb_neq in Hk. unfold get_prop_opt in Hx.
  destruct v; cbn in Hx; rewrite ?Hk in Hx; subst x; try discriminate. eauto.
Qed.

(** An iteration whose response has content and asks for no tool: the
    content is shown and the loop is told to stop. *)
Lemma text_iteration `{Env} (convId : value) (w w1 : World) (msgs : list value)
    (data llm provider response : value) :
  truthy convId = true ->
  conv_has w convId msgs ->
  Agent.callLLM (map_get (conversations w) convId) w = (Ok data, w1) ->
  get_prop (settings w) "llm" = Ok llm ->
  get_prop llm "provider" = Ok provider ->
  Agent.parseAPIResponse data provider = Ok response ->
  truthy (get_prop_opt response "content") = true ->
  Agent.has_tool_calls response = Ok false ->
  exists w' m,
    Agent.iteration convId w = (Ok false, w') /\
    conv_has w' convId (msgs ++ [m]) /\
    displayed "assistant" (get_prop_opt response "content") m /\
    trace w' = trace w1 /\
    apiCalls w' = (apiCalls w + 1)%Z.
Proof.
  intros Ht Hc Hcall Hllm Hprov Hparse Hcontent Hhas.
  pose proof (callLLM_only_trace _ _ _ _ Hcall) as Hot.
  assert (Hst1 : settings w1 = settings w) by (rewrite Hot; reflexivity).
  assert (Hapi : apiCalls w1 = apiCalls w) by (rewrite Hot; reflexivity).
  set (w1a := set_apiCalls (apiCalls w1 + 1)%Z w1).
  assert (Hc1 : conv_has w1a convId msgs).
  { eapply conv_has_same_store; [|exact Hc]. unfold w1a. rewrite Hot. reflexivity. }
  destruct (holder_is_object response _ "content" ltac:(discriminate) eq_refl Hcontent)
    as (rprops & Hr).
  assert (Hresp : truthy response = true) by (rewrite Hr; reflexivity).
  destruct (addMessage_appends "assistant" (get_prop_opt response "content") convId w1a msgs
              Ht (truthy_not_nullish _ Hcontent) Hc1) as (w2 & m & Ea & Hd & Hc2).
  exists w2, m. repeat split; auto.
  - unfold Agent.iteration, try_catch, Agent.iteration_body.
    rewrite bind_gets, (bind_ok _ _ _ _ _ Hcall).
    unfold Agent.handle_response. rewrite bind_modify, bind_gets. fold w1a.
    change (settings w1a) with (settings w1). rewrite Hst1, Hllm, bind_lift_ok.
    rewrite Hprov, bind_lift_ok, Hparse, bind_lift_ok.
    rewrite Hresp, Hcontent. cbn [andb].
    rewrite (bind_ok _ _ _ _ _ Ea), Hhas, bind_lift_ok. reflexivity.
  - destruct Hd as (Hn & _). exact Hn.
  - destruct Hd as (_ & Hd). exact Hd.
  - apply addMessage_same_trace in Ea. exact Ea.
  - apply addMessage_silent in Ea. destruct Ea as (_ & _ & A). rewrite A.
    unfold w1a. cbn [apiCalls set_apiCalls]. now rewrite Hapi.
Qed.

Lemma agentLoop_breaks `{Env} (convId : value) (w w' : World) (msgs : list value) :
  conv_has w convId msgs ->
  Agent.iteration convId w = (Ok false, w') ->
  Agent.agentLoop convId w = (Ok tt, w').
Proof.
  intros (props & Hget & _) Hit. unfold Agent.agentLoop. rewrite bind_gets, Hget.
  cbn [truthy negb Agent.turns]. now rewrite (bind_ok _ _ _ _ _ Hit).
Qed.



(** *** Demo mode *)

Lemma parse_demo `{Env} (provider : value) :
  Agent.parseAPIResponse demo_payload provider
  = Ok (VObj [("content", demo_reply provider)]).
Proof.
  unfold Agent.parseAPIResponse, parse_body, demo_reply.
  destruct (str_is provider "openai" || str_is provider "aipipe"); [reflexivity|].
  destruct (str_is provider "google"); reflexivity.
Qed.



(** What the user reads in demo mode with the provider set to google: the
    payload as JSON text, not the demo sentence. *)
Example demo_reply_for_google :
  @demo_reply Examples.offline (VStr "google")
  = VStr (String.concat ""
            ["{"; dquote; "choices"; dquote; ":[{"; dquote; "message"; dquote; ":{";
             dquote; "content"; dquote; ":"; dquote;
             "Demo response: provide an API key in settings to use real models.";
             dquote; "}}]}"]).
Proof. reflexivity. Qed.

(** *** The service and the method *)

(** X8 — services/llm.js behaves like the methods of the class it was
    extracted from: callLLM(conversation, settings) is callLLM(conversation)
    of the class whenever the conversation has messages and the settings are
    not null or undefined, and the two parseAPIResponse functions are the
    same function.  On a conversation without messages they part: the method
    throws a TypeError, the service goes on with an empty list. *)
Theorem X8_service_agrees_with_method :
  forall (E : Env) (w : World),
    is_nullish (settings w) = false ->
    (forall conversation,
        truthy (get_prop_opt conversation "messages") = true ->
        LlmService.callLLM conversation (settings w) w = Agent.callLLM conversation w) /\
    (forall data provider,
        LlmService.parseAPIResponse data provider = Agent.parseAPIResponse data provider) /\
    (forall props,
        lookup "messages" props = VUndef ->
        Agent.callLLM (VObj props) w
        = (Throw (read_of_nullish "undefined" "map"),
           set_trace (trace w ++ [EvCallLLM]) w) /\
        LlmService.callLLM (VObj props) (settings w) w
        = call_with (js_or (get_prop_opt (settings w) "llm") (VObj [])) []
            (set_trace (trace w ++ [EvCallLLM]) w)).
Proof.
  intros E w Hst.
  assert (Hllm : js_or (if truthy (settings w) then get_prop_opt (settings w) "llm"
                        else settings w) (VObj [])
                 = js_or (get_prop_opt (settings w) "llm") (VObj [])).
  { destruct (settings w) as [| |[|]|n|s|l|p]; try discriminate; try reflexivity.
    - cbn [truthy]. destruct (negb (n =? 0)%Z) eqn:En; [reflexivity|].
      unfold js_or. cbn [truthy]. now rewrite En.
    - cbn [truthy]. destruct (negb (s =? "")%string) eqn:En; [reflexivity|].
      unfold js_or. cbn [truthy]. rewrite En.
      unfold get_prop_opt. cbn. reflexivity. }
  split; [|split; [reflexivity|]].
  - intros conversation Hm.
    destruct (holder_is_object conversation _ "messages" ltac:(discriminate) eq_refl Hm)
      as (props & ->).
    unfold LlmService.callLLM, Agent.callLLM.
    rewrite !bind_modify. cbn [get_prop]. rewrite !bind_lift_ok.
    unfold get_prop_opt in Hm. cbn [get_prop] in Hm.
    unfold js_or at 1. rewrite Hm.
    destruct (messagesForApi (lookup "messages" props)) as [msgs|e]; [|reflexivity].
    rewrite !bind_lift_ok, bind_gets. cbn [settings set_trace].
    rewrite (get_prop_ok _ "llm" Hst), bind_lift_ok, Hllm. reflexivity.
  - intros props Hm. split.
    + unfold Agent.callLLM. rewrite bind_modify. cbn [get_prop].
      rewrite bind_lift_ok, Hm. reflexivity.
    + unfold LlmService.callLLM. rewrite bind_modify. cbn [get_prop].
      rewrite bind_lift_ok, Hm. cbn [js_or truthy].
      change (messagesForApi (VArr [])) with (Ok (@nil value)).
      rewrite bind_lift_ok, Hllm. reflexivity.
Qed.

Lemma X8_witness :
  @LlmService.callLLM Examples.offline (Examples.conversation [Examples.user_message])
    (Examples.llm_settings (VStr "openai") (VStr "sk-test"))
    (Examples.world (Examples.llm_settings (VStr "openai") (VStr "sk-test"))
       [Examples.user_message])
  = @Agent.callLLM Examples.offline (Examples.conversation [Examples.user_message])
      (Examples.world (Examples.llm_settings (VStr "openai") (VStr "sk-test"))
         [Examples.user_message]).
Proof.
  apply (proj1 (X8_service_agrees_with_method Examples.offline
                  (Examples.world (Examples.llm_settings (VStr "openai") (VStr "sk-test"))
                     [Examples.user_message])
                  eq_refl)).
  reflexivity.
Defined.

(** *** A batch of tools with a failure *)

Lemma none_rejected_at_call `{Env} (tcs : list value) :
  Agent.first_rejected_at_call (map (fun tc => Ok (settled tc)) tcs) = None.
Proof.
  unfold Agent.first_rejected_at_call.
  assert (Hf : filter (fun p : result (result value) =>
                         match p with Throw _ => true | Ok _ => false end)
                 (map (fun tc => Ok (settled tc)) tcs) = []).
  { induction tcs as [|tc rest IH]; [reflexivity|]. cbn [map filter]. exact IH. }
  now rewrite Hf.
Qed.

Lemma promise_all_rejected `{Env} (tcs : list value) (e : exn) :
  mapR settled tcs = Throw e ->
  Agent.promise_all (map (fun tc => Ok (settled tc)) tcs) = Throw e.
Proof.
  unfold Agent.promise_all. rewrite none_rejected_at_call.
  induction tcs as [|tc rest IH]; cbn [mapR map Agent.fulfilled]; [discriminate|].
  destruct (settled tc) as [v|e1]; cbn [rbind]; [|auto].
  destruct (mapR settled rest) as [vs|e2]; cbn [rbind]; [discriminate|].
  intros Hr. rewrite (IH Hr). reflexivity.
Qed.



(* ===================================================================== *)
(** ** Loading the store                                                 *)
(* ===================================================================== *)

(** X10 — When nothing usable is stored, loadConversationHistory starts
    fresh.  With no stored item, or an empty one, it adds one new empty
    conversation to the Map and makes it current; when the stored text is not
    JSON it drops whatever the Map held and leaves exactly one new empty
    conversation, which is current. *)
Theorem X10_load_starts_fresh :
  forall (E : Env) (w : World),
    ((stored_conversations w = None \/ stored_conversations w = Some "") ->
     exists w',
       Agent.loadConversationHistory w = (Ok tt, w') /\
       conversations w'
       = map_set (conversations w) (new_id (clock w)) (new_conversation (clock w)) /\
       currentConversationId w' = new_id (clock w)) /\
    (forall text,
        stored_conversations w = Some text -> text <> "" -> JSON_parse text = None ->
        exists w',
          Agent.loadConversationHistory w = (Ok tt, w') /\
          conversations w' = [(new_id (clock w), new_conversation (clock w))] /\
          currentConversationId w' = new_id (clock w)).
Proof.
  intros E w. split.
  - intros Hs.
    destruct (createNewConversation_run w) as (w' & Ec & Hconvs & Hcur & _).
    exists w'. repeat split; auto.
    unfold Agent.loadConversationHistory, try_catch, Agent.loadConversationHistory_body.
    rewrite bind_gets.
    destruct Hs as [-> | ->]; cbn [String.eqb negb];
      now rewrite (bind_ok _ _ _ _ _ Ec).
  - intros text Hs Ht Hp.
    destruct (createNewConversation_run (set_conversations [] w))
      as (w' & Ec & Hconvs & Hcur & _).
    exists w'. repeat split; auto.
    unfold Agent.loadConversationHistory, try_catch, Agent.loadConversationHistory_body.
    rewrite bind_gets, Hs. apply String.eqb_neq in Ht. rewrite Ht. cbn [negb].
    rewrite Hp. unfold bind at 1. cbn [lift].
    rewrite bind_modify. now rewrite (bind_ok _ _ _ _ _ Ec).
Qed.

Lemma X10_witness :
  exists w',
    @Agent.loadConversationHistory Examples.offline
      (set_stored_conversations (Some "{not json")
         (Examples.world (Examples.llm_settings (VStr "aipipe") (VStr ""))
            [Examples.user_message]))
    = (Ok tt, w') /\
    conversations w'
    = [(@new_id Examples.offline 0, @new_conversation Examples.offline 0)] /\
    currentConversationId w' = @new_id Examples.offline 0.
Proof.
  apply (proj2 (X10_load_starts_fresh Examples.offline
                  (set_stored_conversations (Some "{not json")
                     (Examples.world (Examples.llm_settings (VStr "aipipe") (VStr ""))
                        [Examples.user_message])))
           "{not json").
  - reflexivity.
  - discriminate.
  - reflexivity.
Defined.

(** *** The most recent conversation *)

Lemma by_updatedAt_sign `{Env} (a b : value) :
  stored_shape a -> stored_shape b ->
  Agent.by_updatedAt a b = Ok (Z.sgn (updatedAt_of b - updatedAt_of a)).
Proof.
  intros (pa & ta & -> & Ha & _ & _) (pb & tb & -> & Hb & _ & _).
  unfold Agent.by_updatedAt, updatedAt_of, get_prop_opt. cbn [get_prop].
  rewrite Ha, Hb. reflexivity.
Qed.

Lemma insert_sorted_newest `{Env} (x : value) (l : list value) :
  stored_shape x -> Forall stored_shape l -> newest_first l ->
  exists l',
    Agent.insert_sorted Agent.by_updatedAt x l = Ok l' /\
    newest_first l' /\
    (forall y, In y l' <-> y = x \/ In y l).
Proof.
  intros Hx. induction l as [|z rest IH]; intros Hl Hs; cbn [Agent.insert_sorted].
  - exists [x]. repeat split; auto; cbn; intuition.
  - inversion Hl as [|z0 rest0 Hz Hrest]; subst.
    destruct Hs as (Hall & Hs).
    rewrite (by_updatedAt_sign x z Hx Hz). cbn [rbind].
    pose proof (Z.sgn_spec (updatedAt_of z - updatedAt_of x)) as Hsgn.
    destruct (Z.leb_spec (Z.sgn (updatedAt_of z - updatedAt_of x)) 0) as [Hle|Hgt].
    + exists (x :: z :: rest). split; [reflexivity|]. split.
      * cbn [newest_first]. repeat split; auto.
        constructor; [lia|].
        eapply Forall_impl; [|exact Hall]. cbn. intros y Hy. lia.
      * intros y. cbn [In]. intuition.
    + destruct (IH Hrest Hs) as (l' & El & Hn & Hin).
      rewrite El. cbn [rbind]. exists (z :: l'). split; [reflexivity|]. split.
      * cbn [newest_first]. split; auto.
        apply Forall_forall. intros y Hy. apply Hin in Hy. destruct Hy as [->|Hy].
        -- lia.
        -- eapply Forall_forall in Hall; eauto.
      * intros y. cbn [In]. rewrite Hin. intuition.
Qed.

Lemma sort_by_newest `{Env} (l : list value) :
  Forall stored_shape l ->
  exists l',
    Agent.sort_by Agent.by_updatedAt l = Ok l' /\
    newest_first l' /\ Forall stored_shape l' /\
    (forall y, In y l' <-> In y l).
Proof.
  induction 1 as [|x rest Hx Hrest (sorted & Es & Hn & Hshape & Hin)];
    cbn [Agent.sort_by].
  - exists []. repeat split; auto.
  - rewrite Es. cbn [rbind].
    destruct (insert_sorted_newest x sorted Hx Hshape Hn) as (l' & El & Hn' & Hin').
    exists l'. repeat split; auto.
    + apply Forall_forall. intros y Hy. apply Hin' in Hy. destruct Hy as [->|Hy]; auto.
      eapply Forall_forall in Hshape; eauto.
    + intros Hy. apply Hin' in Hy. cbn [In]. rewrite <- Hin. intuition.
    + intros Hy. apply Hin'. cbn [In] in Hy. rewrite Hin. intuition.
Qed.

(** Loading a stored text whose entries are well formed: the Map is the
    entries, and the conversation made current is the first of the sort. *)
Lemma load_entries `{Env} (fresh : World) (text : string) (parsed : value)
    (entries : list value) (convs : JsMap) :
  stored_conversations fresh = Some text ->
  text <> "" ->
  JSON_parse text = Some parsed ->
  Agent.parsed_entries parsed = Ok entries ->
  mapR Agent.entry_pair entries = Ok convs ->
  distinct_keys convs ->
  Forall (fun kv => stored_shape (snd kv)) convs ->
  convs <> [] ->
  exists recent others back,
    Agent.sort_by Agent.by_updatedAt (map snd convs) = Ok (recent :: others) /\
    newest_first (recent :: others) /\
    (forall y, In y (recent :: others) <-> In y (map snd convs)) /\
    Agent.loadConversationHistory fresh = (Ok tt, back) /\
    Agent.loadConversation (get_prop_opt recent "id") (set_conversations convs fresh)
    = (Ok tt, back).
Proof.
  intros Hst Ht Hp Hentries Hpairs Hd Hshape Hne.
  assert (Hvals : Forall stored_shape (map snd convs)).
  { apply Forall_map. exact Hshape. }
  destruct (sort_by_newest (map snd convs) Hvals) as (sorted & Eso & Hn & Hsh & Hin).
  destruct sorted as [|recent others].
  { exfalso. destruct convs as [|kv rest]; [congruence|].
    apply (Hin (snd kv)). now left. }
  inversion Hsh as [|r0 o0 (rprops & rt & -> & _ & _ & _) _]; subst.
  set (w1 := set_conversations convs fresh).
  pose proof (loadConversation_keeps_store (get_prop_opt (VObj rprops) "id") w1 Hshape)
    as El.
  exists (VObj rprops), others,
    (if truthy (get_prop_opt (VObj rprops) "id")
     then set_currentConversationId (get_prop_opt (VObj rprops) "id") w1 else w1).
  split; [exact Eso|]. split; [exact Hn|]. split; [exact Hin|]. split; [|exact El].
  unfold Agent.loadConversationHistory, try_catch, Agent.loadConversationHistory_body.
  rewrite bind_gets, Hst.
  apply String.eqb_neq in Ht. rewrite Ht. cbn [negb].
  rewrite Hp, bind_lift_ok, Hentries, bind_lift_ok, Hpairs, bind_lift_ok, bind_modify.
  rewrite (map_of_pairs_distinct convs Hd). fold w1.
  rewrite bind_gets.
  rewrite (bind_ok _ _ _ _ _ (restore_from_id convs Hshape [] w1 eq_refl)).
  rewrite bind_gets. change (conversations w1) with convs. rewrite Eso, bind_lift_ok.
  cbn [truthy get_prop]. rewrite bind_lift_ok.
  unfold get_prop_opt in El. cbn [get_prop] in El. rewrite El. reflexivity.
Qed.



(** The store of the example: the conversation changed last is current. *)
Example later_conversation_is_current :
  currentConversationId
    (snd (@Agent.loadConversationHistory Examples.offline
            (Examples.holding
               (Examples.text_of (Agent.entries_array Examples.two_conversations)))))
  = VStr "conv_2".
Proof. vm_compute. reflexivity. Qed.

(** *** The object form of the store *)

Lemma entry_pairs_of_object (props : list (string * value)) :
  mapR Agent.entry_pair (map (fun kv => VArr [VStr (fst kv); snd kv]) props)
  = Ok (map (fun kv => (VStr (fst kv), snd kv)) props).
Proof.
  induction props as [|[k v] rest IH]; [reflexivity|].
  cbn [map mapR Agent.entry_pair nth fst snd rbind]. now rewrite IH.
Qed.

Lemma distinct_keys_of_object (props : list (string * value)) :
  NoDup (map fst props) ->
  distinct_keys (map (fun kv => (VStr (fst kv), snd kv)) props).
Proof.
  induction props as [|[k v] rest IH]; cbn [map fst snd distinct_keys]; [auto|].
  intros Hnd. inversion Hnd as [|k0 ks Hk Hrest]; subst. split; [|auto].
  apply Forall_map. apply Forall_forall. intros [k' v'] Hin. cbn [fst same_key].
  apply String.eqb_neq. intros ->. apply Hk. apply in_map_iff.
  exists (k', v'). auto.
Qed.

(** X12 — A store written as a JSON object keyed by conversation id is
    loaded like the array of pairs: the Map gets one entry per property, in
    property order, under the property name.  This is for conversations that
    are objects with a numeric updatedAt other than 0 and an array of
    messages. *)
Theorem X12_object_form_of_the_store :
  forall (E : Env) (fresh : World) (text : string) (props : list (string * value)),
    stored_conversations fresh = Some text ->
    text <> "" ->
    JSON_parse text = Some (VObj props) ->
    props <> [] ->
    NoDup (map fst props) ->
    Forall (fun kv => stored_shape (snd kv)) props ->
    exists back,
      Agent.loadConversationHistory fresh = (Ok tt, back) /\
      conversations back = map (fun kv => (VStr (fst kv), snd kv)) props.
Proof.
  intros E fresh text props Hst Ht Hp Hne Hnd Hshape.
  destruct (load_entries fresh text (VObj props) _ _ Hst Ht Hp eq_refl
              (entry_pairs_of_object props) (distinct_keys_of_object props Hnd))
    as (recent & others & back & _ & _ & _ & El & Ecur).
  - apply Forall_map. exact Hshape.
  - destruct props; [congruence|discriminate].
  - exists back. split; [exact El|].
    rewrite loadConversation_keeps_store in Ecur.
    + inversion Ecur; subst back.
      destruct (truthy (get_prop_opt recent "id")); reflexivity.
    + cbn [conversations set_conversations]. apply Forall_map. exact Hshape.
Qed.

Lemma X12_witness :
  exists back,
    @Agent.loadConversationHistory Examples.offline
      (Examples.holding (Examples.text_of Examples.two_as_object))
    = (Ok tt, back) /\
    conversations back = Examples.two_conversations.
Proof.
  apply (X12_object_form_of_the_store Examples.offline
           (Examples.holding (Examples.text_of Examples.two_as_object))
           (Examples.text_of Examples.two_as_object)
           [("conv_1", Examples.conversation [Examples.user_message]);
            ("conv_2", Examples.later_conversation)]).
  - reflexivity.
  - vm_compute. discriminate.
  - vm_compute. reflexivity.
  - discriminate.
  - repeat constructor; cbn; intuition discriminate.
  - repeat constructor.
    + eexists _, 1%Z. split; [reflexivity|]. split; [reflexivity|].
      split; [discriminate|]. eexists. reflexivity.
    + eexists _, 5%Z. split; [reflexivity|]. split; [reflexivity|].
      split; [discriminate|]. eexists. reflexivity.
Defined.

(* ===================================================================== *)
(** ** Messages and conversation objects                                 *)
(* ===================================================================== *)

Lemma update_conversation_object `{Env} (k : value) (f : value -> result value)
    (w : World) (props : list (string * value)) (c : value) :
  map_get (conversations w) k = VObj props ->
  f (VObj props) = Ok c ->
  Agent.update_conversation k f w
  = (Ok tt, set_conversations (map_set (conversations w) k c) w) /\
  map_get (map_set (conversations w) k c) k = c.
Proof.
  intros Hget Hf. unfold Agent.update_conversation. rewrite Hget, Hf. split; [reflexivity|].
  apply map_get_set_same. rewrite Hget. discriminate.
Qed.

(** addMessage with a text, for a role other than system, on a conversation
    that is there. *)
Lemma addMessage_text `{Env} (role text : string) (convId : value) (w : World)
    (props : list (string * value)) (msgs : list value) :
  truthy convId = true ->
  role <> "system" ->
  map_get (conversations w) convId = VObj props ->
  lookup "messages" props = VArr msgs ->
  exists w',
    Agent.addMessage role (VStr text) convId w = (Ok tt, w') /\
    map_get (conversations w') convId = VObj (with_text (clock w) role text msgs props) /\
    clock w' = S (S (S (clock w))) /\
    currentConversationId w' = currentConversationId w.
Proof.
  intros Ht Hr Hget Hm.
  set (m := Agent.new_message (Date_now (clock w)) role (VStr text) (Date_now (S (clock w)))).
  set (p1 := assign "messages" (VArr (msgs ++ [m])) props).
  set (p2 := assign "preview" (VStr (substring0 100 text)) p1).
  set (w1 := set_clock (S (S (clock w))) w).
  assert (Hget1 : map_get (conversations w1) convId = VObj props) by exact Hget.
  destruct (update_conversation_object convId (pushed m) w1 props (VObj p1) Hget1)
    as (E1 & G1).
  { unfold pushed. cbn [get_prop rbind]. rewrite Hm. reflexivity. }
  set (w2 := set_conversations (map_set (conversations w1) convId (VObj p1)) w1) in *.
  destruct (update_conversation_object convId
              (fun c => set_prop c "preview" (VStr (substring0 100 text))) w2 p1 (VObj p2) G1
              eq_refl) as (E2 & G2).
  set (w3 := set_conversations (map_set (conversations w2) convId (VObj p2)) w2) in *.
  set (p3 := retitled text p2).
  assert (Htitle : exists w4,
             (if negb (truthy (lookup "title" p2)) || str_is (lookup "title" p2) "New Conversation"
              then Agent.update_conversation convId
                     (fun c => set_prop c "title"
                                 (js_or (VStr (substring0 30 text)) (VStr "Conversation")))
              else ret tt) w3 = (Ok tt, w4) /\
             map_get (conversations w4) convId = VObj p3 /\
             clock w4 = clock w3 /\ currentConversationId w4 = currentConversationId w3).
  { unfold p3, retitled.
    destruct (negb (truthy (lookup "title" p2)) || str_is (lookup "title" p2) "New Conversation").
    - destruct (update_conversation_object convId
                  (fun c => set_prop c "title"
                              (js_or (VStr (substring0 30 text)) (VStr "Conversation")))
                  w3 p2 _ G2 eq_refl) as (E3 & G3).
      eexists. split; [exact E3|]. repeat split. exact G3.
    - exists w3. repeat split. exact G2. }
  destruct Htitle as (w4 & E3 & G3 & C3 & I3).
  set (w5 := set_clock (S (clock w4)) w4).
  assert (G5 : map_get (conversations w5) convId = VObj p3) by exact G3.
  destruct (update_conversation_object convId
              (fun c => set_prop c "updatedAt" (VNum (Date_now (clock w4)))) w5 p3 _ G5 eq_refl)
    as (E4 & G4).
  eexists. split; [|split; [|split]].
  - unfold Agent.addMessage, try_catch, Agent.addMessage_body.
    rewrite bind_gets. unfold js_or. rewrite Ht. cbn [negb]. rewrite Ht. cbn [negb].
    rewrite bind_gets, Hget.
    cbn [truthy negb is_nullish]. unfold bind at 1, now at 1. unfold bind at 1, now at 1.
    cbn [clock set_clock]. fold m. fold w1.
    unfold Agent.push_message. rewrite (bind_ok _ _ _ _ _ E1). fold w2.
    unfold Agent.touch_conversation.
    apply String.eqb_neq in Hr. rewrite Hr. cbn [negb].
    rewrite (bind_ok _ _ _ _ _ E2). fold w3.
    rewrite bind_gets. change (conversations w3) with (map_set (conversations w2) convId (VObj p2)).
    rewrite G2. cbn [get_prop]. rewrite bind_lift_ok.
    rewrite (bind_ok _ _ _ _ _ E3).
    unfold bind at 1, now at 1. fold w5. rewrite E4. reflexivity.
  - cbn [conversations set_conversations]. rewrite G4.
    unfold with_text. fold m. fold p1. fold p2. fold p3.
    rewrite C3. reflexivity.
  - unfold w5. cbn [clock set_clock set_conversations]. rewrite C3. reflexivity.
  - unfold w5. cbn [currentConversationId set_conversations set_clock].
    rewrite I3. reflexivity.
Qed.

Lemma addMessage_default `{Env} (role : string) (content : value) (w : World) :
  truthy (currentConversationId w) = true ->
  Agent.addMessage role content VUndef w
  = Agent.addMessage role content (currentConversationId w) w.
Proof.
  intros Hc. unfold Agent.addMessage, try_catch, Agent.addMessage_body.
  rewrite !bind_gets. unfold js_or. cbn [truthy]. rewrite Hc. cbv iota. rewrite Hc.
  reflexivity.
Qed.

Lemma messages_with_text `{Env} (k : nat) (role text : string) (msgs : list value)
    (props : list (string * value)) :
  lookup "messages" (with_text k role text msgs props)
  = VArr (msgs ++ [Agent.new_message (Date_now k) role (VStr text) (Date_now (S k))]).
Proof.
  unfold with_text, retitled. rewrite lookup_assign_other by discriminate.
  destruct (_ || _); repeat (rewrite lookup_assign_other by discriminate);
    apply lookup_assign_same.
Qed.

Lemma title_with_text `{Env} (k : nat) (role text : string) (msgs : list value)
    (props : list (string * value)) :
  lookup "title" (with_text k role text msgs props)
  = if negb (truthy (lookup "title" props)) || str_is (lookup "title" props) "New Conversation"
    then js_or (VStr (substring0 30 text)) (VStr "Conversation")
    else lookup "title" props.
Proof.
  unfold with_text, retitled. rewrite lookup_assign_other by discriminate.
  assert (Ht : lookup "title"
                 (assign "preview" (VStr (substring0 100 text))
                    (assign "messages"
                       (VArr (msgs ++ [Agent.new_message (Date_now k) role (VStr text)
                                         (Date_now (S k))])) props))
               = lookup "title" props).
  { repeat (rewrite lookup_assign_other by discriminate). reflexivity. }
  rewrite Ht. destruct (_ || _).
  - apply lookup_assign_same.
  - exact Ht.
Qed.

(* ===================================================================== *)
(** ** The welcome message                                               *)
(* ===================================================================== *)



(** X14 — A new conversation that is greeted takes its title from the
    welcome text: after showWelcomeMessage the title is the first 30
    characters of the welcome, and the message the user sends next no longer
    changes it. *)
Theorem X14_welcome_titles_the_conversation :
  forall (E : Env) (w : World) (props : list (string * value)) (role text : string),
    truthy (currentConversationId w) = true ->
    map_get (conversations w) (currentConversationId w) = VObj props ->
    lookup "messages" props = VArr [] ->
    lookup "title" props = VStr "New Conversation" ->
    role <> "system" ->
    exists w1 w2 props2,
      Agent.showWelcomeMessage w = (Ok tt, w1) /\
      Agent.addMessage role (VStr text) (currentConversationId w) w1 = (Ok tt, w2) /\
      map_get (conversations w2) (currentConversationId w) = VObj props2 /\
      lookup "title" props2 = VStr "Welcome to LeafAI! How can I a" /\
      List.length (messages_of (VObj props2)) = 2.
Proof.
  intros E w props role text Hcur Hget Hm Htitle Hrole.
  destruct (addMessage_text "assistant" UI_STRINGS.welcome (currentConversationId w) w
              props [] Hcur ltac:(discriminate) Hget Hm)
    as (w1 & Ea & Hget1 & _ & Hcur1).
  destruct (addMessage_text role text (currentConversationId w) w1 _ _ Hcur Hrole Hget1
              (messages_with_text _ _ _ _ _))
    as (w2 & Eb & Hget2 & _ & _).
  exists w1, w2. eexists. split; [|split; [exact Eb|split; [exact Hget2|split]]].
  - unfold Agent.showWelcomeMessage.
    rewrite !bind_gets, Hget. cbn [truthy get_prop]. rewrite bind_lift_ok, Hm.
    change (get_prop (VArr []) "length") with (Ok (VNum 0%Z)).
    rewrite bind_lift_ok. cbv beta iota.
    rewrite (addMessage_default _ _ w Hcur). exact Ea.
  - rewrite !title_with_text, Htitle. reflexivity.
  - unfold messages_of, get_prop_opt. cbn [get_prop]. rewrite messages_with_text.
    reflexivity.
Qed.

Lemma X14_witness :
  exists w1 w2 props2,
    @Agent.showWelcomeMessage Examples.offline
      (snd (@Agent.createNewConversation Examples.offline
              (Examples.world (Examples.llm_settings (VStr "aipipe") (VStr "")) [])))
    = (Ok tt, w1) /\
    @Agent.addMessage Examples.offline "user" (VStr "What is the capital of France?")
      (VStr "conv_1700000000000") w1 = (Ok tt, w2) /\
    map_get (conversations w2) (VStr "conv_1700000000000") = VObj props2 /\
    lookup "title" props2 = VStr "Welcome to LeafAI! How can I a" /\
    List.length (messages_of (VObj props2)) = 2.
Proof.
  apply (X14_welcome_titles_the_conversation Examples.offline
           (snd (@Agent.createNewConversation Examples.offline
                   (Examples.world (Examples.llm_settings (VStr "aipipe") (VStr "")) [])))
           [("id", VStr "conv_1700000000000"); ("title", VStr "New Conversation");
            ("messages", VArr []); ("createdAt", VNum 1700000000001);
            ("updatedAt", VNum 1700000000002); ("preview", VStr "...")]
           "user" "What is the capital of France?").
  - reflexivity.
  - vm_compute. reflexivity.
  - reflexivity.
  - reflexivity.
  - discriminate.
Defined.

(* ===================================================================== *)
(** ** Uploaded files                                                    *)
(* ===================================================================== *)

Lemma map_set_keys (m : JsMap) (k v : value) :
  map_get m k <> VUndef -> map fst (map_set m k v) = map fst m.
Proof.
  induction m as [|[k' v'] rest IH]; cbn [map_get map_set map fst]; [congruence|].
  destruct (same_key k' k); cbn [map fst]; [reflexivity|].
  intros Hget. now rewrite IH.
Qed.

Lemma same_keys_refl (w : World) : same_keys w w.
Proof. reflexivity. Qed.

Lemma same_keys_trans (a b c : World) : same_keys a b -> same_keys b c -> same_keys a c.
Proof. unfold same_keys. congruence. Qed.

#[local] Hint Resolve same_keys_refl same_keys_trans : rel.

Lemma now_same_keys `{Env} : preserves same_keys now.
Proof. intros w r w' E. inversion E; subst. reflexivity. Qed.

#[local] Hint Resolve now_same_keys : pres.

Lemma update_conversation_same_keys `{Env} (k : value) (f : value -> result value) :
  (forall c, f VUndef <> Ok c) -> preserves same_keys (Agent.update_conversation k f).
Proof.
  intros Hf w r w' E. unfold Agent.update_conversation in E.
  destruct (f (map_get (conversations w) k)) as [c|e] eqn:Ef; inversion E; subst.
  - unfold same_keys. cbn [conversations set_conversations]. apply map_set_keys.
    intros Hu. rewrite Hu in Ef. now apply Hf in Ef.
  - reflexivity.
Qed.

Lemma addMessage_same_keys `{Env} (role : string) (content target : value) :
  preserves same_keys (Agent.addMessage role content target).
Proof.
  unfold Agent.addMessage, Agent.addMessage_body, Agent.push_message,
    Agent.touch_conversation.
  pres; apply update_conversation_same_keys; intros c; cbn; discriminate.
Qed.

Lemma handle_file_current `{Env} (file : File) (w : World) (msgs : list value) :
  truthy (currentConversationId w) = true ->
  conv_has w (currentConversationId w) msgs ->
  Agent.supported_file file = true ->
  exists w' m,
    Agent.handle_file file w = (Ok tt, w') /\
    conv_has w' (currentConversationId w) (msgs ++ [m]) /\
    displayed "system" (VStr (Agent.upload_note file)) m /\
    currentConversationId w' = currentConversationId w /\
    same_keys w w'.
Proof.
  intros Hcur Hc Hs.
  destruct (addMessage_appends "system" (VStr (Agent.upload_note file)) (currentConversationId w)
              w msgs Hcur eq_refl Hc) as (w' & m & Ea & Hd & Hc').
  exists w', m. repeat split; auto.
  - unfold Agent.handle_file. rewrite Hs, bind_gets, Hcur.
    unfold bind at 1, ret at 1. exact Ea.
  - destruct Hd as (_ & Hd). exact Hd.
  - pose proof (addMessage_grows (fun _ => True) (currentConversationId w) "system" _ _
                  (fun _ _ => I) _ _ _ Ea) as (_ & C & _). exact C.
  - exact (addMessage_same_keys _ _ _ _ _ _ Ea).
Qed.

Lemma handle_file_other `{Env} (file : File) (w : World) :
  Agent.supported_file file = false -> Agent.handle_file file w = (Ok tt, w).
Proof. intros Hs. unfold Agent.handle_file. now rewrite Hs. Qed.

Lemma handleFiles_current `{Env} (files : list File) :
  forall (w : World) (msgs : list value),
    truthy (currentConversationId w) = true ->
    conv_has w (currentConversationId w) msgs ->
    exists w' notes,
      Agent.handleFiles files w = (Ok tt, w') /\
      conv_has w' (currentConversationId w) (msgs ++ notes) /\
      Forall2 (fun file m => displayed "system" (VStr (Agent.upload_note file)) m)
        (filter Agent.supported_file files) notes /\
      currentConversationId w' = currentConversationId w /\
      same_keys w w'.
Proof.
  induction files as [|file rest IH]; intros w msgs Hcur Hc.
  - exists w, []. rewrite app_nil_r. repeat split; auto.
  - cbn [Agent.handleFiles filter]. destruct (Agent.supported_file file) eqn:Hs.
    + destruct (handle_file_current file w msgs Hcur Hc Hs)
        as (w1 & m & E1 & Hc1 & Hd & Hcur1 & Hk1).
      destruct (IH w1 (msgs ++ [m])) as (w2 & notes & E2 & Hc2 & Hf & Hcur2 & Hk2).
      { now rewrite Hcur1. }
      { now rewrite Hcur1. }
      exists w2, (m :: notes). rewrite (bind_ok _ _ _ _ _ E1).
      split; [exact E2|]. split.
      { rewrite Hcur1, <- app_assoc in Hc2. exact Hc2. }
      split; [constructor; auto|]. split; [congruence|].
      eapply same_keys_trans; eauto.
    + rewrite (bind_ok _ _ _ _ _ (handle_file_other file w Hs)). apply IH; auto.
Qed.





(* ===================================================================== *)
(** ** The context menu                                                  *)
(* ===================================================================== *)

Lemma has_id_ok (msgId : string) (m : value) :
  is_nullish m = false -> Agent.has_id msgId m = Ok (carries msgId m).
Proof.
  intros Hm. unfold Agent.has_id, carries. now rewrite (get_prop_ok m "id" Hm).
Qed.

Lemma has_other_id_ok (msgId : string) (m : value) :
  is_nullish m = false -> Agent.has_other_id msgId m = Ok (negb (carries msgId m)).
Proof.
  intros Hm. unfold Agent.has_other_id, carries. now rewrite (get_prop_ok m "id" Hm).
Qed.

Lemma carrier_is_object (msgId : string) (m : value) :
  carries msgId m = true -> exists props, m = VObj props.
Proof.
  unfold carries, get_prop_opt. destruct m; cbn; try discriminate. eauto.
Qed.

Lemma filterR_other (msgId : string) (msgs : list value) :
  sendable msgs ->
  filterR (Agent.has_other_id msgId) msgs
  = Ok (filter (fun m => negb (carries msgId m)) msgs).
Proof.
  induction 1 as [|m rest Hm Hrest IH]; [reflexivity|].
  cbn [filterR filter]. rewrite (has_other_id_ok msgId m Hm). cbn [rbind].
  rewrite IH. reflexivity.
Qed.

Lemma filter_none_carries (msgId : string) (msgs : list value) :
  existsb (carries msgId) msgs = false ->
  filter (fun m => negb (carries msgId m)) msgs = msgs.
Proof.
  induction msgs as [|m rest IH]; [reflexivity|]. cbn [existsb filter].
  intros Hx. apply orb_false_elim in Hx. destruct Hx as (Hm & Hr).
  rewrite Hm. cbn [negb]. now rewrite IH.
Qed.

Lemma find_from_none (msgId : string) (msgs : list value) :
  sendable msgs -> existsb (carries msgId) msgs = false ->
  forall i, find_from (Agent.has_id msgId) i msgs = Ok None.
Proof.
  induction 1 as [|m rest Hm Hrest IH]; [reflexivity|]. cbn [existsb find_from].
  intros Hx i. apply orb_false_elim in Hx. destruct Hx as (Hc & Hr).
  rewrite (has_id_ok msgId m Hm), Hc. cbn [rbind]. auto.
Qed.

Lemma find_from_first (msgId : string) (before : list value) (m : value) (after : list value) :
  sendable before ->
  Forall (fun x => carries msgId x = false) before ->
  carries msgId m = true ->
  forall i,
    find_from (Agent.has_id msgId) i (before ++ m :: after)
    = Ok (Some (i + List.length before, m)).
Proof.
  intros Hs Hn Hc. induction Hs as [|x rest Hx Hrest IH]; intros i.
  - cbn [app find_from List.length].
    destruct (carrier_is_object msgId m Hc) as (props & ->).
    rewrite (has_id_ok msgId (VObj props) eq_refl), Hc. cbn [rbind].
    now rewrite Nat.add_0_r.
  - inversion Hn as [|x0 rest0 Hcx Hnrest]; subst.
    cbn [app find_from List.length]. rewrite (has_id_ok msgId x Hx), Hcx. cbn [rbind].
    rewrite (IH Hnrest (S i)). f_equal. f_equal. f_equal. lia.
Qed.

(** The list split at the first message that carries the id. *)
Lemma first_carrier (msgId : string) (msgs : list value) :
  sendable msgs -> existsb (carries msgId) msgs = true ->
  exists before m after,
    msgs = before ++ m :: after /\ sendable before /\
    Forall (fun x => carries msgId x = false) before /\ carries msgId m = true.
Proof.
  induction 1 as [|x rest Hx Hrest IH]; [discriminate|]. cbn [existsb].
  destruct (carries msgId x) eqn:Hc.
  - intros _. exists [], x, rest. repeat split; auto; constructor.
  - cbn [orb]. intros Hr. destruct (IH Hr) as (before & m & after & -> & Hs & Hn & Hm).
    exists (x :: before), m, after. repeat split; auto; constructor; auto.
Qed.

Lemma update_at_middle (f : value -> result value) (before : list value) (m m' : value)
    (after : list value) :
  f m = Ok m' ->
  update_at (List.length before) f (before ++ m :: after) = Ok (before ++ m' :: after).
Proof.
  intros Hf. induction before as [|x rest IH]; cbn [List.length app update_at].
  - now rewrite Hf.
  - now rewrite IH.
Qed.

(** The delete action on a log without null entries. *)
Lemma delete_run `{Env} (w : World) (msgId : string) (inputPresent : bool)
    (props : list (string * value)) (msgs : list value) :
  msgId <> "" ->
  map_get (conversations w) (currentConversationId w) = VObj props ->
  lookup "messages" props = VArr msgs ->
  sendable msgs ->
  exists w',
    Agent.handleContextAction (Some msgId) inputPresent (VStr "delete") w = (Ok tt, w') /\
    conv_has w' (currentConversationId w) (filter (fun m => negb (carries msgId m)) msgs) /\
    currentConversationId w' = currentConversationId w /\
    (existsb (carries msgId) msgs = false -> w' = w) /\
    (existsb (carries msgId) msgs = true -> autosaving w ->
     stored_conversations w' = Some (store_text (conversations w'))).
Proof.
  intros Hid Hget Hm Hs. apply String.eqb_neq in Hid.
  unfold Agent.handleContextAction. rewrite Hid, !bind_gets, Hget.
  cbn [truthy negb get_prop]. rewrite bind_lift_ok, Hm. cbn [array_find].
  destruct (existsb (carries msgId) msgs) eqn:Hx.
  - destruct (first_carrier msgId msgs Hs Hx) as (before & m & after & Hsplit & Hsb & Hn & Hc).
    assert (Hfind : find_from (Agent.has_id msgId) 0 msgs
                    = Ok (Some (0 + List.length before, m))).
    { rewrite Hsplit. apply find_from_first; auto. }
    rewrite Hfind, bind_lift_ok. clear Hfind.
    destruct (carrier_is_object msgId m Hc) as (mprops & ->).
    cbn [truthy negb str_is String.eqb Ascii.eqb Bool.eqb array_filter].
    rewrite (filterR_other msgId msgs Hs), bind_lift_ok.
    set (kept := filter (fun m => negb (carries msgId m)) msgs).
    destruct (update_conversation_object (currentConversationId w)
                (fun c => set_prop c "messages" (VArr kept)) w props _ Hget eq_refl)
      as (E1 & G1).
    rewrite (bind_ok _ _ _ _ _ E1).
    set (w1 := set_conversations
                 (map_set (conversations w) (currentConversationId w)
                    (VObj (assign "messages" (VArr kept) props))) w) in *.
    destruct (saveCurrentConversation_result w1) as (w2 & E2 & Hcases & Hauto).
    rewrite (bind_ok _ _ _ _ _ E2).
    assert (Hconv2 : conversations w2 = conversations w1)
      by (destruct Hcases as [-> | ->]; reflexivity).
    assert (Hcur2 : currentConversationId w2 = currentConversationId w)
      by (destruct Hcases as [-> | ->]; reflexivity).
    assert (G2 : map_get (conversations w2) (currentConversationId w)
                 = VObj (assign "messages" (VArr kept) props))
      by (rewrite Hconv2; exact G1).
    pose proof (loadConversation_array (currentConversationId w) w2 _ kept G2
                  (lookup_assign_same "messages" (VArr kept) props)) as E3.
    set (w3 := if truthy (currentConversationId w)
               then set_currentConversationId (currentConversationId w) w2 else w2) in *.
    assert (Hconv3 : conversations w3 = conversations w2)
      by (unfold w3; destruct (truthy (currentConversationId w)); reflexivity).
    assert (Hcur3 : currentConversationId w3 = currentConversationId w)
      by (unfold w3; destruct (truthy (currentConversationId w)); auto).
    assert (Hstored3 : stored_conversations w3 = stored_conversations w2)
      by (unfold w3; destruct (truthy (currentConversationId w)); reflexivity).
    exists w3. split; [exact E3|].
    split; [|split; [exact Hcur3|split; [discriminate|]]].
    + exists (assign "messages" (VArr kept) props). split.
      * rewrite Hconv3, Hconv2. exact G1.
      * apply lookup_assign_same.
    + intros _ Hon. rewrite Hstored3, (Hauto Hon), Hconv3, Hconv2. reflexivity.
  - rewrite (find_from_none msgId msgs Hs Hx 0), bind_lift_ok.
    exists w. split; [reflexivity|]. split.
    + rewrite (filter_none_carries msgId msgs Hx). exists props. auto.
    + split; [reflexivity|]. split; [reflexivity|discriminate].
Qed.

(** X17 — The delete action of the context menu removes from the current
    conversation every message that carries the selected id and nothing
    else, keeping the order of the rest; with auto-save on the store is
    written at once.  When no message carries the id nothing changes. *)
Theorem X17_delete_removes_by_id :
  forall (E : Env) (w : World) (msgId : string) (inputPresent : bool)
         (props : list (string * value)) (msgs : list value),
    msgId <> "" ->
    map_get (conversations w) (currentConversationId w) = VObj props ->
    lookup "messages" props = VArr msgs ->
    sendable msgs ->
    exists w',
      Agent.handleContextAction (Some msgId) inputPresent (VStr "delete") w = (Ok tt, w') /\
      conv_has w' (currentConversationId w) (filter (fun m => negb (carries msgId m)) msgs) /\
      (existsb (carries msgId) msgs = false -> w' = w) /\
      (existsb (carries msgId) msgs = true -> autosaving w ->
       stored_conversations w' = Some (store_text (conversations w'))).
Proof.
  intros E w msgId inputPresent props msgs Hid Hget Hm Hs.
  destruct (delete_run w msgId inputPresent props msgs Hid Hget Hm Hs)
    as (w' & Er & Hc & _ & Hnone & Hsaved).
  exists w'. auto.
Qed.

Lemma X17_witness :
  exists w',
    @Agent.handleContextAction Examples.offline (Some "msg_1") true (VStr "delete")
      (Examples.world (Examples.llm_settings (VStr "aipipe") (VStr ""))
         [Examples.user_message; Examples.blank_message; Examples.user_message])
    = (Ok tt, w') /\
    conv_has w' (VStr "conv_1") [Examples.blank_message] /\
    (true = false ->
     w' = Examples.world (Examples.llm_settings (VStr "aipipe") (VStr ""))
            [Examples.user_message; Examples.blank_message; Examples.user_message]) /\
    (true = true ->
     autosaving (Examples.world (Examples.llm_settings (VStr "aipipe") (VStr ""))
                   [Examples.user_message; Examples.blank_message; Examples.user_message]) ->
     stored_conversations w' = Some (@store_text Examples.offline (conversations w'))).
Proof.
  apply (X17_delete_removes_by_id Examples.offline
           (Examples.world (Examples.llm_settings (VStr "aipipe") (VStr ""))
              [Examples.user_message; Examples.blank_message; Examples.user_message])
           "msg_1" true
           [("id", VStr "conv_1"); ("title", VStr "hello");
            ("messages",
             VArr [Examples.user_message; Examples.blank_message; Examples.user_message]);
            ("createdAt", VNum 1); ("updatedAt", VNum 1); ("preview", VStr "hello")]
           [Examples.user_message; Examples.blank_message; Examples.user_message]).
  - discriminate.
  - reflexivity.
  - reflexivity.
  - repeat constructor.
Defined.

(** X18 — The bookmark action marks the first message that carries the
    selected id, in place, and nothing else: the other messages and the order
    of the log are as before, and the stored item is not written (the mark is
    not saved until something else saves the store). *)
Theorem X18_bookmark_marks_the_first :
  forall (E : Env) (w : World) (msgId : string) (inputPresent : bool)
         (props mprops : list (string * value)) (before after : list value),
    msgId <> "" ->
    map_get (conversations w) (currentConversationId w) = VObj props ->
    lookup "messages" props = VArr (before ++ VObj mprops :: after) ->
    sendable before ->
    Forall (fun x => carries msgId x = false) before ->
    carries msgId (VObj mprops) = true ->
    exists w',
      Agent.handleContextAction (Some msgId) inputPresent (VStr "bookmark") w = (Ok tt, w') /\
      conv_has w' (currentConversationId w)
        (before ++ VObj (assign "bookmarked" (VBool true) mprops) :: after) /\
      stored_conversations w' = stored_conversations w.
Proof.
  intros E w msgId inputPresent props mprops before after Hid Hget Hm Hs Hn Hc.
  apply String.eqb_neq in Hid.
  unfold Agent.handleContextAction. rewrite Hid, !bind_gets, Hget.
  cbn [truthy negb get_prop]. rewrite bind_lift_ok, Hm. cbn [array_find].
  rewrite (find_from_first msgId before (VObj mprops) after Hs Hn Hc 0), bind_lift_ok.
  cbn [truthy negb str_is String.eqb Ascii.eqb Bool.eqb Nat.add].
  destruct (update_conversation_object (currentConversationId w)
              (Agent.bookmark_at (List.length before)) w props
              (VObj (assign "messages"
                       (VArr (before ++ VObj (assign "bookmarked" (VBool true) mprops) :: after))
                       props)) Hget) as (E1 & G1).
  { unfold Agent.bookmark_at. rewrite Hm.
    rewrite (update_at_middle _ before (VObj mprops)
               (VObj (assign "bookmarked" (VBool true) mprops)) after eq_refl).
    reflexivity. }
  eexists. split; [exact E1|]. split; [|reflexivity].
  eexists. split; [exact G1|]. apply lookup_assign_same.
Qed.

Lemma X18_witness :
  exists w',
    @Agent.handleContextAction Examples.offline (Some "msg_2") false (VStr "bookmark")
      (Examples.world (Examples.llm_settings (VStr "aipipe") (VStr ""))
         [Examples.user_message; Examples.blank_message; Examples.blank_message])
    = (Ok tt, w') /\
    conv_has w' (VStr "conv_1")
      ([Examples.user_message]
         ++ VObj (assign "bookmarked" (VBool true)
                    [("id", VStr "msg_2"); ("role", VStr "assistant"); ("content", VStr "");
                     ("timestamp", VNum 2)])
         :: [Examples.blank_message]) /\
    stored_conversations w' = None.
Proof.
  apply (X18_bookmark_marks_the_first Examples.offline
           (Examples.world (Examples.llm_settings (VStr "aipipe") (VStr ""))
              [Examples.user_message; Examples.blank_message; Examples.blank_message])
           "msg_2" false
           [("id", VStr "conv_1"); ("title", VStr "hello");
            ("messages",
             VArr [Examples.user_message; Examples.blank_message; Examples.blank_message]);
            ("createdAt", VNum 1); ("updatedAt", VNum 1); ("preview", VStr "hello")]
           [("id", VStr "msg_2"); ("role", VStr "assistant"); ("content", VStr "");
            ("timestamp", VNum 2)]
           [Examples.user_message] [Examples.blank_message]).
  - discriminate.
  - reflexivity.
  - reflexivity.
  - repeat constructor.
  - repeat constructor.
  - reflexivity.
Defined.

Lemma carries_new_message (t0 t1 : Z) (role : string) (content : value) :
  carries ("msg_" ^^ num_to_string t0) (Agent.new_message t0 role content t1) = true.
Proof. unfold carries, Agent.new_message, get_prop_opt. cbn [get_prop lookup]. cbn. apply String.eqb_refl. Qed.

(** X19 — Message ids are made of the millisecond of their creation, so two
    messages added while the clock shows the same millisecond share their id,
    and the delete action on one removes both: after two addMessage calls in
    one millisecond and a delete of that id, the log holds neither message. *)
Theorem X19_same_millisecond_same_id :
  forall (E : Env) (w : World) (props : list (string * value)) (msgs : list value)
         (role1 role2 text1 text2 : string) (inputPresent : bool),
    truthy (currentConversationId w) = true ->
    map_get (conversations w) (currentConversationId w) = VObj props ->
    lookup "messages" props = VArr msgs ->
    sendable msgs ->
    role1 <> "system" ->
    role2 <> "system" ->
    Date_now (3 + clock w) = Date_now (clock w) ->
    exists w1 w2 w3 m1 m2,
      Agent.addMessage role1 (VStr text1) (currentConversationId w) w = (Ok tt, w1) /\
      Agent.addMessage role2 (VStr text2) (currentConversationId w) w1 = (Ok tt, w2) /\
      conv_has w2 (currentConversationId w) (msgs ++ [m1; m2]) /\
      displayed role1 (VStr text1) m1 /\ displayed role2 (VStr text2) m2 /\
      Agent.handleContextAction (Some ("msg_" ^^ num_to_string (Date_now (clock w))))
        inputPresent (VStr "delete") w2 = (Ok tt, w3) /\
      conv_has w3 (currentConversationId w)
        (filter (fun m => negb (carries ("msg_" ^^ num_to_string (Date_now (clock w))) m))
           msgs).
Proof.
  intros E w props msgs role1 role2 text1 text2 inputPresent
         Hcur Hget Hm Hs Hr1 Hr2 Hclock.
  destruct (addMessage_text role1 text1 (currentConversationId w) w props msgs
              Hcur Hr1 Hget Hm) as (w1 & E1 & G1 & C1 & I1).
  destruct (addMessage_text role2 text2 (currentConversationId w) w1 _ _
              Hcur Hr2 G1 (messages_with_text _ _ _ _ _)) as (w2 & E2 & G2 & _ & I2).
  set (m1 := Agent.new_message (Date_now (clock w)) role1 (VStr text1)
               (Date_now (S (clock w)))) in *.
  set (m2 := Agent.new_message (Date_now (clock w1)) role2 (VStr text2)
               (Date_now (S (clock w1)))) in *.
  set (id := "msg_" ^^ num_to_string (Date_now (clock w))).
  assert (Hc1 : carries id m1 = true) by apply carries_new_message.
  assert (Hc2 : carries id m2 = true).
  { unfold id, m2. rewrite C1. change (S (S (S (clock w)))) with (3 + clock w).
    rewrite <- Hclock. apply carries_new_message. }
  assert (Hcur2 : currentConversationId w2 = currentConversationId w) by congruence.
  assert (Hget2 : map_get (conversations w2) (currentConversationId w2) = VObj
            (with_text (clock w1) role2 text2 (msgs ++ [m1])
               (with_text (clock w) role1 text1 msgs props))).
  { rewrite Hcur2. exact G2. }
  destruct (delete_run w2 id inputPresent _ ((msgs ++ [m1]) ++ [m2]) ltac:(discriminate)
              Hget2 (messages_with_text _ _ _ _ _))
    as (w3 & E3 & Hc3 & _).
  { unfold sendable. rewrite !Forall_app. repeat split; auto; repeat constructor. }
  exists w1, w2, w3, m1, m2.
  split; [exact E1|]. split; [exact E2|]. split.
  { eexists. split; [exact G2|]. rewrite messages_with_text, <- app_assoc. reflexivity. }
  split; [split; [reflexivity|unfold m1; eauto]|].
  split; [split; [reflexivity|unfold m2; eauto]|].
  split; [exact E3|].
  rewrite Hcur2 in Hc3. rewrite !filter_app in Hc3. cbn [filter] in Hc3.
  rewrite Hc1, Hc2 in Hc3. cbn [negb] in Hc3. rewrite !app_nil_r in Hc3. exact Hc3.
Qed.

Lemma X19_witness :
  exists w1 w2 w3 m1 m2,
    @Agent.addMessage Examples.frozen "user" (VStr "hello") (VStr "conv_1")
      (Examples.world (Examples.llm_settings (VStr "aipipe") (VStr "")) [])
    = (Ok tt, w1) /\
    @Agent.addMessage Examples.frozen "assistant" (VStr "hi") (VStr "conv_1") w1
    = (Ok tt, w2) /\
    conv_has w2 (VStr "conv_1") ([] ++ [m1; m2]) /\
    displayed "user" (VStr "hello") m1 /\ displayed "assistant" (VStr "hi") m2 /\
    @Agent.handleContextAction Examples.frozen (Some "msg_1700000000000") true
      (VStr "delete") w2 = (Ok tt, w3) /\
    conv_has w3 (VStr "conv_1") [].
Proof.
  apply (X19_same_millisecond_same_id Examples.frozen
           (Examples.world (Examples.llm_settings (VStr "aipipe") (VStr "")) [])
           [("id", VStr "conv_1"); ("title", VStr "hello"); ("messages", VArr []);
            ("createdAt", VNum 1); ("updatedAt", VNum 1); ("preview", VStr "hello")]
           [] "user" "assistant" "hello" "hi" true).
  - reflexivity.
  - reflexivity.
  - reflexivity.
  - constructor.
  - discriminate.
  - discriminate.
  - reflexivity.
Defined.

(** *** Clearing a conversation *)

(** X20 — clearConversationMessages empties the current conversation only
    when the user confirms: a declined dialog changes nothing; a confirmed one
    leaves the conversation with no message and the preview "Cleared", keeps
    its title, touches no other conversation, and with auto-save on writes
    the store. *)
Theorem X20_clear_when_confirmed :
  forall (E : Env) (w : World) (props : list (string * value)),
    truthy (currentConversationId w) = true ->
    map_get (conversations w) (currentConversationId w) = VObj props ->
    Agent.clearConversationMessages false w = (Ok tt, w) /\
    exists w' props',
      Agent.clearConversationMessages true w = (Ok tt, w') /\
      map_get (conversations w') (currentConversationId w) = VObj props' /\
      lookup "messages" props' = VArr [] /\
      lookup "preview" props' = VStr "Cleared" /\
      lookup "title" props' = lookup "title" props /\
      (forall k, same_key (currentConversationId w) k = false ->
                 map_get (conversations w') k = map_get (conversations w) k) /\
      (autosaving w -> stored_conversations w' = Some (store_text (conversations w'))).
Proof.
  intros E w props Hcur Hget. split.
  - unfold Agent.clearConversationMessages. now rewrite bind_gets, Hcur.
  - set (cur := currentConversationId w) in *.
    set (p1 := assign "messages" (VArr []) props).
    set (p2 := assign "preview" (VStr "Cleared") p1).
    set (p3 := assign "updatedAt" (VNum (Date_now (clock w))) p2).
    destruct (update_conversation_object cur (fun c => set_prop c "messages" (VArr []))
                w props (VObj p1) Hget eq_refl) as (E1 & G1).
    set (w1 := set_conversations (map_set (conversations w) cur (VObj p1)) w) in *.
    destruct (update_conversation_object cur (fun c => set_prop c "preview" (VStr "Cleared"))
                w1 p1 (VObj p2) G1 eq_refl) as (E2 & G2).
    set (w2 := set_conversations (map_set (conversations w1) cur (VObj p2)) w1) in *.
    set (w2c := set_clock (S (clock w2)) w2).
    assert (G2c : map_get (conversations w2c) cur = VObj p2) by exact G2.
    destruct (update_conversation_object cur
                (fun c => set_prop c "updatedAt" (VNum (Date_now (clock w))))
                w2c p2 (VObj p3) G2c eq_refl) as (E3 & G3).
    set (w3 := set_conversations (map_set (conversations w2c) cur (VObj p3)) w2c) in *.
    set (w4 := set_currentConversationId cur w3).
    destruct (saveCurrentConversation_result w4) as (w5 & E5 & Hcases & Hauto).
    assert (Hconv5 : conversations w5 = conversations w3)
      by (destruct Hcases as [-> | ->]; reflexivity).
    exists w5, p3. split; [|split; [|split; [|split; [|split; [|split]]]]].
    + unfold Agent.clearConversationMessages. rewrite bind_gets. fold cur.
      rewrite Hcur. cbn [negb]. rewrite bind_gets. fold cur. rewrite Hget. cbn [truthy negb].
      rewrite (bind_ok _ _ _ _ _ E1), (bind_ok _ _ _ _ _ E2).
      unfold bind at 1, now at 1. fold w2c.
      change (Date_now (clock w2)) with (Date_now (clock w)).
      rewrite (bind_ok _ _ _ _ _ E3).
      assert (Hm3 : lookup "messages" p3 = VArr []).
      { unfold p3, p2, p1. rewrite !lookup_assign_other by discriminate.
        apply lookup_assign_same. }
      rewrite (bind_ok _ _ _ _ _ (loadConversation_array cur w3 p3 [] G3 Hm3)).
      rewrite Hcur. fold w4. exact E5.
    + rewrite Hconv5. exact G3.
    + unfold p3, p2, p1. rewrite !lookup_assign_other by discriminate.
      apply lookup_assign_same.
    + unfold p3, p2. rewrite lookup_assign_other by discriminate.
      apply lookup_assign_same.
    + unfold p3, p2, p1. rewrite !lookup_assign_other by discriminate. reflexivity.
    + intros k Hk. rewrite Hconv5. unfold w3, w2c, w2, w1.
      cbn [conversations set_conversations set_clock].
      rewrite !map_get_set_other by exact Hk. reflexivity.
    + intros Hon. rewrite (Hauto Hon). reflexivity.
Qed.

Lemma X20_witness :
  @Agent.clearConversationMessages Examples.offline false Examples.saving_world
  = (Ok tt, Examples.saving_world) /\
  exists w' props',
    @Agent.clearConversationMessages Examples.offline true Examples.saving_world
    = (Ok tt, w') /\
    map_get (conversations w') (VStr "conv_1") = VObj props' /\
    lookup "messages" props' = VArr [] /\
    lookup "preview" props' = VStr "Cleared" /\
    lookup "title" props' = VStr "hello" /\
    (forall k, same_key (VStr "conv_1") k = false ->
               map_get (conversations w') k = map_get (conversations Examples.saving_world) k) /\
    (autosaving Examples.saving_world ->
     stored_conversations w' = Some (@store_text Examples.offline (conversations w'))).
Proof.
  apply (X20_clear_when_confirmed Examples.offline Examples.saving_world
           [("id", VStr "conv_1"); ("title", VStr "hello");
            ("messages", VArr [Examples.user_message; Examples.tool_note]);
            ("createdAt", VNum 1); ("updatedAt", VNum 1); ("preview", VStr "hello")]).
  - reflexivity.
  - reflexivity.
Defined.

(* ===================================================================== *)
(** ** The exported document                                             *)
(* ===================================================================== *)

Lemma underscored_no_space (in_run : bool) (s : string) : no_space (underscored in_run s).
Proof.
  revert in_run. induction s as [|c rest IH]; intros in_run; cbn [underscored]; [exact I|].
  destruct (is_space c) eqn:Hc.
  - destruct in_run; [apply IH|]. split; [reflexivity | apply IH].
  - split; [exact Hc | apply IH].
Qed.

Lemma no_space_append (a b : string) : no_space a -> no_space b -> no_space (a ^^ b).
Proof.
  induction a as [|c rest IH]; cbn; [auto|]. intros (Hc & Hr) Hb. split; auto.
Qed.

Lemma substring_whole (s : string) : String.substring 0 (String.length s) s = s.
Proof. induction s as [|c rest IH]; cbn; [reflexivity|]. now rewrite IH. Qed.

Lemma length_append (a b : string) :
  String.length (a ^^ b) = String.length a + String.length b.
Proof. induction a as [|c rest IH]; cbn; [reflexivity|]. now rewrite IH. Qed.

Lemma substring_after (a b : string) :
  String.substring (String.length a) (String.length b) (a ^^ b) = b.
Proof.
  induction a as [|c rest IH]; cbn [String.length String.append].
  - apply substring_whole.
  - cbn [String.substring]. exact IH.
Qed.

Lemma endsWith_append (a b : string) : endsWith (a ^^ b) b = true.
Proof.
  unfold endsWith. rewrite length_append.
  replace (String.length a + String.length b - String.length b) with (String.length a) by lia.
  rewrite substring_after, String.eqb_refl, andb_true_r.
  apply Nat.leb_le. lia.
Qed.

Lemma prefix_grows (p a b : string) :
  String.prefix p a = true -> String.prefix p (a ^^ b) = true.
Proof.
  revert a. induction p as [|c p IH]; intros a; [destruct a; cbn; destruct b; reflexivity|].
  destruct a as [|d a]; cbn; [discriminate|].
  destruct (ascii_dec c d); [apply IH | discriminate].
Qed.

Lemma prefix_fold (p : string) (blocks : list string) :
  forall acc, String.prefix p acc = true ->
              String.prefix p (fold_left String.append blocks acc) = true.
Proof.
  induction blocks as [|b rest IH]; intros acc Hp; cbn [fold_left]; [exact Hp|].
  apply IH, prefix_grows, Hp.
Qed.

Lemma export_name_shape `{Env} (conv : value) (name : string) :
  Agent.export_name conv = Ok name ->
  endsWith name ".md" = true /\ no_space name.
Proof.
  unfold Agent.export_name. destruct (get_prop conv "title") as [title|e]; [|discriminate].
  cbn [rbind]. destruct (js_or title (VStr "conversation")); try discriminate.
  intros E. inversion E; subst. split.
  - apply endsWith_append.
  - apply no_space_append; [apply underscored_no_space|]. cbn. repeat split.
Qed.

Lemma export_content_shape `{Env} (conv : value) (content : string) :
  Agent.export_content conv = Ok content -> String.prefix "# " content = true.
Proof.
  unfold Agent.export_content.
  destruct (get_prop conv "title") as [title|e]; [|discriminate]. cbn [rbind].
  destruct (ToString title) as [heading|e]; [|discriminate]. cbn [rbind].
  destruct (get_prop conv "messages") as [messages|e]; [|discriminate]. cbn [rbind].
  match goal with |- rbind ?x _ = _ -> _ => destruct x as [blocks|e] end; [|discriminate].
  cbn [rbind]. intros E. inversion E; subst.
  apply prefix_fold. apply (prefix_append "# ").
Qed.

(** X21 — exportConversation never throws and never changes the state.
    When it offers a file, the file name ends in ".md" and holds no white
    space (every run of white space of the title has become one underscore),
    and the text starts with the heading of the title. *)
Theorem X21_export_document :
  forall (E : Env) (w : World),
    exists r,
      Agent.exportConversation w = (Ok r, w) /\
      match r with
      | Some (name, content) =>
          endsWith name ".md" = true /\ no_space name /\ String.prefix "# " content = true
      | None => True
      end.
Proof.
  intros E w. unfold Agent.exportConversation, try_catch. rewrite !bind_gets.
  destruct (negb (truthy (map_get (conversations w) (currentConversationId w)))).
  { exists None. split; [reflexivity|exact I]. }
  destruct (Agent.export_content (map_get (conversations w) (currentConversationId w)))
    as [content|e] eqn:Ec.
  - rewrite bind_lift_ok.
    destruct (Agent.export_name (map_get (conversations w) (currentConversationId w)))
      as [name|e] eqn:En.
    + rewrite bind_lift_ok. exists (Some (name, content)). split; [reflexivity|].
      destruct (export_name_shape _ _ En). split; [|split]; auto.
      eapply export_content_shape; eauto.
    + exists None. split; [reflexivity|exact I].
  - exists None. split; [reflexivity|exact I].
Qed.

(** The export of a conversation titled "My  first chat". *)
Example exported_example :
  fst (@Agent.exportConversation Examples.offline
         {| conversations :=
              [(VStr "c",
                VObj [("title", VStr "My  first chat");
                      ("messages", VArr [Examples.user_message; Examples.tool_note])])];
            currentConversationId := VStr "c"; isProcessing := false;
            settings := VNull; apiCalls := 0; stored_conversations := None;
            clock := 0; trace := [] |})
  = Ok (Some ("My_first_chat.md",
              "# My  first chat" ^^ newline ^^ newline
                ^^ "**User**: hello" ^^ newline ^^ newline
                ^^ "**Tool**: {}" ^^ newline ^^ newline)).
Proof. reflexivity. Qed.

(* ===================================================================== *)
(** ** The list of AI Pipe models                                        *)
(* ===================================================================== *)

Lemma unique_fold (xs : list value) :
  forall seen,
    distinct_values seen ->
    let r := fold_left (fun seen x => if existsb (same_key x) seen then seen else seen ++ [x])
               xs seen in
    distinct_values r /\
    (forall y, In y seen -> In y r) /\
    (forall y, In y xs -> In y r) /\
    (forall y, In y r -> In y seen \/ In y xs).
Proof.
  assert (Hsnoc : forall seen x, distinct_values seen ->
                                 existsb (same_key x) seen = false ->
                                 distinct_values (seen ++ [x])).
  { induction seen as [|s rest IH]; intros x Hd Hx; cbn [app distinct_values].
    - split; [constructor|exact I].
    - cbn [existsb] in Hx. apply orb_false_elim in Hx. destruct Hx as (Hs & Hr).
      destruct Hd as (Hall & Hd). split; [|auto].
      apply Forall_app. split; [exact Hall|]. constructor; [exact Hs|constructor]. }
  induction xs as [|x rest IH]; intros seen Hd; cbn [fold_left].
  - repeat split; auto. intros y [].
  - destruct (existsb (same_key x) seen) eqn:Hx.
    + destruct (IH seen Hd) as (D & S & X & R). repeat split; auto.
      * intros y [<-|Hy]; auto. apply S.
        apply existsb_exists in Hx. destruct Hx as (s & Hin & Hs).
        apply same_key_eq in Hs. now subst.
      * intros y Hy. destruct (R y Hy); auto. right. now right.
    + destruct (IH (seen ++ [x]) (Hsnoc _ _ Hd Hx)) as (D & S & X & R). repeat split; auto.
      * intros y Hy. apply S, in_or_app. now left.
      * intros y [<-|Hy]; auto. apply S, in_or_app. right. now left.
      * intros y Hy. destruct (R y Hy) as [Hs|Hr]; [|right; now right].
        apply in_app_or in Hs. destruct Hs as [Hs|[<-|[]]]; auto. right. now left.
Qed.

Lemma unique_spec (xs : list value) :
  distinct_values (unique xs) /\ (forall y, In y (unique xs) <-> In y xs).
Proof.
  destruct (unique_fold xs [] I) as (D & _ & X & R). split; [exact D|].
  intros y. split; [|apply X]. intros Hy. destruct (R y Hy) as [[]|Hr]. exact Hr.
Qed.

(** The end of each branch of a try block that asks an endpoint. *)
Ltac asked Hnot :=
  eexists; split; [reflexivity | intros Hoff; first [reflexivity | destruct (Hnot Hoff)]].

Lemma openrouter_models_run `{Env} (token : string) (w : World) :
  exists sets,
    Agent.openrouter_models token w
    = (Ok sets,
       set_trace (trace w ++ [EvFetch (get_request "https://aipipe.org/openrouter/v1/models"
                                         (Agent.bearer token))]) w) /\
    ((forall k req, match fetch k req with
                    | Responded r => resp_ok r = false
                    | Rejected _ => True
                    end) -> sets = []).
Proof.
  unfold Agent.openrouter_models, try_catch, bind, do_fetch, lift, ret.
  match goal with |- context [fetch ?n ?q] =>
    pose proof (fun Hoff : forall k req, match fetch k req with
                                         | Responded r => resp_ok r = false
                                         | Rejected _ => True
                                         end => Hoff n q) as Hk;
    destruct (fetch n q) as [e|r]
  end.
  { eexists. split; [reflexivity|auto]. }
  destruct (resp_ok r) eqn:Hok.
  2:{ eexists. split; [reflexivity|auto]. }
  assert (Hnot : (forall k req, match fetch k req with
                                | Responded r => resp_ok r = false
                                | Rejected _ => True
                                end) -> False).
  { intros Hoff. specialize (Hk Hoff). congruence. }
  destruct (resp_json r) as [d1|e]; [|asked Hnot].
  destruct (get_prop d1 "models") as [models|e]; [|asked Hnot].
  destruct models as [| | | | |ms|];
    try (destruct d1 as [| | | | |ds|]; try asked Hnot;
         destruct (mapR Agent.name_or_id ds); asked Hnot).
  destruct (mapR Agent.name_or_id ms); asked Hnot.
Qed.

Lemma openai_models_run `{Env} (token : string) (w : World) :
  exists sets,
    Agent.openai_models token w
    = (Ok sets,
       set_trace (trace w ++ [EvFetch (get_request "https://aipipe.org/openai/v1/models"
                                         (Agent.bearer token))]) w) /\
    ((forall k req, match fetch k req with
                    | Responded r => resp_ok r = false
                    | Rejected _ => True
                    end) -> sets = []).
Proof.
  unfold Agent.openai_models, try_catch, bind, do_fetch, lift, ret.
  match goal with |- context [fetch ?n ?q] =>
    pose proof (fun Hoff : forall k req, match fetch k req with
                                         | Responded r => resp_ok r = false
                                         | Rejected _ => True
                                         end => Hoff n q) as Hk;
    destruct (fetch n q) as [e|r]
  end.
  { eexists. split; [reflexivity|auto]. }
  destruct (resp_ok r) eqn:Hok.
  2:{ eexists. split; [reflexivity|auto]. }
  assert (Hnot : (forall k req, match fetch k req with
                                | Responded r => resp_ok r = false
                                | Rejected _ => True
                                end) -> False).
  { intros Hoff. specialize (Hk Hoff). congruence. }
  destruct (resp_json r) as [d2|e]; [|asked Hnot].
  destruct (get_prop d2 "data") as [data|e]; [|asked Hnot].
  destruct data as [| | | | |ms|]; try asked Hnot.
  destruct (mapR Agent.id_or_name ms); asked Hnot.
Qed.

(** X22 — fetchAIpipeModels needs a token and nothing else: without one it
    throws before any request; with one it never throws, whatever the two
    endpoints answer.  It makes exactly two GET requests with the token as
    bearer, and returns a list without repeated values that contains every
    model of the built-in fallback; when neither endpoint answers ok the list
    is the fallback itself. *)
Theorem X22_aipipe_models :
  forall (E : Env) (w : World),
    (Agent.fetchAIpipeModels None w = (Throw (Error "AI Pipe token required"), w) /\
     Agent.fetchAIpipeModels (Some "") w = (Throw (Error "AI Pipe token required"), w)) /\
    (forall token,
        token <> "" ->
        exists models,
          Agent.fetchAIpipeModels (Some token) w
          = (Ok models,
             set_trace
               (trace w ++
                [EvFetch (get_request "https://aipipe.org/openrouter/v1/models"
                            (Agent.bearer token));
                 EvFetch (get_request "https://aipipe.org/openai/v1/models"
                            (Agent.bearer token))]) w) /\
          Forall (fun m => In m models) Agent.aipipe_fallback /\
          distinct_values models /\
          ((forall k req, match fetch k req with
                          | Responded r => resp_ok r = false
                          | Rejected _ => True
                          end) -> models = Agent.aipipe_fallback)).
Proof.
  intros E w. split; [split; reflexivity|].
  intros token Ht. apply String.eqb_neq in Ht.
  unfold Agent.fetchAIpipeModels. rewrite Ht.
  destruct (openrouter_models_run token w) as (first & E1 & Hoff1).
  rewrite (bind_ok _ _ _ _ _ E1).
  destruct (openai_models_run token
              (set_trace (trace w ++ [EvFetch (get_request "https://aipipe.org/openrouter/v1/models"
                                                 (Agent.bearer token))]) w))
    as (second & E2 & Hoff2).
  rewrite (bind_ok _ _ _ _ _ E2).
  eexists. split; [|split; [|split]].
  - unfold ret. cbn [trace set_trace]. rewrite <- app_assoc. reflexivity.
  - apply Forall_forall. intros m Hm. apply unique_spec, in_or_app. now right.
  - apply unique_spec.
  - intros Hoff. rewrite (Hoff1 Hoff), (Hoff2 Hoff). reflexivity.
Qed.

Lemma X22_witness :
  exists models,
    @Agent.fetchAIpipeModels Examples.offline (Some "tok")
      (Examples.holding "")
    = (Ok models,
       set_trace
         ([] ++
          [EvFetch (get_request "https://aipipe.org/openrouter/v1/models" (Agent.bearer "tok"));
           EvFetch (get_request "https://aipipe.org/openai/v1/models" (Agent.bearer "tok"))])
         (Examples.holding "")) /\
    Forall (fun m => In m models) Agent.aipipe_fallback /\
    distinct_values models /\
    ((forall k req, match @fetch Examples.offline k req with
                    | Responded r => resp_ok r = false
                    | Rejected _ => True
                    end) -> models = Agent.aipipe_fallback).
Proof.
  apply (proj2 (X22_aipipe_models Examples.offline (Examples.holding "")) "tok").
  discriminate.
Defined.

(** Names from both endpoints: those of the first come first, a name both
    give is kept once, the fallback fills the rest. *)
Example aipipe_models_merged :
  fst (@Agent.fetchAIpipeModels
         (Reference.env (fun k _ =>
            Examples.answer
              (match k with
               | O => VObj [("models", VArr [VObj [("name", VStr "openai/gpt-4o")];
                                             VObj [("id", VStr "x/y")]])]
               | _ => VObj [("data", VArr [VObj [("id", VStr "x/y")];
                                           VObj [("id", VStr "z")]])]
               end)))
         (Some "tok") (Examples.holding ""))
  = Ok [VStr "openai/gpt-4o"; VStr "x/y"; VStr "z"; VStr "openai/gpt-4o-mini";
        VStr "openai/gpt-4.1"; VStr "openai/gpt-4o-realtime-preview";
        VStr "openai/gpt-3.5-turbo"].
Proof. reflexivity. Qed.

(* ===================================================================== *)
(** ** The theme                                                         *)
(* ===================================================================== *)

Lemma assign_again (k : string) (v v0 : value) (props : list (string * value)) :
  assign k v (assign k v0 props) = assign k v props.
Proof.
  induction props as [|[k' x] rest IH]; cbn [assign].
  - now rewrite String.eqb_refl.
  - destruct (k =? k')%string eqn:E; cbn [assign].
    + now rewrite String.eqb_refl.
    + now rewrite E, IH.
Qed.

Lemma set_settings_same (w : World) : set_settings (settings w) w = w.
Proof. destruct w. reflexivity. Qed.

Lemma explicit_preference_fails (w : World) (page : Page) :
  str_is (theme_preference w) "auto" = false ->
  Agent.updateTheme w page = inl (ReferenceError "Cannot access 'theme' before initialization") /\
  Agent.applySettings w page = page.
Proof.
  intros Hp. unfold Agent.applySettings, Agent.updateTheme.
  change (js_or (get_prop_opt (get_prop_opt (settings w) "ui") "theme") (VStr "auto"))
    with (theme_preference w).
  rewrite Hp. split; reflexivity.
Qed.

Lemma toggleTheme_run (page : Page) (w : World) (st ui : list (string * value)) :
  settings w = VObj st ->
  lookup "ui" st = VObj ui ->
  let newTheme := if (shown_theme page =? "dark")%string then "light" else "dark" in
  let st' := VObj (assign "ui" (VObj (assign "theme" (VStr newTheme) ui)) st) in
  Agent.toggleTheme page w = (Ok page, set_settings st' w) /\
  theme_preference (set_settings st' w) = VStr newTheme.
Proof.
  intros Hst Hui newTheme st'.
  assert (Hpref : theme_preference (set_settings st' w) = VStr newTheme).
  { unfold theme_preference, st', get_prop_opt. cbn [settings set_settings get_prop].
    rewrite lookup_assign_same. cbn [get_prop]. rewrite lookup_assign_same.
    unfold newTheme. destruct (shown_theme page =? "dark")%string; reflexivity. }
  split; [|exact Hpref].
  unfold Agent.toggleTheme. rewrite bind_gets, Hst. cbn [get_prop].
  rewrite bind_lift_ok, Hui. cbn [set_prop]. rewrite !bind_lift_ok, bind_modify, bind_gets.
  fold (shown_theme page). fold newTheme. fold st'. unfold ret. f_equal. f_equal.
  apply explicit_preference_fails. rewrite Hpref.
  unfold newTheme. destruct (shown_theme page =? "dark")%string; reflexivity.
Qed.

(** X23 — A theme preference other than "auto" is never applied to the
    page: updateTheme throws a ReferenceError before it touches the document
    and applySettings swallows it.  So toggleTheme stores the opposite of the
    theme the page shows but leaves the page as it is, and toggling again
    stores the same preference again: the toggle does not alternate. *)
Theorem X23_explicit_theme_is_not_applied :
  forall (page : Page) (w : World) (st ui : list (string * value)),
    (str_is (theme_preference w) "auto" = false -> Agent.applySettings w page = page) /\
    (settings w = VObj st ->
     lookup "ui" st = VObj ui ->
     exists w',
       Agent.toggleTheme page w = (Ok page, w') /\
       theme_preference w'
       = VStr (if (shown_theme page =? "dark")%string then "light" else "dark") /\
       Agent.toggleTheme page w' = (Ok page, w')).
Proof.
  intros page w st ui. split.
  - intros Hp. apply explicit_preference_fails, Hp.
  - intros Hst Hui.
    destruct (toggleTheme_run page w st ui Hst Hui) as (Et & Hp).
    eexists. split; [exact Et|]. split; [exact Hp|].
    match goal with |- Agent.toggleTheme page ?x = _ => set (w' := x) end.
    destruct (toggleTheme_run page w'
                (assign "ui"
                   (VObj (assign "theme"
                            (VStr (if (shown_theme page =? "dark")%string
                                   then "light" else "dark")) ui)) st)
                (assign "theme"
                   (VStr (if (shown_theme page =? "dark")%string then "light" else "dark")) ui)
                eq_refl (lookup_assign_same _ _ _)) as (Et2 & _).
    rewrite Et2. f_equal. rewrite !assign_again.
    unfold w'. destruct w. reflexivity.
Qed.

Lemma X23_witness :
  exists w',
    Agent.toggleTheme
      {| data_theme := Some "light"; prefers_dark := Some true; toggle_icon := Some "fas fa-moon" |}
      (set_settings (VObj [("ui", VObj [("theme", VStr "auto")])]) (Examples.holding ""))
    = (Ok {| data_theme := Some "light"; prefers_dark := Some true;
             toggle_icon := Some "fas fa-moon" |}, w') /\
    theme_preference w' = VStr "dark" /\
    Agent.toggleTheme
      {| data_theme := Some "light"; prefers_dark := Some true; toggle_icon := Some "fas fa-moon" |}
      w'
    = (Ok {| data_theme := Some "light"; prefers_dark := Some true;
             toggle_icon := Some "fas fa-moon" |}, w').
Proof.
  apply (proj2 (X23_explicit_theme_is_not_applied
                  {| data_theme := Some "light"; prefers_dark := Some true;
                     toggle_icon := Some "fas fa-moon" |}
                  (set_settings (VObj [("ui", VObj [("theme", VStr "auto")])])
                     (Examples.holding ""))
                  [("ui", VObj [("theme", VStr "auto")])] [("theme", VStr "auto")])).
  - reflexivity.
  - reflexivity.
Defined.

(** With the preference "auto" the page follows the system: here it turns
    dark and the toggle shows the sun. *)
Example auto_theme_follows_the_system :
  Agent.applySettings
    (set_settings (VObj [("ui", VObj [("theme", VStr "auto")])]) (Examples.holding ""))
    {| data_theme := None; prefers_dark := Some true; toggle_icon := Some "fas fa-moon" |}
  = {| data_theme := Some "dark"; prefers_dark := Some true; toggle_icon := Some "fas fa-sun" |}.
Proof. reflexivity. Qed.

(* ===================================================================== *)
(** ** The log during a turn                                             *)
(* ===================================================================== *)

Lemma grows_extends (Q : value -> Prop) (convId : value) (w w' : World) :
  grows Q convId w w' -> extends convId w w'.
Proof.
  intros (_ & C & _ & _ & G). split; [exact C|].
  intros msgs Hc. destruct (G msgs Hc) as (extra & Hc' & _). eauto.
Qed.

Lemma extends_trans (convId : value) (a b c : World) :
  extends convId a b -> extends convId b c -> extends convId a c.
Proof.
  intros (C1 & G1) (C2 & G2). split; [congruence|].
  intros msgs Hc. destruct (G1 _ Hc) as (e1 & Hc1). destruct (G2 _ Hc1) as (e2 & Hc2).
  exists (e1 ++ e2). now rewrite app_assoc.
Qed.

Lemma iteration_grows `{Env} (convId : value) :
  preserves (grows (fun _ => True) convId) (Agent.iteration convId).
Proof.
  unfold Agent.iteration. pres.
  - apply iteration_body_grows.
  - apply addMessage_grows. auto.
Qed.

Lemma turns_grows `{Env} (maxTurns : nat) (convId : value) :
  preserves (grows (fun _ => True) convId) (Agent.turns maxTurns convId).
Proof.
  induction maxTurns as [|n IH]; cbn [Agent.turns].
  - apply preserves_ret, grows_refl.
  - apply preserves_bind; [apply grows_trans | apply iteration_grows |].
    intros [|]; [apply IH | apply preserves_ret, grows_refl].
Qed.

Lemma agentLoop_grows `{Env} (convId : value) :
  preserves (grows (fun _ => True) convId) (Agent.agentLoop convId).
Proof.
  unfold Agent.agentLoop. pres. apply turns_grows.
Qed.

Lemma guarded_agentLoop_grows `{Env} (convId : value) (h : exn -> string) :
  preserves (grows (fun _ => True) convId)
    (try_catch (Agent.agentLoop convId)
       (fun e => Agent.addMessage "system" (VStr (h e)) convId)).
Proof.
  pres.
  - apply agentLoop_grows.
  - apply addMessage_grows. auto.
Qed.



(** White space beyond ASCII is trimmed too: an input of no-break spaces
    starts no turn, and the text of the user message ends where the input
    does. *)
Example blank_input_starts_no_turn :
  let w := Examples.world (Examples.llm_settings (VStr "aipipe") (VStr ""))
             [Examples.user_message] in
  @Agent.sendMessage Examples.offline (Some (Examples.nbsp ^^ " " ^^ Examples.nbsp)) w
  = (Ok tt, w) /\
  trim (Examples.nbsp ^^ "what now?" ^^ Examples.nbsp) = "what now?".
Proof. cbv zeta. split; vm_compute; reflexivity. Qed.

(* ===================================================================== *)
(** ** The model lists of OpenAI and Google                              *)
(* ===================================================================== *)

Lemma string_leb_trans (a b c : string) :
  String.leb a b = true -> String.leb b c = true -> String.leb a c = true.
Proof.
  unfold String.leb. revert b c.
  induction a as [|ca a IH]; intros [|cb b] [|cc c]; cbn; try easy.
  unfold Ascii.compare.
  destruct (N.compare_spec (N_of_ascii ca) (N_of_ascii cb)) as [e1|l1|g1];
    destruct (N.compare_spec (N_of_ascii cb) (N_of_ascii cc)) as [e2|l2|g2];
    destruct (N.compare_spec (N_of_ascii ca) (N_of_ascii cc)) as [e3|l3|g3];
    intros H1 H2; try discriminate; try reflexivity; try lia; eauto.
Qed.

Lemma string_le_trans (a b c : value) : string_le a b -> string_le b c -> string_le a c.
Proof.
  intros (x & y & Hx & Hy & L1) (y' & z & Hy' & Hz & L2).
  rewrite Hy in Hy'. inversion Hy'; subst y'.
  exists x, z. repeat split; auto. eapply string_leb_trans; eauto.
Qed.

Lemma by_string_sign (x z : value) (c : Z) :
  Agent.by_string x z = Ok c ->
  if (c <=? 0)%Z then string_le x z else string_le z x.
Proof.
  unfold Agent.by_string, string_le.
  destruct (ToString x) as [sx|] eqn:Hx; cbn [rbind]; [|discriminate].
  destruct (ToString z) as [sz|] eqn:Hz; cbn [rbind]; [|discriminate].
  intros Hc. inversion Hc; subst c. clear Hc.
  destruct (String.compare sx sz) eqn:Hcmp; cbn.
  - exists sx, sz. repeat split; auto. unfold String.leb. now rewrite Hcmp.
  - exists sx, sz. repeat split; auto. unfold String.leb. now rewrite Hcmp.
  - exists sz, sx. repeat split; auto. unfold String.leb.
    rewrite String.compare_antisym, Hcmp. reflexivity.
Qed.

Lemma insert_sorted_string (x : value) (l : list value) :
  forall l',
    Agent.insert_sorted Agent.by_string x l = Ok l' -> ascending l ->
    ascending l' /\ (forall y, In y l' <-> y = x \/ In y l).
Proof.
  induction l as [|z rest IH]; intros l'; cbn [Agent.insert_sorted].
  - intros E _. inversion E; subst. cbn. intuition.
  - destruct (Agent.by_string x z) as [c|] eqn:Hc; cbn [rbind]; [|discriminate].
    apply by_string_sign in Hc. intros E (Hall & Hs).
    destruct (c <=? 0)%Z.
    + inversion E; subst l'. split.
      * cbn [ascending]. repeat split; auto. constructor; [exact Hc|].
        eapply Forall_impl; [|exact Hall]. intros y Hy. eapply string_le_trans; eauto.
      * intros y. cbn [In]. intuition.
    + destruct (Agent.insert_sorted Agent.by_string x rest) as [r'|] eqn:Er;
        cbn [rbind] in E; [|discriminate].
      inversion E; subst l'.
      destruct (IH r' eq_refl Hs) as (Hs' & Hin). split.
      * cbn [ascending]. split; auto.
        apply Forall_forall. intros y Hy. apply Hin in Hy. destruct Hy as [->|Hy]; auto.
        eapply Forall_forall in Hall; eauto.
      * intros y. cbn [In]. rewrite Hin. intuition.
Qed.

Lemma sort_by_string (l : list value) :
  forall s,
    Agent.sort_by Agent.by_string l = Ok s ->
    ascending s /\ (forall y, In y s <-> In y l).
Proof.
  induction l as [|x rest IH]; intros s; cbn [Agent.sort_by].
  - intros E. inversion E; subst. cbn. intuition.
  - destruct (Agent.sort_by Agent.by_string rest) as [sorted|] eqn:Es;
      cbn [rbind]; [|discriminate].
    intros E. destruct (IH sorted eq_refl) as (Hs & Hin).
    destruct (insert_sorted_string x sorted s E Hs) as (Hs' & Hin').
    split; [exact Hs'|]. intros y. rewrite Hin'. cbn [In]. rewrite Hin. intuition.
Qed.

Lemma descending_snoc (x : value) (l : list value) :
  descending l -> Forall (fun y => string_le x y) l -> descending (l ++ [x]).
Proof.
  induction l as [|a l IH]; cbn [descending app].
  - intros _ _. split; constructor.
  - intros (Hall & Hd) Hx. inversion Hx; subst. split; [|apply IH; auto].
    apply Forall_app. split; [exact Hall|]. constructor; [assumption | constructor].
Qed.

Lemma descending_rev (l : list value) : ascending l -> descending (rev l).
Proof.
  induction l as [|x rest IH]; cbn [ascending rev]; [constructor|].
  intros (Hall & Ha). apply descending_snoc; [apply IH, Ha|].
  apply Forall_forall. intros y Hy. apply in_rev in Hy.
  eapply Forall_forall in Hall; eauto.
Qed.

Lemma filterR_sound (p : value -> result bool) (l : list value) :
  forall l',
    filterR p l = Ok l' ->
    Forall (fun x => p x = Ok true) l' /\ (forall x, In x l' -> In x l).
Proof.
  induction l as [|a l IH]; intros l'; cbn [filterR].
  - intros E. inversion E; subst. split; [constructor | auto].
  - destruct (p a) as [keep|] eqn:Hp; cbn [rbind]; [|discriminate].
    destruct (filterR p l) as [rest|] eqn:Hr; cbn [rbind]; [|discriminate].
    destruct (IH rest eq_refl) as (Hall & Hin).
    intros E. inversion E; subst l'. destruct keep.
    + split; [constructor; auto|]. intros x [->|Hx]; [now left | right; auto].
    + split; [exact Hall|]. intros x Hx. right. auto.
Qed.

Lemma mapR_pairs {A B : Type} (f : A -> result B) (l : list A) :
  forall l', mapR f l = Ok l' -> Forall2 (fun x y => f x = Ok y) l l'.
Proof.
  induction l as [|a l IH]; intros l'; cbn [mapR].
  - intros E. inversion E; subst. constructor.
  - destruct (f a) as [y|] eqn:Hf; cbn [rbind]; [|discriminate].
    destruct (mapR f l) as [ys|] eqn:Hm; cbn [rbind]; [|discriminate].
    intros E. inversion E; subst. constructor; auto.
Qed.

Lemma no_undefined (l : list value) :
  Forall (fun v => truthy v = true) l ->
  filter (fun v => negb (Agent.is_undefined v)) l = l /\ filter Agent.is_undefined l = [].
Proof.
  induction 1 as [|v l Hv _ (IH1 & IH2)]; [split; reflexivity|].
  cbn [filter]. destruct v; cbn in *; try discriminate; rewrite ?IH1, ?IH2; auto.
Qed.

(** What fetchOpenAIModels makes of an answer that is ok. *)
Lemma gpt_ids (models : value) (gpts ids sorted : list value) :
  array_filter models
    (fun m => let+ id := get_prop m "id" in
              if truthy id then includes id "gpt" else Ok false) = Ok gpts ->
  mapR (fun model => get_prop model "id") gpts = Ok ids ->
  Agent.array_sort ids = Ok sorted ->
  Forall (fun n => includes n "gpt" = Ok true) (rev sorted) /\ descending (rev sorted).
Proof.
  intros Hf Hm Hs.
  assert (Hg : Forall (fun m => exists id, get_prop m "id" = Ok id /\ truthy id = true /\
                                          includes id "gpt" = Ok true) gpts).
  { destruct models; try discriminate. cbn [array_filter] in Hf.
    apply filterR_sound in Hf. destruct Hf as (Hall & _).
    eapply Forall_impl; [|exact Hall]. cbn beta. intros m Hmm.
    destruct (get_prop m "id") as [id|]; cbn [rbind] in Hmm; [|discriminate].
    exists id. destruct (truthy id); [auto | discriminate]. }
  apply mapR_pairs in Hm.
  assert (Hi : Forall (fun id => truthy id = true /\ includes id "gpt" = Ok true) ids).
  { clear Hs Hf. revert Hg.
    induction Hm as [|m id gs rest Hid _ IH]; intros Hg; [constructor|].
    inversion Hg as [|? ? (id' & Hid' & Ht & Hinc) Hrest]; subst.
    rewrite Hid in Hid'. inversion Hid'; subst id'. constructor; auto. }
  destruct (no_undefined ids) as (F1 & F2).
  { eapply Forall_impl; [|exact Hi]. now intros v (Ht & _). }
  unfold Agent.array_sort in Hs. rewrite F1, F2 in Hs.
  destruct (Agent.sort_by Agent.by_string ids) as [s|] eqn:Es; cbn [rbind] in Hs;
    [|discriminate].
  inversion Hs; subst sorted. rewrite app_nil_r.
  destruct (sort_by_string ids s Es) as (Ha & Hin). split.
  - apply Forall_forall. intros n Hn. apply in_rev, Hin in Hn.
    eapply Forall_forall in Hi; eauto. tauto.
  - apply descending_rev, Ha.
Qed.

(** X25 — fetchOpenAIModels asks nothing without a key: it throws before
    any request.  With a key it makes one GET request with the key as bearer
    and changes nothing else; it returns a list only for an answer that is ok,
    and every name of the list includes "gpt" and none comes after a name
    that is smaller in the order of the strings. *)
Theorem X25_openai_models :
  forall (E : Env) (w : World),
    (Agent.fetchOpenAIModels None w = (Throw (Error "API Key required for OpenAI"), w) /\
     Agent.fetchOpenAIModels (Some "") w = (Throw (Error "API Key required for OpenAI"), w)) /\
    (forall apiKey,
        apiKey <> "" ->
        let request := get_request "https://api.openai.com/v1/models" (Agent.bearer apiKey) in
        exists r,
          Agent.fetchOpenAIModels (Some apiKey) w
          = (r, set_trace (trace w ++ [EvFetch request]) w) /\
          (forall names,
              r = Ok names ->
              (exists response,
                  fetch (network_requests (trace w)) request = Responded response /\
                  resp_ok response = true) /\
              Forall (fun n => includes n "gpt" = Ok true) names /\
              descending names)).
Proof.
  intros E w. split; [split; reflexivity|].
  intros apiKey Hk request. apply String.eqb_neq in Hk.
  unfold Agent.fetchOpenAIModels. rewrite Hk. fold request.
  unfold bind at 1, do_fetch.
  destruct (fetch (network_requests (trace w)) request) as [e|response] eqn:Hf.
  { eexists. split; [reflexivity|]. discriminate. }
  destruct (resp_ok response) eqn:Hok; cbn [negb].
  - unfold bind, lift, ret.
    destruct (resp_json response) as [data|]; [|eexists; split; [reflexivity|discriminate]].
    destruct (get_prop data "data") as [models|];
      [|eexists; split; [reflexivity|discriminate]].
    destruct (array_filter models _) as [gpts|] eqn:Hg;
      [|eexists; split; [reflexivity|discriminate]].
    destruct (mapR _ gpts) as [ids|] eqn:Hm;
      [|eexists; split; [reflexivity|discriminate]].
    destruct (Agent.array_sort ids) as [sorted|] eqn:Hs;
      [|eexists; split; [reflexivity|discriminate]].
    eexists. split; [reflexivity|].
    intros names Hn. inversion Hn; subst names. split; [eauto|].
    eapply gpt_ids; eauto.
  - unfold bind, lift, throw.
    destruct (Agent.key_error response "Invalid OpenAI Key");
      eexists; (split; [reflexivity|discriminate]).
Qed.

Lemma X25_witness :
  exists r,
    @Agent.fetchOpenAIModels Examples.offline (Some "sk-1") (Examples.holding "")
    = (r, set_trace
            ([] ++ [EvFetch (get_request "https://api.openai.com/v1/models"
                               (Agent.bearer "sk-1"))])
            (Examples.holding "")) /\
    (forall names,
        r = Ok names ->
        (exists response,
            @fetch Examples.offline 0
              (get_request "https://api.openai.com/v1/models" (Agent.bearer "sk-1"))
            = Responded response /\
            resp_ok response = true) /\
        Forall (fun n => includes n "gpt" = Ok true) names /\
        descending names).
Proof.
  apply (proj2 (X25_openai_models Examples.offline (Examples.holding "")) "sk-1").
  discriminate.
Defined.

(** The ids that include "gpt", the largest string first. *)
Example openai_models_listed :
  fst (@Agent.fetchOpenAIModels
         (Reference.env (fun _ _ =>
            Examples.answer
              (VObj [("data", VArr [VObj [("id", VStr "gpt-4")];
                                    VObj [("id", VStr "whisper-1")];
                                    VObj [("id", VStr "gpt-4o")];
                                    VObj [("object", VStr "model")];
                                    VObj [("id", VStr "gpt-3.5-turbo")]])])))
         (Some "sk-1") (Examples.holding ""))
  = Ok [VStr "gpt-4o"; VStr "gpt-4"; VStr "gpt-3.5-turbo"].
Proof. reflexivity. Qed.

Lemma filterR_filter (p : value -> result bool) (l : list value) :
  forall l',
    filterR p l = Ok l' ->
    l' = filter (fun x => match p x with Ok b => b | Throw _ => false end) l.
Proof.
  induction l as [|a l IH]; intros l'; cbn [filterR filter].
  - intros E. inversion E. reflexivity.
  - destruct (p a) as [keep|] eqn:Hp; cbn [rbind]; [|discriminate].
    destruct (filterR p l) as [rest|] eqn:Hr; cbn [rbind]; [|discriminate].
    intros E. inversion E; subst l'. rewrite (IH rest eq_refl). reflexivity.
Qed.

(** What fetchGoogleModels makes of the models of an answer. *)
Lemma google_names (data models : value) (usable names : list value) :
  get_prop data "models" = Ok models ->
  array_filter (js_or models (VArr []))
    (fun m => let+ methods := get_prop m "supportedGenerationMethods" in
              includes (js_or methods (VArr [])) "generateContent") = Ok usable ->
  mapR (fun m => let+ name := get_prop m "name" in replace name "models/" "") usable
  = Ok names ->
  Forall2 short_name_of (filter generates_content (listed_models data)) names.
Proof.
  intros Hmodels Hu Hm.
  assert (Hl : exists ms, js_or models (VArr []) = VArr ms /\ listed_models data = ms).
  { unfold listed_models, get_prop_opt. rewrite Hmodels.
    destruct (js_or models (VArr [])); try discriminate. eauto. }
  destruct Hl as (ms & Hjs & ->). rewrite Hjs in Hu. cbn [array_filter] in Hu.
  apply filterR_filter in Hu.
  assert (Hsame : usable = filter generates_content ms).
  { rewrite Hu. apply filter_ext. intros m. unfold generates_content.
    destruct (get_prop m "supportedGenerationMethods"); reflexivity. }
  rewrite <- Hsame. apply mapR_pairs in Hm.
  eapply Forall2_impl; [|exact Hm]. cbn beta. intros m n Hmn.
  destruct (get_prop m "name") as [name|] eqn:Hname; cbn [rbind] in Hmn; [|discriminate].
  destruct name as [| | | |s| |]; try discriminate.
  cbn [replace] in Hmn. inversion Hmn; subst n.
  exists s. split; [exact Hname | reflexivity].
Qed.

(** X26 — fetchGoogleModels asks nothing without a key: it throws before
    any request.  With a key it makes one GET request, the key in the query of
    the URL and no header, and changes nothing else.  It returns a list only
    for an answer that is ok, and the list is, entry by entry and in the order
    of the answer, the names of all the models of the answer that support
    generateContent, each a string without its first "models/". *)
Theorem X26_google_models :
  forall (E : Env) (w : World),
    (Agent.fetchGoogleModels None w = (Throw (Error "API Key required for Google"), w) /\
     Agent.fetchGoogleModels (Some "") w = (Throw (Error "API Key required for Google"), w)) /\
    (forall apiKey,
        apiKey <> "" ->
        let request :=
          get_request ("https://generativelanguage.googleapis.com/v1beta/models?key=" ^^ apiKey)
            [] in
        exists r,
          Agent.fetchGoogleModels (Some apiKey) w
          = (r, set_trace (trace w ++ [EvFetch request]) w) /\
          (forall names,
              r = Ok names ->
              exists response data,
                fetch (network_requests (trace w)) request = Responded response /\
                resp_ok response = true /\
                resp_json response = Ok data /\
                Forall2 short_name_of
                  (filter generates_content (listed_models data)) names)).
Proof.
  intros E w. split; [split; reflexivity|].
  intros apiKey Hk request. apply String.eqb_neq in Hk.
  unfold Agent.fetchGoogleModels. rewrite Hk. fold request.
  unfold bind at 1, do_fetch.
  destruct (fetch (network_requests (trace w)) request) as [e|response] eqn:Hf.
  { eexists. split; [reflexivity|]. discriminate. }
  destruct (resp_ok response) eqn:Hok; cbn [negb].
  - unfold bind, lift, ret.
    destruct (resp_json response) as [data|] eqn:Hd;
      [|eexists; split; [reflexivity|discriminate]].
    destruct (get_prop data "models") as [models|] eqn:Hmodels;
      [|eexists; split; [reflexivity|discriminate]].
    destruct (array_filter (js_or models (VArr [])) _) as [usable|] eqn:Hu;
      [|eexists; split; [reflexivity|discriminate]].
    destruct (mapR _ usable) as [names0|] eqn:Hm;
      [|eexists; split; [reflexivity|discriminate]].
    eexists. split; [reflexivity|].
    intros names Hn. inversion Hn; subst names.
    exists response, data. split; [reflexivity|]. split; [exact Hok|]. split; [exact Hd|].
    eapply google_names; eauto.
  - unfold bind, lift, throw.
    destruct (Agent.key_error response "Invalid Google Key");
      eexists; (split; [reflexivity|discriminate]).
Qed.

Lemma X26_witness :
  exists r,
    @Agent.fetchGoogleModels Examples.google (Some "k1") (Examples.holding "")
    = (r, set_trace
            ([] ++ [EvFetch (get_request
                               ("https://generativelanguage.googleapis.com/v1beta/models?key=" ^^ "k1")
                               [])])
            (Examples.holding "")) /\
    (forall names,
        r = Ok names ->
        exists response data,
          @fetch Examples.google 0
            (get_request ("https://generativelanguage.googleapis.com/v1beta/models?key=" ^^ "k1") [])
          = Responded response /\
          resp_ok response = true /\
          resp_json response = Ok data /\
          Forall2 short_name_of (filter generates_content (listed_models data)) names).
Proof.
  apply (proj2 (X26_google_models Examples.google (Examples.holding "")) "k1").
  discriminate.
Defined.

(** The models that generate content are listed, in the order of the
    answer and by their short names. *)
Example google_models_listed :
  fst (@Agent.fetchGoogleModels Examples.google (Some "k1") (Examples.holding ""))
  = Ok [VStr "gemini-pro"; VStr "gemini-flash"] /\
  filter generates_content (listed_models Examples.google_list)
  = [VObj [("name", VStr "models/gemini-pro");
           ("supportedGenerationMethods",
            VArr [VStr "generateContent"; VStr "countTokens"])];
     VObj [("name", VStr "models/gemini-flash");
           ("supportedGenerationMethods", VArr [VStr "generateContent"])]].
Proof. split; reflexivity. Qed.

(* ===================================================================== *)
(** ** The store after loading                                           *)
(* ===================================================================== *)

Lemma lift_inv {A : Type} (x : result A) (a : A) (w w' : World) :
  lift x w = (Ok a, w') -> x = Ok a /\ w' = w.
Proof. unfold lift. destruct x; intros E; inversion E; subst; auto. Qed.

Lemma map_set_usable (m : JsMap) (k v : value) :
  usable_store m -> usable_conversation v ->
  usable_store (map_set m k v) /\ map_set m k v <> [].
Proof.
  intros Hm Hv. induction Hm as [|[k' v'] rest Hx Hrest (IH & _)]; cbn [map_set].
  - split; [repeat constructor; exact Hv | discriminate].
  - destruct (same_key k' k); (split; [constructor; auto | discriminate]).
Qed.

Lemma create_usable `{Env} (w w1 : World) (r : result unit) :
  usable_store (conversations w) ->
  (let* _ := Agent.createNewConversation in ret tt) w = (r, w1) ->
  r = Ok tt /\ conversations w1 <> [] /\ usable_store (conversations w1).
Proof.
  intros Hw Er.
  destruct (createNewConversation_run w) as (w' & Ec & Hconvs & _).
  rewrite (bind_ok _ _ _ _ _ Ec) in Er. inversion Er; subst r w1.
  rewrite Hconvs.
  destruct (map_set_usable (conversations w) (new_id (clock w)) (new_conversation (clock w)) Hw)
    as (Hu & Hn); [reflexivity|]. auto.
Qed.

Lemma restore_defaults_usable `{Env} (conv conv' : value) (w w' : World) :
  Agent.restore_defaults conv w = (Ok conv', w') ->
  usable_conversation conv' /\ conversations w' = conversations w.
Proof.
  unfold Agent.restore_defaults.
  destruct conv as [| |b|n|s|l|props]; cbn [get_prop lift bind];
    try (unfold bind, lift; cbn; discriminate).
  - unfold bind, lift, ret, now. cbn.
    intros E. inversion E; subst. split; reflexivity.
  - assert (Hset : forall v w0 r w1,
               (let* conv1 := lift (set_prop (VObj props) "updatedAt" v) in
                let* messages := lift (get_prop conv1 "messages") in
                lift (set_prop conv1 "messages" (js_or messages (VArr [])))) w0
               = (Ok r, w1) ->
               usable_conversation r /\ conversations w1 = conversations w0).
    { intros v w0 r w1. cbn [set_prop]. rewrite bind_lift_ok. cbn [get_prop].
      rewrite bind_lift_ok. cbn [set_prop]. intros E.
      apply lift_inv in E. destruct E as (E & ->). inversion E; subst r.
      split; [|reflexivity]. cbn [usable_conversation]. rewrite lookup_assign_same.
      unfold js_or. destruct (truthy (lookup "messages" _)) eqn:Ht; [exact Ht | reflexivity]. }
    destruct (truthy (lookup "updatedAt" props)).
    + unfold bind at 1, ret at 1. apply Hset.
    + destruct (truthy (lookup "createdAt" props)).
      * unfold bind at 1, ret at 1. apply Hset.
      * unfold bind at 1, bind at 1, now, ret at 1. intros E.
        apply Hset in E. exact E.
Qed.

Lemma restore_from_usable `{Env} (todo : JsMap) :
  forall (done : JsMap) (w w' : World),
    Agent.restore_from done todo w = (Ok tt, w') ->
    conversations w = done ++ todo ->
    usable_store done ->
    usable_store (conversations w').
Proof.
  induction todo as [|[k conv] rest IH]; intros done w w'; cbn [Agent.restore_from].
  - intros E Hc Hd. inversion E; subst w'. rewrite Hc, app_nil_r. exact Hd.
  - intros E Hc Hd.
    apply bind_inv in E. destruct E as [(conv' & w1 & E1 & E) | (e & _ & He)]; [|discriminate].
    apply restore_defaults_usable in E1. destruct E1 as (Hu & _).
    rewrite bind_modify in E.
    eapply IH; [exact E | |].
    + cbn [conversations set_conversations]. rewrite <- app_assoc. reflexivity.
    + apply Forall_app. split; [exact Hd|]. repeat constructor. exact Hu.
Qed.

Lemma loaded_store_usable `{Env} (w w1 : World) :
  usable_store (conversations w) ->
  Agent.loadConversationHistory_body w = (Ok tt, w1) ->
  conversations w1 <> [] /\ usable_store (conversations w1).
Proof.
  intros Hw Eb. unfold Agent.loadConversationHistory_body in Eb.
  rewrite bind_gets in Eb.
  destruct (stored_conversations w) as [text|]; [|eapply create_usable; eauto].
  destruct (text =? "")%string; cbn [negb] in Eb; [eapply create_usable; eauto|].
  apply bind_inv in Eb. destruct Eb as [(parsed & wa & E1 & Eb) | (e & _ & He)]; [|discriminate].
  apply lift_inv in E1. destruct E1 as (_ & ->).
  apply bind_inv in Eb. destruct Eb as [(entries & wa & E1 & Eb) | (e & _ & He)]; [|discriminate].
  apply lift_inv in E1. destruct E1 as (_ & ->).
  apply bind_inv in Eb. destruct Eb as [(pairs & wa & E1 & Eb) | (e & _ & He)]; [|discriminate].
  apply lift_inv in E1. destruct E1 as (_ & ->).
  rewrite bind_modify, bind_gets in Eb. cbn [conversations set_conversations] in Eb.
  apply bind_inv in Eb. destruct Eb as [([] & w3 & E3 & Eb) | (e & _ & He)]; [|discriminate].
  apply restore_from_usable in E3; [|reflexivity|constructor].
  rewrite bind_gets in Eb.
  apply bind_inv in Eb. destruct Eb as [(sorted & wa & E1 & Eb) | (e & _ & He)]; [|discriminate].
  apply lift_inv in E1. destruct E1 as (Hsort & ->).
  destruct sorted as [|recent others]; [eapply create_usable; eauto|].
  destruct (truthy recent); [|eapply create_usable; eauto].
  apply bind_inv in Eb. destruct Eb as [(id & wa & E1 & Eb) | (e & _ & He)]; [|discriminate].
  apply lift_inv in E1. destruct E1 as (_ & ->).
  assert (Hsame : conversations w1 = conversations w3).
  { destruct (truthy id) eqn:Hid.
    - rewrite (loadConversation_run id w3 Hid) in Eb. inversion Eb; reflexivity.
    - unfold Agent.loadConversation in Eb. rewrite Hid in Eb. inversion Eb; reflexivity. }
  rewrite Hsame. split; [|exact E3].
  intros Hnil. rewrite Hnil in Hsort. discriminate.
Qed.

(** X27 — Whatever is stored, loadConversationHistory returns and leaves a
    Map that is not empty and in which every conversation is an object that
    has messages (or an array); this holds from any such Map, the empty Map
    of a new agent among them.  A stored entry that cannot be restored, such
    as a conversation that is null or a number, makes the load start fresh
    instead of leaving that entry in the Map. *)
Theorem X27_load_leaves_a_usable_store :
  forall (E : Env) (w : World),
    usable_store (conversations w) ->
    exists w',
      Agent.loadConversationHistory w = (Ok tt, w') /\
      conversations w' <> [] /\
      usable_store (conversations w').
Proof.
  intros E w Hw. unfold Agent.loadConversationHistory, try_catch.
  destruct (Agent.loadConversationHistory_body w) as [[[]|e] w1] eqn:Eb.
  - exists w1. split; [reflexivity|]. eapply loaded_store_usable; eauto.
  - rewrite bind_modify.
    destruct (Agent.createNewConversation (set_conversations [] w1)) as [r w'] eqn:Ec.
    destruct (create_usable (set_conversations [] w1) w'
                (match r with Ok _ => Ok tt | Throw e0 => Throw e0 end))
      as (Hr & Hn & Hu).
    + constructor.
    + unfold bind, ret. rewrite Ec. destruct r; reflexivity.
    + exists w'. split; [|auto]. unfold bind, ret. rewrite Ec.
      destruct r; [reflexivity | discriminate].
Qed.

Lemma X27_witness :
  exists w',
    @Agent.loadConversationHistory Examples.offline
      (Examples.holding "[[1, null]]") = (Ok tt, w') /\
    conversations w' <> [] /\
    usable_store (conversations w').
Proof.
  apply (X27_load_leaves_a_usable_store Examples.offline (Examples.holding "[[1, null]]")).
  vm_compute. constructor.
Defined.

